(** * pdf-editor: the page transforms of the browser tools

    A shallow embedding of the client-side handlers that rotate, crop,
    watermark and number the pages of a PDF, together with the properties
    the design document states about them.

    Conventions of the embedding:
    - page numbers, page indices and rotation angles are JavaScript numbers
      that hold integers; they are modelled by [Z], with the remainder
      operator [%] as [Z.rem] (the sign follows the dividend), and where a
      sum can leave the integers that a double holds exactly it is
      rounded by [roundToDouble] and printed by [numberToString];
    - lengths and coordinates are JavaScript numbers; the formulas are
      given three times: over the rationals [Q] (exact arithmetic), over
      the kernel's binary64 floats (the doubles themselves) and over [Q]
      with a rounding [fl] after every operation, of which only the
      standard bound [rounded] is assumed;
    - a [try { ... } catch] block is a computation in [outcome], whose
      [Thrown] stands for any exception. *)

From Stdlib Require Import ZArith QArith Qabs Qminmax Lia Lqa String Ascii.
From Stdlib Require Import PrimFloat FloatOps SpecFloat.
From stdpp Require Import base option list gmap strings pretty.

Local Open Scope Z_scope.

(** ** Exceptions *)

Inductive outcome (A : Type) : Type :=
| Ok (a : A)
| Thrown.
Arguments Ok {A} a.
Arguments Thrown {A}.

Definition obind {A B : Type} (c : outcome A) (k : A -> outcome B) : outcome B :=
  match c with
  | Ok a => k a
  | Thrown => Thrown
  end.

#[global] Instance outcome_bind : MBind outcome := fun A B k c => obind c k.
#[global] Instance outcome_ret : MRet outcome := fun A a => Ok a.

(** [try { c } catch { return h }] *)
Definition try_catch {A : Type} (c : outcome A) (h : A) : A :=
  match c with
  | Ok a => a
  | Thrown => h
  end.

(** A JavaScript [for ... of] loop whose body may throw: the state is
    threaded through the elements in order and the first exception ends
    the loop. *)
Fixpoint for_of {A S : Type} (body : S -> A -> outcome S) (xs : list A) (s : S)
  : outcome S :=
  match xs with
  | [] => Ok s
  | x :: xs' => s' ← body s x; for_of body xs' s'
  end.

(** [a.includes(b)] and [a.startsWith(b)] on strings. *)
Definition includes (s sub : string) : bool :=
  match String.index 0 sub s with
  | Some _ => true
  | None => false
  end.

Definition startsWith (s p : string) : bool := String.prefix p s.

(** ** JavaScript numbers that hold integers

    A JavaScript number is a double.  Every integer of magnitude up to
    2^53 is a double; beyond that only the multiples of a power of two
    are, and the sum of two numbers is the exact sum rounded to the
    nearest of them. *)

(** The double nearest to an integer, with ties going to the even
    mantissa.  Overflow to [Infinity], from 2^1024 on, is not modelled. *)
Definition roundToDouble (z : Z) : Z :=
  let a := Z.abs z in
  if a <=? 2 ^ 53 then z
  else
    let e := Z.log2 a - 52 in
    let q := Z.shiftr a e in
    let r := a - Z.shiftl q e in
    let half := Z.shiftl 1 (e - 1) in
    let q' := if (half <? r) || ((r =? half) && Z.odd q) then q + 1 else q in
    Z.sgn z * Z.shiftl q' e.

(** The number of decimal digits of a positive integer. *)
Definition digits10 (z : Z) : Z := Z.of_nat (String.length (pretty z)).

(** The multiple of [p10] nearest to the double [x] among those that
    round to [x], if there is one; of two equally near, the one with the
    even quotient. *)
Definition shortestAt (x p10 : Z) : option Z :=
  let lo := x / p10 * p10 in
  let hi := lo + p10 in
  let okLo := (0 <? lo) && (roundToDouble lo =? x) in
  let okHi := roundToDouble hi =? x in
  if okLo && okHi then
    Some (if x - lo <? hi - x then lo
          else if hi - x <? x - lo then hi
          else if Z.even (lo / p10) then lo else hi)
  else if okLo then Some lo
  else if okHi then Some hi
  else None.

Fixpoint shortestFrom (x : Z) (k : nat) : Z :=
  match shortestAt x (10 ^ Z.of_nat k) with
  | Some v => v
  | None => match k with O => x | S k' => shortestFrom x k' end
  end.

(** The decimal with the fewest significant digits that rounds to the
    positive double [x]. *)
Definition shortestDecimal (x : Z) : Z := shortestFrom x (Z.to_nat (digits10 x)).

Fixpoint stripZeros (fuel : nat) (v : Z) : Z :=
  match fuel with
  | O => v
  | S fuel' => if v mod 10 =? 0 then stripZeros fuel' (v / 10) else v
  end.

(** The string a template literal makes of a number that holds an
    integer ([Number::toString]): the decimal digits of an integer up to
    2^53; beyond that the digits of the shortest decimal that rounds to
    the number, padded with zeros, and in exponent notation from 21
    digits on. *)
Definition numberToString (z : Z) : string :=
  if Z.abs z <=? 2 ^ 53 then pretty z
  else
    let v := shortestDecimal (Z.abs z) in
    let sign := if z <? 0 then "-" else "" in
    let n := digits10 v in
    if n <=? 21 then sign +:+ pretty v
    else
      match pretty (stripZeros (Z.to_nat n) v) with
      | String d "" => sign +:+ String d "" +:+ "e+" +:+ pretty (n - 1)
      | String d rest =>
          sign +:+ String d "" +:+ "." +:+ rest +:+ "e+" +:+ pretty (n - 1)
      | EmptyString => sign
      end.

(** ** JavaScript numbers in general

    Lengths and coordinates are doubles as well.  Where a property
    depends on their rounding, the expression of the source is written a
    second time over the doubles of the kernel ([float], whose
    operations are those of IEEE 754 binary64), and a third time over
    the rationals with the rounding of each arithmetic result left as a
    parameter [fl]. *)

(** The value of a finite double (0 for [NaN] and the infinities). *)
Definition toQ (x : float) : Q :=
  match Prim2SF x with
  | S754_finite negative m e =>
      let magnitude :=
        if 0 <=? e then inject_Z (Z.pos m * 2 ^ e)
        else (inject_Z (Z.pos m) / inject_Z (2 ^ (- e)))%Q in
      if negative then (- magnitude)%Q else magnitude
  | _ => 0%Q
  end.

(** The unit roundoff of a double, 2^-53: away from overflow and
    underflow the result of an arithmetic operation differs from the
    exact one by at most this share of it. *)
Definition unitRoundoff : Q := 1 # 9007199254740992.

(** [result] is a rounding of [exact]. *)
Definition rounded (exact result : Q) : Prop :=
  (Qabs (result - exact) <= unitRoundoff * Qabs exact)%Q.

(** What the rounding of a few operations can add to or take from a
    coordinate on a page of the given extent: one part in 2^50. *)
Definition roundingSlack (extent : Q) : Q := (extent * (1 # 1125899906842624))%Q.

(** ** The document library (pdf-lib), as far as the tools use it

    The library is an external collaborator.  Its pages are modelled by
    the three things the tools read and write: the rotation entry, the
    page boxes and the list of content streams. *)

Record Rect : Type := mkRect
  { rect_x : Q; rect_y : Q; rect_width : Q; rect_height : Q }.

(** Two rectangles that agree within a tolerance on every field. *)
Definition rect_close (tolerance : Q) (a b : Rect) : Prop :=
  (Qabs (rect_x a - rect_x b) <= tolerance /\
   Qabs (rect_y a - rect_y b) <= tolerance /\
   Qabs (rect_width a - rect_width b) <= tolerance /\
   Qabs (rect_height a - rect_height b) <= tolerance)%Q.

(** Colours are the three components handed to [rgb]. *)
Definition Color : Type := (Q * Q * Q)%type.

(** One drawing call, as recorded in a content stream. *)
Inductive operator : Type :=
| DrawText (text : string) (x y size : Q) (color : Color)
    (opacity : option Q) (rotate : Q)
| DrawImage (x y width height opacity rotate : Q)
| DrawRectangle (x y width height opacity rotate : Q).

(** An entry of a page's [/Contents]: a stream that was in the file, one
    of the two streams the library keeps to save ([q]) and restore ([Q])
    the graphics state, or the stream the page object itself created for
    the drawing calls. *)
Inductive streamRef : Type :=
| Existing (id : nat)
| PushGraphicsState
| PopGraphicsState
| Own.

(** [page.node.Contents()]: absent, a single stream, or a [PDFArray]. *)
Inductive contents : Type :=
| NoContents
| PDFStream (r : streamRef)
| PDFArray (l : list streamRef).

Record Page : Type := mkPage
  { Rotate : Z;
    MediaBox : Rect;
    CropBox : option Rect;
    Contents : contents;
    contentStream : option (list operator) }.

(** What a file holds, as its parsers see it. *)
Inductive FileData : Type :=
| PdfData (pages : list Page)
| PngData (width height : Q)
| JpgData (width height : Q)
| OtherData.

Record File : Type := mkFile
  { name : string; fileType : string; data : FileData }.

(** [PDFDocument.load]: throws on anything that is not a PDF. *)
Definition load (d : FileData) : outcome (list Page) :=
  match d with
  | PdfData pages => Ok pages
  | _ => Thrown
  end.

(** The page [pdfDoc.addPage()] makes when it is given nothing: A4
    (595.28 x 841.89 points), with no rotation entry, no crop box and no
    content. *)
Definition defaultPage : Page :=
  mkPage 0 (mkRect 0 0 (59528 # 100) (84189 # 100)) None NoContents None.

(** [pdfDoc.save()] with its default options: a document that has no
    page is given the default page before it is written. *)
Definition save (pages : list Page) : FileData :=
  match pages with
  | [] => PdfData [defaultPage]
  | _ :: _ => PdfData pages
  end.

(** [pdfDoc.embedPng] and [pdfDoc.embedJpg]: the size of the image, or an
    exception when the bytes are of another format. *)
Definition embedPng (d : FileData) : outcome (Q * Q) :=
  match d with
  | PngData w h => Ok (w, h)
  | _ => Thrown
  end.

Definition embedJpg (d : FileData) : outcome (Q * Q) :=
  match d with
  | JpgData w h => Ok (w, h)
  | _ => Thrown
  end.

(** [page.getSize()]: width and height of the media box. *)
Definition getSize (page : Page) : Q * Q :=
  (rect_width (MediaBox page), rect_height (MediaBox page)).

(** [pages[i]] for a number [i]; [None] is [undefined]. *)
Definition page_at (pages : list Page) (i : Z) : option Page :=
  if i <? 0 then None else pages !! Z.to_nat i.

(** Running [f] on the page object [pages[i]].  The object belongs to the
    document, so the document sees what [f] does to it; on [undefined]
    the first property access throws. *)
Definition mutate_page (f : Page -> outcome Page) (pages : list Page) (i : Z)
  : outcome (list Page) :=
  match page_at pages i with
  | Some page =>
      page' ← f page;
      Ok (<[Z.to_nat i := page']> pages)
  | None => Thrown
  end.

(** The body of a page loop whose work on page [i] is [f i]. *)
Definition visits (f : Z -> Page -> outcome Page) (pages : list Page) (i : Z)
  : outcome (list Page) :=
  mutate_page (f i) pages i.

(** The streams of [/Contents], in order. *)
Definition entries (c : contents) : list streamRef :=
  match c with
  | NoContents => []
  | PDFStream r => [r]
  | PDFArray l => l
  end.

(** [PDFPageLeaf.normalize()], which the library runs on a page object
    before it adds anything to it: a single stream becomes an array of
    one entry, and the array is wrapped between the streams that save
    and restore the graphics state ([wrapContentStreams], with the
    default [autoNormalizeCTM]).  An absent [/Contents] stays absent. *)
Definition normalize (c : contents) : contents :=
  match c with
  | NoContents => NoContents
  | PDFStream r => PDFArray (PushGraphicsState :: [r] ++ [PopGraphicsState])
  | PDFArray l => PDFArray (PushGraphicsState :: l ++ [PopGraphicsState])
  end.

(** [addContentStream]: the stream is pushed onto the normalized
    [/Contents], or onto a new array when there is none. *)
Definition addContentStream (r : streamRef) (c : contents) : contents :=
  PDFArray (entries (normalize c) ++ [r]).

(** A drawing call appends its operator to the content stream of the page
    object.  The first call creates that stream and adds it to
    [/Contents]. *)
Definition pushOperator (op : operator) (page : Page) : Page :=
  match contentStream page with
  | Some ops =>
      mkPage (Rotate page) (MediaBox page) (CropBox page) (Contents page)
        (Some (ops ++ [op]))
  | None =>
      mkPage (Rotate page) (MediaBox page) (CropBox page)
        (addContentStream Own (Contents page))
        (Some [op])
  end.

(** The operators drawn on a page since it was loaded, oldest first. *)
Definition operators (page : Page) : list operator :=
  default [] (contentStream page).

(** The origin a drawing call was given. *)
Definition origin (op : operator) : Q * Q :=
  match op with
  | DrawText _ x y _ _ _ _ => (x, y)
  | DrawImage x y _ _ _ _ => (x, y)
  | DrawRectangle x y _ _ _ _ => (x, y)
  end.

(** pdf-lib's [page.setRotation(degrees(a))]: it asserts that the angle is
    a multiple of 90 and stores it as it is. *)
Definition setRotation (angle : Z) (page : Page) : outcome Page :=
  if Z.rem angle 90 =? 0
  then Ok (mkPage angle (MediaBox page) (CropBox page) (Contents page)
             (contentStream page))
  else Thrown.

Definition setCropBox (r : Rect) (page : Page) : Page :=
  mkPage (Rotate page) (MediaBox page) (Some r) (Contents page)
    (contentStream page).

Definition setMediaBox (r : Rect) (page : Page) : Page :=
  mkPage (Rotate page) r (CropBox page) (Contents page) (contentStream page).

(** The parts of the library that are left abstract: font metrics, colour
    construction and the argument checks of the drawing calls.
    [widthOfTextAtSize] throws on text the font cannot encode; [rgbOfHex]
    stands for the three [parseInt(hex.substring(..), 16) / 255] and
    pdf-lib's [rgb], which throws on a component that is NaN or outside
    [0, 1]; [accepts] tells whether a drawing call passes the checks the
    library makes on its arguments. *)
Class PdfLib : Type :=
  { widthOfTextAtSize : string -> Q -> outcome Q;
    heightAtSize : Q -> Q;
    rgbOfHex : string -> outcome Color;
    accepts : operator -> bool }.

(** [page.drawText], [page.drawImage] and [page.drawRectangle]. *)
Definition draw `{PdfLib} (op : operator) (page : Page) : outcome Page :=
  if accepts op then Ok (pushOperator op page) else Thrown.

(** What the user sees of a tool: the selected file, the files offered
    for download and the toasts shown. *)
Record Browser : Type := mkBrowser
  { file : option File;
    downloads : list File;
    toasts : list string }.

(** ** Rotate tool *)

Module RotatePdf.

(** [handleFileSelected]: the rotations kept for a freshly opened file,
    [new Array(count).fill(0)], or [None] when the file is refused. *)
Definition handleFileSelected (f : File) : option (list Z) :=
  try_catch
    (pages ← load (data f);
     Ok (Some (replicate (length pages) 0)))
    None.

(** [prev.map(r => (r + angle) % 360)] *)
Definition handleRotateAll (angle : Z) (prev : list Z) : list Z :=
  (fun r => Z.rem (r + angle) 360) <$> prev.

(** [newRotations[index] = (newRotations[index] + angle) % 360].
    The buttons that call it are rendered from [rotations.map], so the
    index is that of an existing page; an index past the end (where
    JavaScript would grow the array with a NaN entry) is outside the
    model and gives [None]. *)
Definition handleRotatePage (index : nat) (angle : Z) (prev : list Z)
  : option (list Z) :=
  match prev !! index with
  | Some r => Some (<[index := Z.rem (r + angle) 360]> prev)
  | None => None
  end.

(** The two kinds of rotate buttons of the page. *)
Inductive click : Type :=
| RotateAll (angle : Z)
| RotatePage (index : nat) (angle : Z).

Definition handleClick (c : click) (prev : list Z) : option (list Z) :=
  match c with
  | RotateAll angle => Some (handleRotateAll angle prev)
  | RotatePage index angle => handleRotatePage index angle prev
  end.

Fixpoint handleClicks (cs : list click) (prev : list Z) : option (list Z) :=
  match cs with
  | [] => Some prev
  | c :: cs' =>
      match handleClick c prev with
      | Some next => handleClicks cs' next
      | None => None
      end
  end.

(** The body of [pages.forEach((page, index) => ...)] in [handleSave].
    A missing entry of [rotations] is [undefined], which makes the sum
    NaN and [setRotation] throw. *)
Definition savePage (rotations : list Z) (index : nat) (page : Page)
  : outcome Page :=
  match rotations !! index with
  | Some rotation =>
      if rotation =? 0 then Ok page
      else setRotation (Rotate page + rotation) page
  | None => Thrown
  end.

Fixpoint forEachPage (rotations : list Z) (index : nat) (pages : list Page)
  : outcome (list Page) :=
  match pages with
  | [] => Ok []
  | page :: rest =>
      page' ← savePage rotations index page;
      rest' ← forEachPage rotations (S index) rest;
      Ok (page' :: rest')
  end.

(** [handleSave], up to the download: the bytes of the rotated
    document, or [None] when the [catch] branch reports the failure. *)
Definition handleSave (f : File) (rotations : list Z) : option FileData :=
  try_catch
    (pages ← load (data f);
     pages' ← forEachPage rotations 0 pages;
     Ok (Some (save pages')))
    None.

(** The delta one click applies to the page at [index]. *)
Definition deltaOf (index : nat) (c : click) : Z :=
  match c with
  | RotateAll angle => angle
  | RotatePage i angle => if decide (i = index) then angle else 0
  end.

Definition sumDeltas (index : nat) (cs : list click) : Z :=
  foldr (fun c acc => deltaOf index c + acc) 0 cs.

(** The rotation of page [index] in a saved document. *)
Definition rotationOf (d : option FileData) (index : nat) : option Z :=
  match d with
  | Some (PdfData pages) => Rotate <$> pages !! index
  | _ => None
  end.

(** The clicks the rendered page offers: the two toolbar buttons call
    [handleRotateAll(-90)] and [handleRotateAll(90)], and each entry of
    [rotations.map] has two buttons that call [handleRotatePage(index, -90)]
    and [handleRotatePage(index, 90)]. *)
Definition rendered (count : nat) (c : click) : Prop :=
  match c with
  | RotateAll angle => angle = -90 \/ angle = 90
  | RotatePage index angle => (index < count)%nat /\ (angle = -90 \/ angle = 90)
  end.

End RotatePdf.

(** ** Organize tool: its rotate buttons and what it saves *)

Module OrganizePdf.

Record PageItem : Type := mkPageItem
  { id : string; pageIndex : Z; rotation : Z; deleted : bool }.

Inductive direction : Type := cw | ccw.

(** [Array.from({ length: pageCount }, (_, i) => ({ id: `page-${i}`, ... }))] *)
Definition handleFileSelected (f : File) : option (list PageItem) :=
  try_catch
    (pages ← load (data f);
     Ok (Some ((fun i => mkPageItem ("page-" +:+ pretty i) i 0 false)
               <$> seqZ 0 (Z.of_nat (length pages)))))
    None.

Definition handleRotate (id' : string) (d : direction) (items : list PageItem)
  : list PageItem :=
  (fun item =>
     if String.eqb (id item) id'
     then mkPageItem (id item) (pageIndex item)
            (Z.rem (rotation item + match d with cw => 90 | ccw => -90 end) 360)
            (deleted item)
     else item) <$> items.

(** One turn of the loop of [handleApplyChanges]: the page is copied and,
    when its item carries a rotation, set to
    [(currentRotation + page.rotation) % 360]. *)
Definition copyAndRotate (originalPdf : list Page) (item : PageItem) : outcome Page :=
  match page_at originalPdf (pageIndex item) with
  | Some copiedPage =>
      if rotation item =? 0 then Ok copiedPage
      else setRotation (Z.rem (Rotate copiedPage + rotation item) 360) copiedPage
  | None => Thrown
  end.

Fixpoint addPages (originalPdf : list Page) (activePages : list PageItem)
  : outcome (list Page) :=
  match activePages with
  | [] => Ok []
  | item :: rest =>
      page ← copyAndRotate originalPdf item;
      newPdf ← addPages originalPdf rest;
      Ok (page :: newPdf)
  end.

(** [handleApplyChanges], up to the download; [None] stands for both
    error toasts. *)
Definition handleApplyChanges (f : File) (items : list PageItem) : option FileData :=
  let activePages := List.filter (fun p => negb (deleted p)) items in
  match activePages with
  | [] => None
  | _ =>
      try_catch
        (originalPdf ← load (data f);
         newPdf ← addPages originalPdf activePages;
         Ok (Some (save newPdf)))
        None
  end.

(** [items.map(item => item.id === id ? { ...item, deleted } : item)] *)
Definition setDeleted (deleted' : bool) (id' : string) (items : list PageItem)
  : list PageItem :=
  (fun item =>
     if String.eqb (id item) id'
     then mkPageItem (id item) (pageIndex item) (rotation item) deleted'
     else item) <$> items.

Definition handleDelete (id' : string) (items : list PageItem) : list PageItem :=
  setDeleted true id' items.

Definition handleRestore (id' : string) (items : list PageItem) : list PageItem :=
  setDeleted false id' items.

(** [items.findIndex(item => item.id === id)]: -1 when there is none. *)
Fixpoint findIndexFrom (id' : string) (items : list PageItem) (i : Z) : Z :=
  match items with
  | [] => -1
  | item :: rest =>
      if String.eqb (id item) id' then i else findIndexFrom id' rest (i + 1)
  end.

Definition findIndex (id' : string) (items : list PageItem) : Z :=
  findIndexFrom id' items 0.

(** Where [Array.prototype.splice] starts for a given first argument. *)
Definition spliceStart (len start : Z) : Z :=
  if start <? 0 then Z.max (len + start) 0 else Z.min start len.

(** [arrayMove] of the drag-and-drop library:
    [newArray.splice(to < 0 ? newArray.length + to : to, 0,
    newArray.splice(from, 1)[0])].  Where the inner [splice] removes
    nothing, JavaScript inserts [undefined]; this is outside the model and
    gives [None]. *)
Definition arrayMove {A : Type} (array : list A) (from to : Z) : option (list A) :=
  let len := Z.of_nat (length array) in
  let target := if to <? 0 then len + to else to in
  let i := Z.to_nat (spliceStart len from) in
  match array !! i with
  | Some moved =>
      let rest := delete i array in
      let j := Z.to_nat (spliceStart (Z.of_nat (length rest)) target) in
      Some (take j rest ++ moved :: drop j rest)
  | None => None
  end.

(** [handleDragEnd]: [over] is [None] when the item is dropped outside
    every target. *)
Definition handleDragEnd (activeId : string) (over : option string)
    (items : list PageItem) : option (list PageItem) :=
  match over with
  | Some overId =>
      if negb (String.eqb activeId overId)
      then arrayMove items (findIndex activeId items) (findIndex overId items)
      else Some items
  | None => Some items
  end.

Definition activePageCount (items : list PageItem) : nat :=
  length (List.filter (fun p => negb (deleted p)) items).

Definition deletedPageCount (items : list PageItem) : nat :=
  length (List.filter (fun p => deleted p) items).

(** What the user does to the list of pages. *)
Inductive action : Type :=
| Rotate' (id' : string) (d : direction)
| Delete (id' : string)
| Restore (id' : string)
| DragEnd (activeId : string) (over : option string).

Definition perform (a : action) (items : list PageItem) : option (list PageItem) :=
  match a with
  | Rotate' id' d => Some (handleRotate id' d items)
  | Delete id' => Some (handleDelete id' items)
  | Restore id' => Some (handleRestore id' items)
  | DragEnd activeId over => handleDragEnd activeId over items
  end.

Fixpoint performAll (acts : list action) (items : list PageItem)
  : option (list PageItem) :=
  match acts with
  | [] => Some items
  | a :: rest =>
      match perform a items with
      | Some items' => performAll rest items'
      | None => None
      end
  end.

(** An item that names a page of the document and carries a quarter
    turn. *)
Definition validItem (originalPdf : list Page) (item : PageItem) : Prop :=
  0 <= pageIndex item < Z.of_nat (length originalPdf) /\
  Z.rem (rotation item) 90 = 0.

(** The page [handleApplyChanges] adds for an item. *)
Definition turned (item : PageItem) (copiedPage : Page) : Page :=
  if rotation item =? 0 then copiedPage
  else mkPage (Z.rem (Rotate copiedPage + rotation item) 360)
         (MediaBox copiedPage) (CropBox copiedPage) (Contents copiedPage)
         (contentStream copiedPage).

(** A string as the sequence of its characters, and
    [String.prototype.substring]: both ends are held between 0 and the
    length, and swapped when the first is the larger. *)
Definition substring (s : list ascii) (start finish : Z) : list ascii :=
  let len := Z.of_nat (length s) in
  let a := Z.min (Z.max start 0) len in
  let b := Z.min (Z.max finish 0) len in
  take (Z.to_nat (Z.max a b - Z.min a b)) (drop (Z.to_nat (Z.min a b)) s).

Fixpoint lastIndexOfFrom (c : ascii) (s : list ascii) (i found : Z) : Z :=
  match s with
  | [] => found
  | x :: rest =>
      lastIndexOfFrom c rest (i + 1) (if Ascii.eqb x c then i else found)
  end.

(** [s.lastIndexOf(c)]: -1 when [c] does not occur. *)
Definition lastIndexOf (c : ascii) (s : list ascii) : Z :=
  lastIndexOfFrom c s 0 (-1).

(** [truncateFileName]; [Math.ceil(c / 2)] and [Math.floor(c / 2)] of an
    integer [c] are [(c + 1) / 2] and [c / 2] with the division that
    rounds down. *)
Definition truncateFileName (fileName : list ascii) (maxLength : Z) : list ascii :=
  let len := Z.of_nat (length fileName) in
  if len <=? maxLength then fileName
  else
    let dot := lastIndexOf "."%char fileName in
    let extension := substring fileName dot len in
    let nameWithoutExt := substring fileName 0 dot in
    let charsToShow := maxLength - Z.of_nat (length extension) - 3 in
    let frontChars := (charsToShow + 1) / 2 in
    let backChars := charsToShow / 2 in
    let n := Z.of_nat (length nameWithoutExt) in
    substring nameWithoutExt 0 frontChars
    ++ list_ascii_of_string "..."
    ++ substring nameWithoutExt (n - backChars) n
    ++ extension.

End OrganizePdf.

(** ** Crop tool *)

Module CropPdf.

Record CropSettings : Type := mkCropSettings
  { startPage : Z; endPage : option Z; applyToAll : bool }.

Definition defaultSettings : CropSettings := mkCropSettings 1 None true.

(** [{ ...s, startPage, endPage }] *)
Definition withRange (startPage' : Z) (endPage' : option Z) (s : CropSettings)
  : CropSettings :=
  mkCropSettings startPage' endPage' (applyToAll s).

(** The crop box of a freshly opened file. *)
Definition defaultCropBox : Rect := mkRect 10 10 80 80.

(** The conversion of the crop box, given in percent of the displayed
    page with the origin at the top left, to PDF points with the origin
    at the bottom left (the body of the page loop of [handleDownload]). *)
Definition toDocumentSpace (cropBox : Rect) (width height : Q) : Rect :=
  let cropX := ((rect_x cropBox / 100) * width)%Q in
  let cropY := ((rect_y cropBox / 100) * height)%Q in
  let cropWidth := ((rect_width cropBox / 100) * width)%Q in
  let cropHeight := ((rect_height cropBox / 100) * height)%Q in
  let pdfY := (height - cropY - cropHeight)%Q in
  mkRect cropX pdfY cropWidth cropHeight.

(** Modelled from the spec: the source has no conversion from points
    back to percent; [toUISpace] is the inverse the design document asks
    for, obtained by solving the equations of [toDocumentSpace]. *)
Definition toUISpace (docRect : Rect) (pageWidth pageHeight : Q) : Rect :=
  mkRect
    (rect_x docRect / pageWidth * 100)%Q
    ((pageHeight - rect_y docRect - rect_height docRect) / pageHeight * 100)%Q
    (rect_width docRect / pageWidth * 100)%Q
    (rect_height docRect / pageHeight * 100)%Q.

Definition startIdx (settings : CropSettings) : Z :=
  Z.max 0 (startPage settings - 1).

(** [settings.endPage ? Math.min(pages.length - 1, settings.endPage - 1)
    : pages.length - 1]; the test is on truthiness, and both [null] and
    [0] are falsy. *)
Definition endIdx (settings : CropSettings) (pages : list Page) : Z :=
  match endPage settings with
  | Some e =>
      if e =? 0 then Z.of_nat (length pages) - 1
      else Z.min (Z.of_nat (length pages) - 1) (e - 1)
  | None => Z.of_nat (length pages) - 1
  end.

(** The indices visited by [for (let i = startIdx; i <= endIdx; i++)]. *)
Definition loopIndices (settings : CropSettings) (pages : list Page) : list Z :=
  seqZ (startIdx settings) (endIdx settings pages - startIdx settings + 1).

Definition cropPage (cropBox : Rect) (page : Page) : Page :=
  let '(width, height) := getSize page in
  let r := toDocumentSpace cropBox width height in
  setMediaBox r (setCropBox r page).

(** One turn of the loop. *)
Definition cropAt (cropBox : Rect) (pages : list Page) (i : Z)
  : outcome (list Page) :=
  mutate_page (fun page => Ok (cropPage cropBox page)) pages i.

(** The [try] block up to [pdfDoc.save()]: the saved bytes and the
    count shown in the success toast. *)
Definition cropDocument (settings : CropSettings) (cropBox : Rect) (f : File)
  : outcome (FileData * Z) :=
  pages ← load (data f);
  pages' ← for_of (cropAt cropBox) (loopIndices settings pages) pages;
  Ok (save pages', endIdx settings pages - startIdx settings + 1).

(** [handleDownload]: the download and the toast the user gets. *)
Definition handleDownload (settings : CropSettings) (cropBox : Rect) (b : Browser)
  : Browser :=
  match file b with
  | None => mkBrowser (file b) (downloads b) (toasts b ++ ["No file selected"])
  | Some f =>
      match cropDocument settings cropBox f with
      | Ok (bytes, count) =>
          mkBrowser (file b)
            (downloads b ++ [mkFile ("cropped_" +:+ name f) "application/pdf" bytes])
            (toasts b ++ ["Cropped " +:+ pretty count +:+ " page(s) successfully!"])
      | Thrown =>
          mkBrowser (file b) (downloads b) (toasts b ++ ["Failed to crop PDF"])
      end
  end.

End CropPdf.

(** ** Watermark tool *)

Module WatermarkPdf.

Inductive WatermarkType : Type := text_type | image_type.

Inductive Position : Type := tl | tc | tr | cl | cc | cr | bl | bc | br.

(** The string a position is in the source. *)
Definition position_string (p : Position) : string :=
  match p with
  | tl => "tl" | tc => "tc" | tr => "tr"
  | cl => "cl" | cc => "cc" | cr => "cr"
  | bl => "bl" | bc => "bc" | br => "br"
  end.

Inductive Layer : Type := over | under.

Record WatermarkSettings : Type := mkWatermarkSettings
  { type : WatermarkType;
    text : string;
    textSize : Q;
    textColor : string;
    opacity : Q;
    rotation : Q;
    position : Position;
    imageFile : option File;
    imageScale : Q;
    isTiled : bool;
    startPage : option Z;
    endPage : option Z;
    layer : Layer }.

Definition defaultSettings : WatermarkSettings :=
  mkWatermarkSettings text_type "CONFIDENTIAL" 48 "#FF0000" (1 # 2) (-45) cc
    None (1 # 2) false (Some 1) None over.

(** [{ ...s, startPage, endPage }] *)
Definition withRange (startPage' endPage' : option Z) (s : WatermarkSettings)
  : WatermarkSettings :=
  mkWatermarkSettings (type s) (text s) (textSize s) (textColor s) (opacity s)
    (rotation s) (position s) (imageFile s) (imageScale s) (isTiled s)
    startPage' endPage' (layer s).

(** [{ ...s, isTiled }] *)
Definition withTiled (isTiled' : bool) (s : WatermarkSettings) : WatermarkSettings :=
  mkWatermarkSettings (type s) (text s) (textSize s) (textColor s) (opacity s)
    (rotation s) (position s) (imageFile s) (imageScale s) isTiled'
    (startPage s) (endPage s) (layer s).

(** The cells of the tiling in the order of the two loops: [ix] outside,
    [iy] inside. *)
Definition cells : list (Z * Z) :=
  [(0, 0); (0, 1); (0, 2); (1, 0); (1, 1); (1, 2); (2, 0); (2, 1); (2, 2)].

(** [{ ...s, imageFile }] *)
Definition withImageFile (imageFile' : option File) (s : WatermarkSettings)
  : WatermarkSettings :=
  mkWatermarkSettings (type s) (text s) (textSize s) (textColor s) (opacity s)
    (rotation s) (position s) imageFile' (imageScale s) (isTiled s)
    (startPage s) (endPage s) (layer s).

(** [{ ...s, layer }] *)
Definition withLayer (layer' : Layer) (s : WatermarkSettings) : WatermarkSettings :=
  mkWatermarkSettings (type s) (text s) (textSize s) (textColor s) (opacity s)
    (rotation s) (position s) (imageFile s) (imageScale s) (isTiled s)
    (startPage s) (endPage s) layer'.

(** [Math.max(0, (currentSettings.startPage ?? 1) - 1)] *)
Definition startIdx (s : WatermarkSettings) : Z :=
  Z.max 0 (default 1 (startPage s) - 1).

Definition endIdx (s : WatermarkSettings) (pages : list Page) : Z :=
  match endPage s with
  | Some e =>
      if e =? 0 then Z.of_nat (length pages) - 1
      else Z.min (Z.of_nat (length pages) - 1) (e - 1)
  | None => Z.of_nat (length pages) - 1
  end.

(** The [Set] filled by the loop from [startIdx] to [endIdx]. *)
Definition targetIndices (s : WatermarkSettings) (pages : list Page) : gset Z :=
  if startIdx s <=? endIdx s pages
  then list_to_set (seqZ (startIdx s) (endIdx s pages - startIdx s + 1))
  else ∅.

(** The pages the loop visits, by index: [[pages[0]]] for a preview,
    [pages.filter((_, i) => targetIndices.has(i))] otherwise. *)
Definition pagesToProcess (s : WatermarkSettings) (isPreview : bool)
    (pages : list Page) : list Z :=
  if isPreview then [0]
  else filter (fun i => i ∈ targetIndices s pages) (seqZ 0 (Z.of_nat (length pages))).

(** The image embedded before the loop: the format named by the file
    type first, the other one second; a double failure is only logged. *)
Definition embeddedImage (s : WatermarkSettings) (isPreview : bool)
  : option (Q * Q) :=
  match type s, imageFile s, isPreview with
  | image_type, Some img, false =>
      let first := if String.eqb (fileType img) "image/png"
                   then embedPng (data img) else embedJpg (data img) in
      let second := if String.eqb (fileType img) "image/png"
                    then embedJpg (data img) else embedPng (data img) in
      try_catch (dims ← first; Ok (Some dims))
        (try_catch (dims ← second; Ok (Some dims)) None)
  | _, _, _ => None
  end.

(** The two nested loops [for ix in 0..2] / [for iy in 0..2]. *)
Definition for3x3 (body : Z -> Z -> Page -> outcome Page) (page : Page)
  : outcome Page :=
  for_of (fun p ix => for_of (fun p' iy => body ix iy p') [0; 1; 2] p)
    [0; 1; 2] page.

Definition margin : Q := 20.

(** The anchored origin: centred unless the position names a side. *)
Definition anchorX (p : Position) (width w : Q) : Q :=
  let x := ((width - w) / 2)%Q in
  let x := if includes (position_string p) "l" then margin else x in
  let x := if includes (position_string p) "r" then (width - w - margin)%Q else x in
  x.

Definition anchorY (p : Position) (height h : Q) : Q :=
  let y := ((height - h) / 2)%Q in
  let y := if includes (position_string p) "t" then (height - h - margin)%Q else y in
  let y := if includes (position_string p) "b" then margin else y in
  y.

(** The anchored origin once more, in the doubles the program computes
    with. *)
Definition anchorX_double (p : Position) (width w : float) : float :=
  let x := ((width - w) / 2)%float in
  let x := if includes (position_string p) "l" then 20%float else x in
  let x := if includes (position_string p) "r" then (width - w - 20)%float else x in
  x.

Definition anchorY_double (p : Position) (height h : float) : float :=
  let y := ((height - h) / 2)%float in
  let y := if includes (position_string p) "t" then (height - h - 20)%float else y in
  let y := if includes (position_string p) "b" then 20%float else y in
  y.

(** The anchored origin with every arithmetic result rounded by [fl]. *)
Definition anchorX_rounded (fl : Q -> Q) (p : Position) (width w : Q) : Q :=
  let x := fl (fl (width - w) / 2)%Q in
  let x := if includes (position_string p) "l" then margin else x in
  let x := if includes (position_string p) "r"
           then fl (fl (width - w) - margin)%Q else x in
  x.

Definition anchorY_rounded (fl : Q -> Q) (p : Position) (height h : Q) : Q :=
  let y := fl (fl (height - h) / 2)%Q in
  let y := if includes (position_string p) "t"
           then fl (fl (height - h) - margin)%Q else y in
  let y := if includes (position_string p) "b" then margin else y in
  y.

(** [cx] and [cy] of a tile: [width * ((ix * 2 + 1) / 6)]. *)
Definition tileCenter (extent : Q) (i : Z) : Q :=
  (extent * (inject_Z (i * 2 + 1) / 6))%Q.

Section Drawing.
Context `{PdfLib}.
Variable s : WatermarkSettings.

(** The text branch of the page loop. *)
Definition drawTextWatermark (page : Page) : outcome Page :=
  let '(width, height) := getSize page in
  color ← rgbOfHex (textColor s);
  textWidth ← widthOfTextAtSize (text s) (textSize s);
  let textHeight := heightAtSize (textSize s) in
  let drawTextAt (x y : Q) :=
    draw (DrawText (text s) x y (textSize s) color (Some (opacity s)) (rotation s)) in
  if isTiled s then
    for3x3 (fun ix iy =>
              let cx := tileCenter width ix in
              let cy := tileCenter height iy in
              drawTextAt (cx - textWidth / 2)%Q (cy - textHeight / 3)%Q)
      page
  else
    drawTextAt (anchorX (position s) width textWidth)
      (anchorY (position s) height textHeight) page.

(** The placeholder drawn instead of the image in a preview. *)
Definition drawPlaceholderWatermark (page : Page) : outcome Page :=
  let '(width, height) := getSize page in
  let imgW := (200 * imageScale s)%Q in
  let imgH := (100 * imageScale s)%Q in
  let drawPlaceholder (x y : Q) (p : Page) :=
    p' ← draw (DrawRectangle x y imgW imgH (opacity s) (rotation s)) p;
    draw (DrawText "IMAGE" (x + imgW / 2 - 20)%Q (y + imgH / 2 - 5)%Q 12
            (1 # 2, 1 # 2, 1 # 2)%Q None (rotation s)) p' in
  if isTiled s then
    for3x3 (fun ix iy =>
              let cx := tileCenter width ix in
              let cy := tileCenter height iy in
              drawPlaceholder (cx - imgW / 2)%Q (cy - imgH / 2)%Q)
      page
  else
    drawPlaceholder (anchorX (position s) width imgW)
      (anchorY (position s) height imgH) page.

(** The real image, scaled by [embeddedImage.scale(imageScale)]. *)
Definition drawImageWatermark (dims : Q * Q) (page : Page) : outcome Page :=
  let '(width, height) := getSize page in
  let imgW := (fst dims * imageScale s)%Q in
  let imgH := (snd dims * imageScale s)%Q in
  let drawImageAt (x y : Q) :=
    draw (DrawImage x y imgW imgH (opacity s) (rotation s)) in
  if isTiled s then
    for3x3 (fun ix iy =>
              let cx := tileCenter width ix in
              let cy := tileCenter height iy in
              drawImageAt (cx - imgW / 2)%Q (cy - imgH / 2)%Q)
      page
  else
    drawImageAt (anchorX (position s) width imgW)
      (anchorY (position s) height imgH) page.

(** Moving the watermark stream to the front of [/Contents]: only an
    array with a last index above 0 is touched. *)
Definition moveLastToFront (l : list streamRef) : list streamRef :=
  let lastIdx := Z.of_nat (length l) - 1 in
  if 0 <? lastIdx then
    match l !! Z.to_nat lastIdx with
    | Some lastStream => lastStream :: delete (Z.to_nat lastIdx) l
    | None => l
    end
  else l.

Definition layerUnder (page : Page) : outcome Page :=
  match Contents page with
  | PDFArray l =>
      Ok (mkPage (Rotate page) (MediaBox page) (CropBox page)
            (PDFArray (moveLastToFront l)) (contentStream page))
  | _ => Ok page
  end.

(** The first statement of the loop body: the [if] on the type of
    the watermark. *)
Definition drawWatermark (isPreview : bool) (image : option (Q * Q)) (page : Page)
  : outcome Page :=
  match type s with
  | text_type => drawTextWatermark page
  | image_type =>
      if isPreview then drawPlaceholderWatermark page
      else match image with
           | Some dims => drawImageWatermark dims page
           | None => Ok page
           end
  end.

(** The body of [for (const page of pagesToProcess)]: the drawing,
    then the layering inside its own [try]. *)
Definition processPage (isPreview : bool) (image : option (Q * Q)) (page : Page)
  : outcome Page :=
  drawn ← drawWatermark isPreview image page;
  match layer s with
  | under => Ok (try_catch (layerUnder drawn) drawn)
  | over => Ok drawn
  end.

(** One turn of the page loop on the document. *)
Definition processAt (isPreview : bool) (image : option (Q * Q))
    (pages : list Page) (i : Z) : outcome (list Page) :=
  mutate_page (processPage isPreview image) pages i.

(** [applyWatermark]: the saved bytes, or [None] for [null]. *)
Definition applyWatermark (originalFile : File) (isPreview : bool)
  : option FileData :=
  try_catch
    (pages ← load (data originalFile);
     let image := embeddedImage s isPreview in
     pages' ← for_of (processAt isPreview image)
                (pagesToProcess s isPreview pages) pages;
     Ok (Some (save pages')))
    None.

(** The effect that keeps the preview up to date, once its timer has
    run: [file] is the selected file, [previewFile] the preview shown so
    far, and the result the preview shown afterwards.  Without a file the
    preview is cleared; an image watermark without an image shows the
    file itself; otherwise the preview is what [applyWatermark] returns
    for a preview, and a [null] result leaves the preview as it is. *)
Definition previewEffect (file previewFile : option File) : option File :=
  match file with
  | None => None
  | Some f =>
      match type s, imageFile s with
      | image_type, None => Some f
      | _, _ =>
          match applyWatermark f true with
          | Some pdfBytes => Some (mkFile "preview.pdf" "application/pdf" pdfBytes)
          | None => previewFile
          end
      end
  end.

(** [handleDownload] of the watermark page. *)
Definition handleDownload (b : Browser) : Browser :=
  match file b with
  | None => b
  | Some f =>
      match applyWatermark f false with
      | Some pdfBytes =>
          mkBrowser (file b)
            (downloads b ++
               [mkFile ("watermarked_" +:+ name f) "application/pdf" pdfBytes])
            (toasts b ++ ["Watermark added successfully!"])
      | None =>
          mkBrowser (file b) (downloads b) (toasts b ++ ["Failed to create PDF"])
      end
  end.

End Drawing.

End WatermarkPdf.

(** ** Page-number tool *)

Module PageNumbers.

Inductive Position : Type := tl | tc | tr | bl | bc | br.

Definition position_string (p : Position) : string :=
  match p with
  | tl => "tl" | tc => "tc" | tr => "tr"
  | bl => "bl" | bc => "bc" | br => "br"
  end.

Inductive Format : Type := n | n_of_total | Page_n | Page_n_of_total.

(** The settings of the tool.  The three numbers [startFrom], [fromPage]
    and [toPage] come from number fields; they are taken to hold
    integers (a fraction typed into a field is outside the model), and
    [startFrom] to be a double, that is, [roundToDouble startFrom =
    startFrom]. *)
Record PageNumberSettings : Type := mkPageNumberSettings
  { position : Position;
    format : Format;
    startFrom : Z;
    fromPage : Z;
    toPage : option Z;
    fontSize : Q;
    margin : Q;
    color : string }.

Definition defaultSettings : PageNumberSettings :=
  mkPageNumberSettings bc n 1 1 None 12 20 "#000000".

(** [{ ...s, fromPage, toPage }] *)
Definition withRange (fromPage' : Z) (toPage' : option Z) (s : PageNumberSettings)
  : PageNumberSettings :=
  mkPageNumberSettings (position s) (format s) (startFrom s) fromPage' toPage'
    (fontSize s) (margin s) (color s).

(** [{ ...s, format }] *)
Definition withFormat (format' : Format) (s : PageNumberSettings)
  : PageNumberSettings :=
  mkPageNumberSettings (position s) format' (startFrom s) (fromPage s) (toPage s)
    (fontSize s) (margin s) (color s).

Definition startIdx (s : PageNumberSettings) : Z :=
  Z.max 0 (fromPage s - 1).

(** [currentSettings.toPage ? Math.min(total, currentSettings.toPage)
    : total]; here the end index is exclusive. *)
Definition endIdx (s : PageNumberSettings) (total : Z) : Z :=
  match toPage s with
  | Some e => if e =? 0 then total else Z.min total e
  | None => total
  end.

(** [Array.from({ length: endIdx - startIdx }, (_, i) => startIdx + i)];
    a negative length gives the empty array. *)
Definition pagesToProcess (s : PageNumberSettings) (isPreview : bool) (total : Z)
  : list Z :=
  if isPreview then [startIdx s]
  else (fun i => startIdx s + i) <$> seqZ 0 (endIdx s total - startIdx s).

(** [{ ...s, startFrom }] *)
Definition withStartFrom (startFrom' : Z) (s : PageNumberSettings)
  : PageNumberSettings :=
  mkPageNumberSettings (position s) (format s) startFrom' (fromPage s) (toPage s)
    (fontSize s) (margin s) (color s).

(** The template literals of the [switch] on the format. *)
Definition numberText (f : Format) (numberVal total : Z) : string :=
  match f with
  | n => numberToString numberVal
  | n_of_total => numberToString numberVal +:+ " of " +:+ numberToString total
  | Page_n => "Page " +:+ numberToString numberVal
  | Page_n_of_total =>
      "Page " +:+ numberToString numberVal +:+ " of " +:+ numberToString total
  end.

Definition positionY (s : PageNumberSettings) (height textHeight : Q) : Q :=
  if startsWith (position_string (position s)) "t"
  then (height - margin s - textHeight)%Q
  else margin s.

Definition positionX (s : PageNumberSettings) (width textWidth : Q) : Q :=
  if includes (position_string (position s)) "l" then margin s
  else if includes (position_string (position s)) "c"
       then ((width - textWidth) / 2)%Q
       else (width - margin s - textWidth)%Q.

(** The position once more, in the doubles the program computes with
    ([margin] is [currentSettings.margin]). *)
Definition positionY_double (p : Position) (margin height textHeight : float)
  : float :=
  if startsWith (position_string p) "t"
  then (height - margin - textHeight)%float
  else margin.

Definition positionX_double (p : Position) (margin width textWidth : float)
  : float :=
  if includes (position_string p) "l" then margin
  else if includes (position_string p) "c"
       then ((width - textWidth) / 2)%float
       else (width - margin - textWidth)%float.

(** The position with every arithmetic result rounded by [fl]. *)
Definition positionY_rounded (fl : Q -> Q) (s : PageNumberSettings)
    (height textHeight : Q) : Q :=
  if startsWith (position_string (position s)) "t"
  then fl (fl (height - margin s) - textHeight)%Q
  else margin s.

Definition positionX_rounded (fl : Q -> Q) (s : PageNumberSettings)
    (width textWidth : Q) : Q :=
  if includes (position_string (position s)) "l" then margin s
  else if includes (position_string (position s)) "c"
       then fl (fl (width - textWidth) / 2)%Q
       else fl (fl (width - margin s) - textWidth)%Q.

Section Numbering.
Context `{PdfLib}.
Variable s : PageNumberSettings.

(** The text drawn on the page at [pageIdx]; the sum that gives
    [numberVal] is a sum of doubles. *)
Definition textFor (total pageIdx : Z) : string :=
  let numberVal := roundToDouble (startFrom s + (pageIdx - startIdx s)) in
  numberText (format s) numberVal total.

(** The body of the page loop after the [continue] test. *)
Definition numberPage (total pageIdx : Z) (page : Page) : outcome Page :=
  let '(width, height) := getSize page in
  let text := textFor total pageIdx in
  textWidth ← widthOfTextAtSize text (fontSize s);
  let textHeight := heightAtSize (fontSize s) in
  rgb ← rgbOfHex (color s);
  let y := positionY s height textHeight in
  let x := positionX s width textWidth in
  draw (DrawText text x y (fontSize s) rgb None 0) page.

Definition numberAt (total : Z) (pages : list Page) (pageIdx : Z)
  : outcome (list Page) :=
  if total <=? pageIdx then Ok pages
  else mutate_page (numberPage total pageIdx) pages pageIdx.

(** [previewDoc.copyPages(pdfDoc, [startIdx])] followed by [addPage]:
    a one-page document, or an exception when there is no such page. *)
Definition previewDocument (pages : list Page) : outcome FileData :=
  match page_at pages (startIdx s) with
  | Some copiedPage => Ok (save [copiedPage])
  | None => Thrown
  end.

(** [applyPageNumbers]: the saved bytes, or [None] for [null]. *)
Definition applyPageNumbers (originalFile : File) (isPreview : bool)
  : option FileData :=
  try_catch
    (pages ← load (data originalFile);
     let total := Z.of_nat (length pages) in
     pages' ← for_of (numberAt total) (pagesToProcess s isPreview total) pages;
     if isPreview then
       bytes ← previewDocument pages';
       Ok (Some bytes)
     else Ok (Some (save pages')))
    None.

(** [handleDownload] of the page-number page: a [null] result is
    dropped without a message. *)
Definition handleDownload (b : Browser) : Browser :=
  match file b with
  | None => b
  | Some f =>
      match applyPageNumbers f false with
      | Some pdfBytes =>
          mkBrowser (file b)
            (downloads b ++
               [mkFile ("numbered_" +:+ name f) "application/pdf" pdfBytes])
            (toasts b ++ ["Page numbers added successfully!"])
      | None => b
      end
  end.

End Numbering.

End PageNumbers.

(** ** The range of pages as the design document words it

    [resolve] yields the 0-indexed pages from [max(0, from - 1)] through
    [min(totalPages - 1, to - 1)], or through [totalPages - 1] when [to]
    is [null]; it is empty when the end precedes the start.  It is the
    reference the three tools are compared with. *)

Definition spec_resolve (from : Z) (to : option Z) (totalPages : Z) : list Z :=
  let first := Z.max 0 (from - 1) in
  let last :=
    match to with
    | Some t => Z.min (totalPages - 1) (t - 1)
    | None => totalPages - 1
    end in
  if last <? first then [] else seqZ first (last - first + 1).

(** ** A stand-in for the library, for running the tools on examples

    Half an em per character, text height equal to the font size, black
    for every well-formed [#rrggbb] string, and the opacity check of the
    drawing calls. *)

Definition opacity_ok (o : Q) : bool := Qle_bool 0 o && Qle_bool o 1.

Definition testLib : PdfLib :=
  {| widthOfTextAtSize t size :=
       if forallb (fun c => (nat_of_ascii c <? 128)%nat) (list_ascii_of_string t)
       then Ok (size * inject_Z (Z.of_nat (String.length t)) / 2)%Q
       else Thrown;
     heightAtSize size := size;
     rgbOfHex hex :=
       if (String.length hex =? 7)%nat then Ok (0, 0, 0)%Q else Thrown;
     accepts op :=
       match op with
       | DrawText _ _ _ _ _ (Some o) _ => opacity_ok o
       | DrawText _ _ _ _ _ None _ => true
       | DrawImage _ _ _ _ o _ => opacity_ok o
       | DrawRectangle _ _ _ _ o _ => opacity_ok o
       end |}.

Definition blankPage (w h : Q) : Page :=
  mkPage 0 (mkRect 0 0 w h) None NoContents None.

Definition scannedPage (w h : Q) (angle : Z) : Page :=
  mkPage angle (mkRect 0 0 w h) None (PDFStream (Existing 0)) None.

(** ** Pages that only gain marks

    [extends p p'] says that [p'] is [p] with more drawn on it: the
    rotation and the boxes are those of [p]; the content streams are
    those of [p], in some order, together with streams of the library
    (the two that save and restore the graphics state, and the stream of
    the drawing calls); and the operators of [p] come first. *)

Definition added (r : streamRef) : Prop :=
  r = PushGraphicsState \/ r = PopGraphicsState \/ r = Own.

Definition extends (p p' : Page) : Prop :=
  Rotate p' = Rotate p /\
  MediaBox p' = MediaBox p /\
  CropBox p' = CropBox p /\
  (exists more, entries (Contents p') ≡ₚ entries (Contents p) ++ more /\
                Forall added more) /\
  exists more, operators p' = operators p ++ more.

(** [keepsOrder p p']: the content streams of [p] are still there in
    [p'], in the order they had. *)
Definition keepsOrder (p p' : Page) : Prop :=
  entries (Contents p) `sublist_of` entries (Contents p').

(** What a drawing call leaves in [/Contents] of a page. *)
Definition contentsAfterDraw (p : Page) : contents :=
  match contentStream p with
  | None => addContentStream Own (Contents p)
  | Some _ => Contents p
  end.

(** A page on which something was drawn since [p] was loaded. *)
Definition drawnOn (p q : Page) : Prop :=
  contentStream q <> None /\ Contents q = contentsAfterDraw p.

(** ** Crop tool: the crop box under the pointer

    The handlers that move and resize the crop box.  A handler that
    React attaches is the one of the last render and sees the state of
    that render; the position of the pointer is turned into percent of
    the page element found in the DOM. *)

Module CropEditor.

Record DOMRect : Type := mkDOMRect
  { left : Q; top : Q; width : Q; height : Q }.

(** [clientX] and [clientY] of a mouse event, a touch or a pointer event. *)
Record Pointer : Type := mkPointer { clientX : Q; clientY : Q }.

Record DragStart : Type := mkDragStart
  { x : Q; y : Q; boxX : Q; boxY : Q; boxW : Q; boxH : Q }.

(** [pointerActiveRef.current] *)
Record PointerActive : Type := mkPointerActive
  { active : bool; pointerId : option Z }.

(** The state of the component, and [listenerDragStart]: the
    [dragStart] that the touch listener registered on [window] sees.
    That listener is registered by an effect whose dependencies are
    [isDragging] and [isResizing] only, so it keeps the [handleTouchMove]
    of the render in which one of the two last changed. *)
Record Editor : Type := mkEditor
  { cropBox : Rect;
    isDragging : bool;
    isResizing : option string;
    dragStart : DragStart;
    pointerActive : PointerActive;
    listenerDragStart : DragStart }.

Definition initial : Editor :=
  mkEditor (mkRect 10 10 80 80) false None (mkDragStart 0 0 0 0 0 0)
    (mkPointerActive false None) (mkDragStart 0 0 0 0 0 0).

(** Truthiness of [isResizing]: [null] and the empty string are falsy. *)
Definition resizing (st : Editor) : bool :=
  match isResizing st with
  | Some handle => negb (String.eqb handle "")
  | None => false
  end.

(** [(offset / extent) * 100].  For a page element of extent 0 the
    quotient is infinite or [NaN] in JavaScript; the rationals hold
    neither, and the model stops there: [None]. *)
Definition percent (offset extent : Q) : option Q :=
  if Qeq_bool extent 0 then None else Some (offset / extent * 100)%Q.

(** [((e.clientX - rect.left) / rect.width) * 100] and the same for y. *)
Definition percentX (e : Pointer) (rect : DOMRect) : option Q :=
  percent (clientX e - left rect) (width rect).

Definition percentY (e : Pointer) (rect : DOMRect) : option Q :=
  percent (clientY e - top rect) (height rect).

(** The end of the three "down" handlers: [setDragStart] with the box as
    it is, then [setIsDragging(true)] or [setIsResizing(action)]. *)
Definition startAction (e : Pointer) (action : string) (rect : DOMRect)
    (active' : PointerActive) (st : Editor) : option Editor :=
  x' ← percentX e rect;
  y' ← percentY e rect;
  let start :=
    mkDragStart x' y'
      (rect_x (cropBox st)) (rect_y (cropBox st))
      (rect_width (cropBox st)) (rect_height (cropBox st)) in
  if String.eqb action "drag"
  then Some (mkEditor (cropBox st) true (isResizing st) start active'
               (listenerDragStart st))
  else Some (mkEditor (cropBox st) (isDragging st) (Some action) start active'
               (listenerDragStart st)).

(** The [switch] on the handle that is pulled. *)
Definition pull (handle : string) (start : DragStart) (deltaX deltaY : Q)
    (newBox : Rect) : Rect :=
  if String.eqb handle "nw" then
    mkRect (boxX start + deltaX) (boxY start + deltaY)
      (boxW start - deltaX) (boxH start - deltaY)
  else if String.eqb handle "ne" then
    mkRect (rect_x newBox) (boxY start + deltaY)
      (boxW start + deltaX) (boxH start - deltaY)
  else if String.eqb handle "sw" then
    mkRect (boxX start + deltaX) (rect_y newBox)
      (boxW start - deltaX) (boxH start + deltaY)
  else if String.eqb handle "se" then
    mkRect (rect_x newBox) (rect_y newBox)
      (boxW start + deltaX) (boxH start + deltaY)
  else if String.eqb handle "n" then
    mkRect (rect_x newBox) (boxY start + deltaY)
      (rect_width newBox) (boxH start - deltaY)
  else if String.eqb handle "s" then
    mkRect (rect_x newBox) (rect_y newBox)
      (rect_width newBox) (boxH start + deltaY)
  else if String.eqb handle "w" then
    mkRect (boxX start + deltaX) (rect_y newBox)
      (boxW start - deltaX) (rect_height newBox)
  else if String.eqb handle "e" then
    mkRect (rect_x newBox) (rect_y newBox)
      (boxW start + deltaX) (rect_height newBox)
  else newBox.

(** "Enforce minimum size and bounds": the four assignments after the
    [switch]. *)
Definition enforce (newBox : Rect) : Rect :=
  let width' := Qmax 5 (Qmin 100 (rect_width newBox)) in
  let height' := Qmax 5 (Qmin 100 (rect_height newBox)) in
  let x' := Qmax 0 (Qmin (100 - width') (rect_x newBox)) in
  let y' := Qmax 0 (Qmin (100 - height') (rect_y newBox)) in
  mkRect x' y' width' height'.

Definition withCropBox (box : Rect) (st : Editor) : Editor :=
  mkEditor box (isDragging st) (isResizing st) (dragStart st) (pointerActive st)
    (listenerDragStart st).

(** The body of [handleMouseMove] once the page element is found: the
    drag is held inside the page with the width and height of the box as
    it is, the resize starts from the box as it is. *)
Definition mouseMoved (e : Pointer) (rect : DOMRect) (st : Editor) : option Editor :=
  x' ← percentX e rect;
  y' ← percentY e rect;
  let deltaX := (x' - x (dragStart st))%Q in
  let deltaY := (y' - y (dragStart st))%Q in
  if isDragging st then
    let newX := Qmax 0 (Qmin (100 - rect_width (cropBox st))
                          (boxX (dragStart st) + deltaX)) in
    let newY := Qmax 0 (Qmin (100 - rect_height (cropBox st))
                          (boxY (dragStart st) + deltaY)) in
    Some (withCropBox
            (mkRect newX newY (rect_width (cropBox st)) (rect_height (cropBox st))) st)
  else
    match isResizing st with
    | Some handle =>
        Some (withCropBox
                (enforce (pull handle (dragStart st) deltaX deltaY (cropBox st))) st)
    | None => Some st
    end.

(** The body shared by [handleTouchMove] and [handlePointerMove], for
    the [dragStart] that the closure holds: the drag is held inside the
    page with the width and height recorded there, the resize starts
    from the box recorded there. *)
Definition touchMoved (start : DragStart) (e : Pointer) (rect : DOMRect)
    (st : Editor) : option Editor :=
  x' ← percentX e rect;
  y' ← percentY e rect;
  let deltaX := (x' - x start)%Q in
  let deltaY := (y' - y start)%Q in
  if isDragging st then
    let newX := Qmax 0 (Qmin (100 - boxW start) (boxX start + deltaX)) in
    let newY := Qmax 0 (Qmin (100 - boxH start) (boxY start + deltaY)) in
    Some (withCropBox
            (mkRect newX newY (rect_width (cropBox st)) (rect_height (cropBox st))) st)
  else
    match isResizing st with
    | Some handle =>
        Some (withCropBox
                (enforce (pull handle start deltaX deltaY
                            (mkRect (boxX start) (boxY start) (boxW start) (boxH start))))
                st)
    | None => Some st
    end.

(** [handleTouchMove] with the [dragStart] of its closure. *)
Definition handleTouchMove (start : DragStart) (touch : Pointer)
    (pageEl : option DOMRect) (st : Editor) : option Editor :=
  if active (pointerActive st) then Some st
  else if negb (isDragging st) && negb (resizing st) then Some st
  else match pageEl with
       | Some rect => touchMoved start touch rect st
       | None => Some st
       end.

(** [setIsDragging(false); setIsResizing(null)] *)
Definition release (active' : PointerActive) (st : Editor) : Editor :=
  mkEditor (cropBox st) false None (dragStart st) active' (listenerDragStart st).

Definition handleTouchEnd (st : Editor) : Editor :=
  if active (pointerActive st) then st else release (pointerActive st) st.

(** What reaches the handlers.  [pageEl] is the rectangle of the page
    element, [None] when the DOM has no such element.  [TouchMove] and
    [TouchEnd] are the handlers React attaches to the crop box,
    [WindowTouchMove] and [WindowTouchEnd] the listeners on [window]; the
    mouse and pointer moves and releases come from [window] only.
    [ResetCrop] is [resetCrop], and the effect that sets the same box
    when the file is removed. *)
Inductive event : Type :=
| MouseDown (e : Pointer) (action : string) (pageEl : DOMRect)
| MouseMove (e : Pointer) (pageEl : option DOMRect)
| MouseUp
| TouchStart (touch : Pointer) (action : string) (pageEl : option DOMRect)
| TouchMove (touch : Pointer) (pageEl : option DOMRect)
| WindowTouchMove (touch : Pointer) (pageEl : option DOMRect)
| TouchEnd
| WindowTouchEnd
| PointerDown (pointerType : string) (id : Z) (e : Pointer) (action : string)
    (pageEl : option DOMRect)
| PointerMove (pointerType : string) (id : Z) (e : Pointer)
    (pageEl : option DOMRect)
| PointerUp (pointerType : string) (id : Z)
| ResetCrop.

Definition samePointer (st : Editor) (id : Z) : bool :=
  active (pointerActive st) &&
  match pointerId (pointerActive st) with
  | Some id' => id' =? id
  | None => false
  end.

(** The handler an event runs, on the state of the last render. *)
Definition dispatch (ev : event) (st : Editor) : option Editor :=
  match ev with
  | MouseDown e action pageEl =>
      startAction e action pageEl (pointerActive st) st
  | MouseMove e pageEl =>
      if negb (isDragging st) && negb (resizing st) then Some st
      else match pageEl with
           | Some rect => mouseMoved e rect st
           | None => Some st
           end
  | MouseUp => Some (release (pointerActive st) st)
  | TouchStart touch action pageEl =>
      if active (pointerActive st) then Some st
      else match pageEl with
           | Some rect => startAction touch action rect (pointerActive st) st
           | None => Some st
           end
  | TouchMove touch pageEl => handleTouchMove (dragStart st) touch pageEl st
  | WindowTouchMove touch pageEl =>
      if negb (isDragging st) && negb (resizing st) then Some st
      else handleTouchMove (listenerDragStart st) touch pageEl st
  | TouchEnd => Some (handleTouchEnd st)
  | WindowTouchEnd =>
      if negb (isDragging st) && negb (resizing st) then Some st
      else Some (handleTouchEnd st)
  | PointerDown pointerType id e action pageEl =>
      if negb (String.eqb pointerType "touch") then Some st
      else
        let active' := mkPointerActive true (Some id) in
        match pageEl with
        | Some rect => startAction e action rect active' st
        | None =>
            Some (mkEditor (cropBox st) (isDragging st) (isResizing st) (dragStart st)
                    active' (listenerDragStart st))
        end
  | PointerMove pointerType id e pageEl =>
      if negb (isDragging st) && negb (resizing st) then Some st
      else if negb (String.eqb pointerType "touch") then Some st
      else if negb (samePointer st id) then Some st
      else match pageEl with
           | Some rect => touchMoved (dragStart st) e rect st
           | None => Some st
           end
  | PointerUp pointerType id =>
      if negb (isDragging st) && negb (resizing st) then Some st
      else if negb (String.eqb pointerType "touch") then Some st
      else if negb (samePointer st id) then Some st
      else Some (handleTouchEnd
                   (mkEditor (cropBox st) (isDragging st) (isResizing st)
                      (dragStart st) (mkPointerActive false None)
                      (listenerDragStart st)))
  | ResetCrop => Some (withCropBox (mkRect 10 10 80 80) st)
  end.

(** The render that follows: the effect with the dependencies
    [isDragging] and [isResizing] registers the touch listener again,
    with the [dragStart] of this render, only when one of the two has
    changed. *)
Definition afterRender (before after : Editor) : Editor :=
  if bool_decide (isDragging after = isDragging before /\
                  isResizing after = isResizing before)
  then after
  else mkEditor (cropBox after) (isDragging after) (isResizing after)
         (dragStart after) (pointerActive after) (dragStart after).

Definition handle (ev : event) (st : Editor) : option Editor :=
  after ← dispatch ev st; Some (afterRender st after).

Fixpoint run (evs : list event) (st : Editor) : option Editor :=
  match evs with
  | [] => Some st
  | ev :: rest => st' ← handle ev st; run rest st'
  end.






End CropEditor.

(** A rotation kept by the rotate tool after a click: a multiple of 90
    strictly between -360 and 360. *)
Definition quarter (r : Z) : Prop := Z.rem r 90 = 0 /\ -360 < r < 360.

(** [p'] is [p] with [r] added to its rotation and nothing else changed. *)
Definition turnedBy (r : Z) (p p' : Page) : Prop :=
  Rotate p' = Rotate p + r /\ MediaBox p' = MediaBox p /\
  CropBox p' = CropBox p /\ Contents p' = Contents p /\
  contentStream p' = contentStream p.

(** The doubles of an A4 page 841.89 high and a text 14.911000000000001
    high, as a rounding: the results of the
    two subtractions that the watermark tool makes for the top anchor
    are those of the kernel's doubles, and every other number is
    exact. *)
#[warnings="-inexact-float"]
Definition roundingOnA4 (q : Q) : Q :=
  let pageHeight := 841.89%float in
  let h := 14.911000000000001%float in
  if Qeq_bool q (toQ pageHeight - toQ h) then toQ (pageHeight - h)%float
  else if Qeq_bool q (toQ (pageHeight - h)%float - 20) then toQ (pageHeight - h - 20)%float
  else q.

(** * Properties *)

(** ** Loops over the pages of a document *)

Section PageLoops.

Lemma obind_Ok {A B : Type} (c : outcome A) (k : A -> outcome B) (b : B) :
  (c ≫= k) = Ok b <-> exists a, c = Ok a /\ k a = Ok b.
Proof.
  destruct c as [a|]; simpl; split.
  - intros Hk. exists a. split; [reflexivity | exact Hk].
  - intros (a' & Ha & Hk). inversion Ha; subst. exact Hk.
  - intros Hk. discriminate Hk.
  - intros (a' & Ha & _). discriminate Ha.
Qed.

Lemma page_at_Some (pages : list Page) (i : Z) (p : Page) :
  page_at pages i = Some p <-> 0 <= i /\ pages !! Z.to_nat i = Some p.
Proof.
  unfold page_at. destruct (Z.ltb_spec i 0); split.
  - intros Hn. discriminate Hn.
  - intros [Hi _]. lia.
  - intros Hl. split; [lia | exact Hl].
  - intros [_ Hl]. exact Hl.
Qed.

(** What [save] writes: the pages it is given, or the default page when
    it is given none. *)
Lemma save_PdfData (pages : list Page) :
  exists saved,
    save pages = PdfData saved /\
    (pages <> [] -> saved = pages) /\
    (pages = [] -> saved = [defaultPage]).
Proof.
  destruct pages as [|p rest].
  - exists [defaultPage]. split; [reflexivity|]. split; [contradiction | reflexivity].
  - exists (p :: rest). split; [reflexivity|]. split; [reflexivity | discriminate].
Qed.

Lemma save_nonempty (pages : list Page) : pages <> [] -> save pages = PdfData pages.
Proof. destruct pages; [contradiction | reflexivity]. Qed.

(** What [save] writes for a document that has as many pages as the
    file it was loaded from. *)
Lemma save_same_length (pages pages' : list Page) :
  length pages' = length pages ->
  match pages with
  | [] => save pages' = PdfData [defaultPage]
  | _ :: _ => save pages' = PdfData pages'
  end.
Proof. destruct pages, pages'; simpl; intros Hlen; try discriminate Hlen; reflexivity. Qed.

Lemma save_page_at (pages saved : list Page) (i : Z) (p : Page) :
  save pages = PdfData saved -> page_at pages i = Some p -> page_at saved i = Some p.
Proof.
  destruct pages as [|q rest]; simpl; intros Hs Hp.
  - unfold page_at in Hp. destruct (i <? 0); discriminate Hp.
  - inversion Hs; subst saved. exact Hp.
Qed.

Lemma page_at_insert_eq (pages : list Page) (i : Z) (p p' : Page) :
  page_at pages i = Some p ->
  page_at (<[Z.to_nat i := p']> pages) i = Some p'.
Proof.
  intros [Hi Hl]%page_at_Some. apply page_at_Some. split; [exact Hi|].
  apply list_lookup_insert_eq. eapply lookup_lt_Some, Hl.
Qed.

Lemma page_at_insert_ne (pages : list Page) (i j : Z) (p' : Page) :
  0 <= i -> i <> j ->
  page_at (<[Z.to_nat i := p']> pages) j = page_at pages j.
Proof.
  intros Hi Hne. unfold page_at. destruct (Z.ltb_spec j 0); [reflexivity|].
  apply list_lookup_insert_ne. lia.
Qed.

Lemma mutate_page_Ok (f : Page -> outcome Page) (pages pages1 : list Page) (i : Z) :
  mutate_page f pages i = Ok pages1 <->
  exists p p', page_at pages i = Some p /\ f p = Ok p' /\
               pages1 = <[Z.to_nat i := p']> pages.
Proof.
  unfold mutate_page. destruct (page_at pages i) as [p|]; split.
  - intros (p' & Hf & Hr)%obind_Ok. inversion Hr; subst.
    exists p, p'. auto.
  - intros (q & q' & Hq & Hf & ->). inversion Hq; subst.
    apply obind_Ok. exists q'. auto.
  - intros Hn. discriminate Hn.
  - intros (q & q' & Hq & _). discriminate Hq.
Qed.

Variable f : Z -> Page -> outcome Page.

(** What a finished loop over distinct indices has done: each visited
    page went through [f] once, the others are untouched. *)
Lemma for_of_visits_inv (idx : list Z) :
  NoDup idx ->
  forall pages pages' : list Page,
    for_of (visits f) idx pages = Ok pages' ->
    length pages' = length pages /\
    (forall j, j ∈ idx ->
       exists p p', page_at pages j = Some p /\ f j p = Ok p' /\
                    page_at pages' j = Some p') /\
    (forall j, j ∉ idx -> page_at pages' j = page_at pages j).
Proof.
  induction 1 as [|i idx Hni Hnd IH]; intros pages pages' Hrun.
  - inversion Hrun; subst. split; [reflexivity|]. split.
    + intros j Hj. inversion Hj.
    + reflexivity.
  - simpl in Hrun. apply obind_Ok in Hrun as (pages1 & Hstep & Hrest).
    apply mutate_page_Ok in Hstep as (p & p' & Hp & Hf & ->).
    destruct (IH _ _ Hrest) as (Hlen & Hin & Hout).
    assert (0 <= i) as Hi by (apply page_at_Some in Hp; tauto).
    split; [rewrite Hlen; apply length_insert|]. split.
    + intros j [->|Hj]%elem_of_cons.
      * exists p, p'. split; [exact Hp|]. split; [exact Hf|].
        rewrite (Hout i Hni). eapply page_at_insert_eq, Hp.
      * destruct (Hin j Hj) as (q & q' & Hq & Hfq & Hq').
        assert (i <> j) as Hne by (intros ->; contradiction).
        rewrite page_at_insert_ne in Hq by assumption.
        exists q, q'. auto.
    + intros j Hj. apply not_elem_of_cons in Hj as [Hne Hj].
      rewrite (Hout j Hj). apply page_at_insert_ne; [exact Hi | congruence].
Qed.

(** The loop finishes when [f] accepts every page it visits. *)
Lemma for_of_visits_Ok (idx : list Z) :
  NoDup idx ->
  forall pages : list Page,
    (forall j, j ∈ idx -> exists p p', page_at pages j = Some p /\ f j p = Ok p') ->
    exists pages', for_of (visits f) idx pages = Ok pages'.
Proof.
  induction 1 as [|i idx Hni Hnd IH]; intros pages Hall.
  - exists pages. reflexivity.
  - destruct (Hall i) as (p & p' & Hp & Hf); [left|].
    assert (0 <= i) as Hi by (apply page_at_Some in Hp; tauto).
    destruct (IH (<[Z.to_nat i := p']> pages)) as (pages' & Hrun).
    + intros j Hj. destruct (Hall j) as (q & q' & Hq & Hfq); [right; exact Hj|].
      exists q, q'. split; [|exact Hfq].
      rewrite page_at_insert_ne; [exact Hq | exact Hi |].
      intros ->. contradiction.
    + exists pages'. simpl. apply obind_Ok.
      exists (<[Z.to_nat i := p']> pages). split; [|exact Hrun].
      apply mutate_page_Ok. exists p, p'. auto.
Qed.

(** One page that makes [f] throw, or is missing, aborts the loop. *)
Lemma for_of_visits_Thrown (idx : list Z) :
  NoDup idx ->
  forall (pages : list Page) (i : Z),
    i ∈ idx ->
    (forall p, page_at pages i = Some p -> f i p = Thrown) ->
    for_of (visits f) idx pages = Thrown.
Proof.
  induction 1 as [|a idx Hni Hnd IH]; intros pages i Hi Hbad.
  - inversion Hi.
  - simpl. destruct (visits f pages a) as [pages1|] eqn:Hstep; [|reflexivity].
    simpl. apply mutate_page_Ok in Hstep as (p & p' & Hp & Hf & ->).
    apply elem_of_cons in Hi as [->|Hi].
    + rewrite (Hbad p Hp) in Hf. discriminate Hf.
    + apply (IH _ i Hi). intros q Hq. apply Hbad.
      rewrite page_at_insert_ne in Hq; [exact Hq | |].
      * apply page_at_Some in Hp. tauto.
      * intros ->. contradiction.
Qed.

End PageLoops.

(** ** Rotate tool *)

Section RotateFacts.
Import RotatePdf.

Lemma rem360_congruent (x : Z) : exists k, Z.rem x 360 = x + 360 * k.
Proof.
  exists (- Z.quot x 360). pose proof (Z.quot_rem' x 360). lia.
Qed.

Lemma rem360_bound (x : Z) : -360 < Z.rem x 360 < 360.
Proof. Z.to_euclidean_division_equations. lia. Qed.

Lemma handleClick_lookup (c : click) (prev next : list Z) (i : nat) (r : Z) :
  handleClick c prev = Some next ->
  prev !! i = Some r ->
  exists r', next !! i = Some r' /\
             (exists k, r' = r + deltaOf i c + 360 * k) /\
             (r' = r \/ -360 < r' < 360).
Proof.
  destruct c as [angle|j angle]; simpl; intros Hc Hr.
  - inversion Hc; subst. unfold handleRotateAll.
    rewrite list_lookup_fmap, Hr. simpl. eexists. split; [reflexivity|].
    split; [apply rem360_congruent|].
    right. apply rem360_bound.
  - unfold handleRotatePage in Hc.
    destruct (prev !! j) as [rj|] eqn:Hj; [|discriminate Hc].
    inversion Hc; subst. case_decide as Hij.
    + subst j. rewrite Hr in Hj. inversion Hj; subst rj.
      rewrite list_lookup_insert_eq by (eapply lookup_lt_Some, Hr).
      eexists. split; [reflexivity|]. split; [apply rem360_congruent|].
      right. apply rem360_bound.
    + rewrite list_lookup_insert_ne by exact Hij.
      exists r. split; [exact Hr|]. split; [exists 0; lia|].
      left. reflexivity.
Qed.

(** The delta kept for a page is congruent modulo 360 to the sum of the
    deltas clicked for it. *)
Lemma handleClicks_congruent (cs : list click) :
  forall (prev next : list Z) (i : nat) (r : Z),
    handleClicks cs prev = Some next ->
    prev !! i = Some r ->
    exists r', next !! i = Some r' /\
               (r' - (r + sumDeltas i cs)) mod 360 = 0.
Proof.
  induction cs as [|c cs IH]; simpl; intros prev next i r Hrun Hr.
  - inversion Hrun; subst. exists r. split; [exact Hr|].
    replace (r - (r + 0)) with 0 by lia. reflexivity.
  - destruct (handleClick c prev) as [mid|] eqn:Hc; [|discriminate Hrun].
    destruct (handleClick_lookup _ _ _ _ _ Hc Hr) as (r1 & Hr1 & (k & Hk) & _).
    destruct (IH _ _ _ _ Hrun Hr1) as (r' & Hr' & Hmod).
    exists r'. split; [exact Hr'|].
    replace (r' - (r + (deltaOf i c + sumDeltas i cs)))
      with (r' - (r1 + sumDeltas i cs) + k * 360) by lia.
    rewrite Z_mod_plus_full. exact Hmod.
Qed.

(** What [handleSave] writes: the page's angle plus the kept delta, as
    it is. *)
Lemma forEachPage_lookup (rotations : list Z) (pages : list Page) :
  forall (k : nat) (pages' : list Page),
    forEachPage rotations k pages = Ok pages' ->
    forall (i : nat) (p : Page),
      pages !! i = Some p ->
      exists rotation p',
        rotations !! (k + i)%nat = Some rotation /\
        pages' !! i = Some p' /\
        Rotate p' = Rotate p + rotation.
Proof.
  induction pages as [|q rest IH]; intros k pages' Hrun i p Hp.
  - inversion Hp.
  - simpl in Hrun.
    apply obind_Ok in Hrun as (q' & Hq & Hrun).
    apply obind_Ok in Hrun as (rest' & Hrest & Hret).
    inversion Hret; subst pages'. destruct i as [|i].
    + inversion Hp; subst q. unfold savePage in Hq.
      rewrite Nat.add_0_r.
      destruct (rotations !! k) as [rotation|]; [|discriminate Hq].
      exists rotation, q'. split; [reflexivity|]. split; [reflexivity|].
      destruct (Z.eqb_spec rotation 0) as [Hz|_].
      * inversion Hq; subst. lia.
      * unfold setRotation in Hq.
        destruct (Z.rem (Rotate p + rotation) 90 =? 0); [|discriminate Hq].
        inversion Hq; subst. reflexivity.
    + destruct (IH _ _ Hrest i p Hp) as (rotation & p' & Hrot & Hp' & Hang).
      exists rotation, p'. split; [|split; assumption].
      rewrite <- Hrot. f_equal. lia.
Qed.

(** C1 (the code departs from the claim).  The effective rotation is
    claimed to be [(original + sum of deltas) mod 360], in [[0, 360)]
    and never negative.  The rotate tool keeps each delta with
    JavaScript's [%], whose sign follows the dividend, and [handleSave]
    adds it to the page's angle without reducing the sum: one -90 click
    on an unrotated page is kept and saved as -90 (claimed: 270), and
    one +90 click on a page stored at 270 is saved as 360 (claimed: 0),
    where the organize tool, which reduces the sum when it saves, writes
    0.  Five +90 clicks on an unrotated page do give 90. *)
Theorem rotation_is_not_normalized :
  let unrotated := mkFile "a.pdf" "application/pdf" (PdfData [scannedPage 612 792 0]) in
  let sideways := mkFile "b.pdf" "application/pdf" (PdfData [scannedPage 612 792 270]) in
  handleFileSelected unrotated = Some [0] /\
  handleFileSelected sideways = Some [0] /\
  (handleClicks [RotatePage 0 (-90)] [0] = Some [-90] /\
   rotationOf (handleSave unrotated [-90]) 0 = Some (-90) /\
   (0 + -90) mod 360 = 270) /\
  (handleClicks [RotateAll 90] [0] = Some [90] /\
   rotationOf (handleSave sideways [90]) 0 = Some 360 /\
   (270 + 90) mod 360 = 0 /\
   rotationOf
     (OrganizePdf.handleApplyChanges sideways
        (OrganizePdf.handleRotate "page-0" OrganizePdf.cw
           (default [] (OrganizePdf.handleFileSelected sideways)))) 0
   = Some 0) /\
  (handleClicks (replicate 5 (RotateAll 90)) [0] = Some [90] /\
   rotationOf (handleSave unrotated [90]) 0 = Some 90).
Proof. repeat split; vm_compute; reflexivity. Qed.

End RotateFacts.

(** ** Crop tool *)

Section CropFacts.
Import CropPdf.
Local Open Scope Q_scope.

Lemma Qabs_close (a b : Q) : a == b -> Qabs (a - b) <= 1 # 1000000.
Proof.
  intros Hab. assert (a - b == 0) as -> by lra.
  vm_compute. discriminate.
Qed.

(** C2.  The crop box is converted by [docX = (uiX/100) * pageWidth] and
    [docY = pageHeight - (uiY/100) * pageHeight - docHeight], sizes being
    scaled by [pageWidth/100] and [pageHeight/100]; on a page of
    positive width and height, converting to points and back gives the
    rectangle one started from, within [1e-6]. *)
Theorem crop_conversion_round_trip (uiRect : Rect) (pageWidth pageHeight : Q) :
  0 < pageWidth -> 0 < pageHeight ->
  let doc := toDocumentSpace uiRect pageWidth pageHeight in
  let back := toUISpace doc pageWidth pageHeight in
  (rect_x doc == (rect_x uiRect / 100) * pageWidth /\
   rect_y doc == pageHeight - (rect_y uiRect / 100) * pageHeight - rect_height doc /\
   rect_width doc == rect_width uiRect * (pageWidth / 100) /\
   rect_height doc == rect_height uiRect * (pageHeight / 100)) /\
  (rect_x back == rect_x uiRect /\ rect_y back == rect_y uiRect /\
   rect_width back == rect_width uiRect /\ rect_height back == rect_height uiRect) /\
  rect_close (1 # 1000000) back uiRect.
Proof.
  intros Hw Hh doc back.
  assert (~ pageWidth == 0) as Hw0 by lra.
  assert (~ pageHeight == 0) as Hh0 by lra.
  assert (rect_x back == rect_x uiRect /\ rect_y back == rect_y uiRect /\
          rect_width back == rect_width uiRect /\
          rect_height back == rect_height uiRect) as Hback.
  { subst back doc. destruct uiRect as [x y w h]. simpl.
    repeat split; field; assumption. }
  split; [|split; [exact Hback|]].
  - subst doc. destruct uiRect as [x y w h]. simpl.
    repeat split; try reflexivity; field.
  - destruct Hback as (Hx & Hy & Hwd & Hht).
    repeat split; apply Qabs_close; assumption.
Qed.

Lemma crop_conversion_round_trip_witness :
  let uiRect := mkRect 10 10 80 80 in
  let back := toUISpace (toDocumentSpace uiRect 612 792) 612 792 in
  rect_x back == 10 /\ rect_y back == 10 /\
  rect_width back == 80 /\ rect_height back == 80.
Proof.
  exact (proj1 (proj2 (crop_conversion_round_trip (mkRect 10 10 80 80) 612 792
                         eq_refl eq_refl))).
Defined.

End CropFacts.

(** ** Page ranges *)

Section RangeFacts.

Lemma filter_all {A : Type} (P : A -> Prop) `{!forall x, Decision (P x)} (l : list A) :
  Forall P l -> filter P l = l.
Proof.
  induction 1 as [|x l Hx _ IH]; [reflexivity|].
  rewrite filter_cons_True by exact Hx. f_equal. exact IH.
Qed.

Lemma filter_none {A : Type} (P : A -> Prop) `{!forall x, Decision (P x)} (l : list A) :
  Forall (fun x => ~ P x) l -> filter P l = [].
Proof.
  induction 1 as [|x l Hx _ IH]; [reflexivity|].
  rewrite filter_cons_False by exact Hx. exact IH.
Qed.

(** Keeping the indices of a window out of [0, 1, ..., len - 1]. *)
Lemma filter_seqZ_window (a n len : Z) :
  0 <= a -> 0 <= n -> a + n <= len ->
  filter (fun i => a <= i < a + n) (seqZ 0 len) = seqZ a n.
Proof.
  intros Ha Hn Hlen.
  replace len with (a + (n + (len - a - n))) by lia.
  rewrite seqZ_app by lia. rewrite seqZ_app by lia.
  rewrite !filter_app.
  rewrite filter_none, filter_all, filter_none.
  - rewrite app_nil_r. simpl. f_equal.
  - apply Forall_forall. intros i Hi%elem_of_seqZ. lia.
  - apply Forall_forall. intros i Hi%elem_of_seqZ. lia.
  - apply Forall_forall. intros i Hi%elem_of_seqZ. lia.
Qed.

Lemma spec_resolve_seqZ (from : Z) (to : option Z) (totalPages : Z) :
  let first := Z.max 0 (from - 1) in
  let last := match to with
              | Some t => Z.min (totalPages - 1) (t - 1)
              | None => totalPages - 1
              end in
  spec_resolve from to totalPages = seqZ first (last - first + 1).
Proof.
  intros first last. unfold spec_resolve. fold first. fold last.
  destruct (Z.ltb_spec last first); [|reflexivity].
  symmetry. apply seqZ_nil. lia.
Qed.

Lemma watermark_endIdx_le (s : WatermarkPdf.WatermarkSettings) (pages : list Page) :
  WatermarkPdf.endIdx s pages <= Z.of_nat (length pages) - 1.
Proof.
  unfold WatermarkPdf.endIdx. destruct (WatermarkPdf.endPage s) as [e|]; [|lia].
  destruct (e =? 0); lia.
Qed.

(** The pages the watermark loop visits are the window from [startIdx]
    to [endIdx]. *)
Lemma watermark_pagesToProcess_seqZ (s : WatermarkPdf.WatermarkSettings)
    (pages : list Page) :
  WatermarkPdf.pagesToProcess s false pages =
  seqZ (WatermarkPdf.startIdx s)
    (WatermarkPdf.endIdx s pages - WatermarkPdf.startIdx s + 1).
Proof.
  unfold WatermarkPdf.pagesToProcess, WatermarkPdf.targetIndices.
  pose proof (watermark_endIdx_le s pages) as He.
  assert (0 <= WatermarkPdf.startIdx s) as Ha by (unfold WatermarkPdf.startIdx; lia).
  set (a := WatermarkPdf.startIdx s) in *.
  set (e := WatermarkPdf.endIdx s pages) in *.
  destruct (Z.leb_spec a e) as [Hae|Hae].
  - etrans;
      [|apply (filter_seqZ_window a (e - a + 1) (Z.of_nat (length pages))); lia].
    apply list_filter_iff. intros i.
    rewrite elem_of_list_to_set, elem_of_seqZ. reflexivity.
  - rewrite (seqZ_nil a) by lia. apply filter_none, Forall_forall.
    intros i _. apply not_elem_of_empty.
Qed.

Lemma pageNumbers_pagesToProcess_seqZ (s : PageNumbers.PageNumberSettings)
    (total : Z) :
  PageNumbers.pagesToProcess s false total =
  seqZ (PageNumbers.startIdx s)
    (PageNumbers.endIdx s total - PageNumbers.startIdx s).
Proof.
  unfold PageNumbers.pagesToProcess.
  change (fun i => PageNumbers.startIdx s + i) with (Z.add (PageNumbers.startIdx s)).
  rewrite fmap_add_seqZ. f_equal. lia.
Qed.

End RangeFacts.

Section CropLoop.
Import CropPdf.

Lemma crop_endIdx_le (settings : CropSettings) (pages : list Page) :
  endIdx settings pages <= Z.of_nat (length pages) - 1.
Proof.
  unfold endIdx. destruct (endPage settings) as [e|]; [|lia].
  destruct (e =? 0); lia.
Qed.

Lemma loopIndices_in_range (settings : CropSettings) (pages : list Page) (i : Z) :
  i ∈ loopIndices settings pages -> exists p, page_at pages i = Some p.
Proof.
  unfold loopIndices. intros Hi%elem_of_seqZ.
  pose proof (crop_endIdx_le settings pages).
  assert (0 <= startIdx settings) by (unfold startIdx; lia).
  destruct (lookup_lt_is_Some_2 pages (Z.to_nat i)) as [p Hp]; [lia|].
  exists p. apply page_at_Some. split; [lia | exact Hp].
Qed.

(** The crop loop never throws, and crops exactly the pages of its
    range, each with its own size. *)
Lemma cropDocument_Ok (settings : CropSettings) (cropBox : Rect) (f : File)
    (pages : list Page) :
  data f = PdfData pages ->
  exists pages',
    cropDocument settings cropBox f
    = Ok (save pages', endIdx settings pages - startIdx settings + 1) /\
    length pages' = length pages /\
    forall (i : Z) (p : Page),
      page_at pages i = Some p ->
      page_at pages' i
      = Some (if decide (i ∈ loopIndices settings pages)
              then cropPage cropBox p else p).
Proof.
  intros Hdata. unfold cropDocument. rewrite Hdata. simpl.
  set (g := fun (_ : Z) (page : Page) => Ok (cropPage cropBox page)).
  change (cropAt cropBox) with (visits g).
  destruct (for_of_visits_Ok g (loopIndices settings pages)
              (NoDup_seqZ _ _) pages) as (pages' & Hrun).
  { intros j (p & Hp)%loopIndices_in_range. exists p, (cropPage cropBox p). auto. }
  destruct (for_of_visits_inv g _ (NoDup_seqZ _ _) _ _ Hrun) as (Hlen & Hin & Hout).
  exists pages'. fold (loopIndices settings pages). rewrite Hrun. simpl.
  split; [reflexivity|]. split; [exact Hlen|].
  intros i p Hp. case_decide as Hi.
  - destruct (Hin i Hi) as (q & q' & Hq & Hg & Hq').
    rewrite Hp in Hq. inversion Hq; subst q. inversion Hg; subst q'. exact Hq'.
  - rewrite (Hout i Hi). exact Hp.
Qed.

End CropLoop.

Section CropGeometry.
Import CropPdf.

(** C9 (as stated, refuted).  A page whose media box has width and
    height 0, and one with a negative width, go through the conversion
    and the crop like any other: nothing is thrown and the user is told
    that the pages were cropped. *)
Lemma crop_of_degenerate_page_is_not_rejected :
  let f := mkFile "flat.pdf" "application/pdf"
             (PdfData [blankPage 0 0; blankPage (-100) 50]) in
  cropDocument defaultSettings defaultCropBox f <> Thrown /\
  toasts (handleDownload defaultSettings defaultCropBox (mkBrowser (Some f) [] []))
  = ["Cropped 2 page(s) successfully!"].
Proof.
  split; [vm_compute; discriminate | vm_compute; reflexivity].
Qed.

(** C9 (amended).  The conversion makes no check on the page size: for
    every crop box and every document, whatever the sign of the width
    and height of its pages, the crop succeeds, and every page of the
    range gets as crop box and media box the rectangle computed from
    its own width and height. *)
Theorem crop_conversion_has_no_geometry_check
    (settings : CropSettings) (cropBox : Rect) (f : File) (pages : list Page) :
  data f = PdfData pages ->
  exists pages',
    cropDocument settings cropBox f
    = Ok (PdfData pages', endIdx settings pages - startIdx settings + 1) /\
    forall (i : Z) (p : Page),
      i ∈ loopIndices settings pages ->
      page_at pages i = Some p ->
      exists p',
        page_at pages' i = Some p' /\
        MediaBox p'
        = toDocumentSpace cropBox (rect_width (MediaBox p)) (rect_height (MediaBox p)) /\
        CropBox p' = Some (MediaBox p').
Proof.
  intros Hdata.
  destruct (cropDocument_Ok settings cropBox f pages Hdata) as (pages' & Hrun & _ & Hat).
  destruct (save_PdfData pages') as (saved & Hsaved & _).
  exists saved. split; [rewrite Hrun, Hsaved; reflexivity|].
  intros i p Hi Hp. exists (cropPage cropBox p).
  split; [|split; reflexivity].
  apply (save_page_at pages' saved i _ Hsaved).
  rewrite (Hat i p Hp). rewrite decide_True by exact Hi. reflexivity.
Qed.

Lemma crop_conversion_has_no_geometry_check_witness :
  exists pages',
    cropDocument defaultSettings defaultCropBox
      (mkFile "flat.pdf" "application/pdf" (PdfData [blankPage 0 (-50)]))
    = Ok (PdfData pages', 1).
Proof.
  destruct (crop_conversion_has_no_geometry_check defaultSettings defaultCropBox
              (mkFile "flat.pdf" "application/pdf" (PdfData [blankPage 0 (-50)]))
              [blankPage 0 (-50)] eq_refl) as (pages' & Hrun & _).
  exists pages'. exact Hrun.
Defined.

End CropGeometry.

Section RangeResolution.
Context `{PdfLib}.

Lemma applyWatermark_loaded (s : WatermarkPdf.WatermarkSettings) (f : File)
    (pages : list Page) (isPreview : bool) :
  data f = PdfData pages ->
  WatermarkPdf.applyWatermark s f isPreview
  = try_catch
      (pages' ← for_of
                  (WatermarkPdf.processAt s isPreview
                     (WatermarkPdf.embeddedImage s isPreview))
                  (WatermarkPdf.pagesToProcess s isPreview pages) pages;
       Ok (Some (save pages')))
      None.
Proof.
  intros Hdata. unfold WatermarkPdf.applyWatermark. rewrite Hdata. reflexivity.
Qed.

Lemma applyPageNumbers_loaded (s : PageNumbers.PageNumberSettings) (f : File)
    (pages : list Page) :
  data f = PdfData pages ->
  PageNumbers.applyPageNumbers s f false
  = try_catch
      (pages' ← for_of (PageNumbers.numberAt s (Z.of_nat (length pages)))
                  (PageNumbers.pagesToProcess s false (Z.of_nat (length pages)))
                  pages;
       Ok (Some (save pages')))
      None.
Proof.
  intros Hdata. unfold PageNumbers.applyPageNumbers. rewrite Hdata. reflexivity.
Qed.

Lemma cropDocument_loaded (s : CropPdf.CropSettings) (cropBox : Rect) (f : File)
    (pages : list Page) :
  data f = PdfData pages ->
  CropPdf.cropDocument s cropBox f
  = (pages' ← for_of (CropPdf.cropAt cropBox) (CropPdf.loopIndices s pages) pages;
     Ok (save pages', CropPdf.endIdx s pages - CropPdf.startIdx s + 1)).
Proof.
  intros Hdata. unfold CropPdf.cropDocument. rewrite Hdata. reflexivity.
Qed.

Lemma tools_agree_on_range (from : Z) (to : option Z) (pages : list Page)
    (ws : WatermarkPdf.WatermarkSettings) (ns : PageNumbers.PageNumberSettings)
    (cs : CropPdf.CropSettings) :
  let total := Z.of_nat (length pages) in
  let first := Z.max 0 (from - 1) in
  let last := match to with
              | Some t => if t =? 0 then total - 1 else Z.min (total - 1) (t - 1)
              | None => total - 1
              end in
  WatermarkPdf.pagesToProcess (WatermarkPdf.withRange (Some from) to ws) false pages
  = seqZ first (last - first + 1) /\
  PageNumbers.pagesToProcess (PageNumbers.withRange from to ns) false total
  = seqZ first (last - first + 1) /\
  CropPdf.loopIndices (CropPdf.withRange from to cs) pages
  = seqZ first (last - first + 1).
Proof.
  intros total first last. split; [|split].
  - rewrite watermark_pagesToProcess_seqZ. reflexivity.
  - rewrite pageNumbers_pagesToProcess_seqZ.
    unfold PageNumbers.startIdx, PageNumbers.endIdx. simpl. fold first.
    f_equal. subst last. destruct to as [t|]; [|lia].
    destruct (t =? 0); lia.
  - reflexivity.
Qed.

(** C3 (as stated, refuted).  With [to = 0] the claimed range ends at
    [min(totalPages - 1, -1)] and is empty, while each of the three
    tools goes on to the last page of a five-page document. *)
Lemma range_with_end_zero_is_not_empty :
  let pages := replicate 5 (blankPage 612 792) in
  spec_resolve 1 (Some 0) 5 = [] /\
  WatermarkPdf.pagesToProcess
    (WatermarkPdf.withRange (Some 1) (Some 0) WatermarkPdf.defaultSettings) false pages
  = [0; 1; 2; 3; 4] /\
  PageNumbers.pagesToProcess
    (PageNumbers.withRange 1 (Some 0) PageNumbers.defaultSettings) false 5
  = [0; 1; 2; 3; 4] /\
  CropPdf.loopIndices (CropPdf.withRange 1 (Some 0) CropPdf.defaultSettings) pages
  = [0; 1; 2; 3; 4].
Proof. repeat split; vm_compute; reflexivity. Qed.

(** C3 (amended).  For every document and every range [{from, to}]
    whose [to] is [null] or a number other than 0, each tool resolves
    the range to the ordered 0-indexed pages from [max(0, from - 1)]
    through [min(totalPages - 1, to - 1)] (through [totalPages - 1] when
    [to] is [null]); when the clamped end precedes the start the range
    is empty and nothing is thrown: no page is visited, and what the
    tool hands to [save] is the document as it was loaded. *)
Theorem range_resolution_with_nonzero_end
    (from : Z) (to : option Z) (f : File) (pages : list Page) (cropBox : Rect)
    (ws : WatermarkPdf.WatermarkSettings) (ns : PageNumbers.PageNumberSettings)
    (cs : CropPdf.CropSettings) :
  to <> Some 0 ->
  data f = PdfData pages ->
  let total := Z.of_nat (length pages) in
  (WatermarkPdf.pagesToProcess (WatermarkPdf.withRange (Some from) to ws) false pages
   = spec_resolve from to total /\
   PageNumbers.pagesToProcess (PageNumbers.withRange from to ns) false total
   = spec_resolve from to total /\
   CropPdf.loopIndices (CropPdf.withRange from to cs) pages
   = spec_resolve from to total) /\
  (match to with
   | Some t => Z.min (total - 1) (t - 1)
   | None => total - 1
   end < Z.max 0 (from - 1) ->
   spec_resolve from to total = [] /\
   WatermarkPdf.applyWatermark (WatermarkPdf.withRange (Some from) to ws) f false
   = Some (save pages) /\
   PageNumbers.applyPageNumbers (PageNumbers.withRange from to ns) f false
   = Some (save pages) /\
   exists count,
     CropPdf.cropDocument (CropPdf.withRange from to cs) cropBox f
     = Ok (save pages, count)).
Proof.
  intros Hto Hdata total.
  destruct (tools_agree_on_range from to pages ws ns cs) as (Hw & Hn & Hc).
  assert (match to with
          | Some t => if t =? 0 then total - 1 else Z.min (total - 1) (t - 1)
          | None => total - 1
          end
          = match to with
            | Some t => Z.min (total - 1) (t - 1)
            | None => total - 1
            end) as Hlast.
  { destruct to as [t|]; [|reflexivity].
    destruct (Z.eqb_spec t 0) as [->|_]; [contradiction | reflexivity]. }
  fold total in Hw, Hn, Hc. rewrite Hlast in Hw, Hn, Hc.
  rewrite <- spec_resolve_seqZ in Hw, Hn, Hc.
  split; [auto|].
  intros Hempty.
  assert (spec_resolve from to total = []) as Hnil.
  { unfold spec_resolve. destruct (Z.ltb_spec
      (match to with
       | Some t => Z.min (total - 1) (t - 1)
       | None => total - 1
       end) (Z.max 0 (from - 1))); [reflexivity | lia]. }
  split; [exact Hnil|]. split; [|split].
  - rewrite (applyWatermark_loaded _ _ _ _ Hdata), Hw, Hnil. reflexivity.
  - rewrite (applyPageNumbers_loaded _ _ _ Hdata). fold total.
    rewrite Hn, Hnil. reflexivity.
  - eexists. rewrite (cropDocument_loaded _ _ _ _ Hdata), Hc, Hnil. reflexivity.
Qed.

End RangeResolution.

Lemma range_resolution_with_nonzero_end_witness :
  Some 100 <> Some 0 /\
  WatermarkPdf.pagesToProcess
    (WatermarkPdf.withRange (Some 3) (Some 100) WatermarkPdf.defaultSettings) false
    (replicate 5 (blankPage 612 792))
  = [2; 3; 4].
Proof.
  split; [discriminate|].
  destruct (@range_resolution_with_nonzero_end testLib 3 (Some 100)
              (mkFile "a.pdf" "application/pdf" (PdfData (replicate 5 (blankPage 612 792))))
              (replicate 5 (blankPage 612 792)) CropPdf.defaultCropBox
              WatermarkPdf.defaultSettings PageNumbers.defaultSettings
              CropPdf.defaultSettings)
    as [(Hw & _) _].
  - discriminate.
  - reflexivity.
  - exact Hw.
Defined.

(** The three ranges the design document lists. *)
Example range_examples :
  PageNumbers.pagesToProcess
    (PageNumbers.withRange 5 (Some 3) PageNumbers.defaultSettings) false 10 = [] /\
  PageNumbers.pagesToProcess
    (PageNumbers.withRange 1 None PageNumbers.defaultSettings) false 7
  = [0; 1; 2; 3; 4; 5; 6] /\
  PageNumbers.pagesToProcess
    (PageNumbers.withRange 3 (Some 100) PageNumbers.defaultSettings) false 5
  = [2; 3; 4] /\
  spec_resolve 5 (Some 3) 10 = [] /\
  spec_resolve 1 None 7 = [0; 1; 2; 3; 4; 5; 6] /\
  spec_resolve 3 (Some 100) 5 = [2; 3; 4].
Proof. repeat split; vm_compute; reflexivity. Qed.

Section EndZero.
Context `{PdfLib}.

(** C10.  In the watermark, page-number and crop tools a range whose
    end is 0 is treated as one whose end is [null]: the same pages are
    visited, namely those from the start of the range to the last page
    of the document, and the tool gives the same result. *)
Theorem end_zero_means_to_the_last_page
    (from : Z) (f : File) (pages : list Page) (cropBox : Rect) (isPreview : bool)
    (ws : WatermarkPdf.WatermarkSettings) (ns : PageNumbers.PageNumberSettings)
    (cs : CropPdf.CropSettings) :
  let total := Z.of_nat (length pages) in
  (WatermarkPdf.pagesToProcess (WatermarkPdf.withRange (Some from) (Some 0) ws) false pages
   = spec_resolve from None total /\
   WatermarkPdf.pagesToProcess (WatermarkPdf.withRange (Some from) None ws) false pages
   = spec_resolve from None total /\
   PageNumbers.pagesToProcess (PageNumbers.withRange from (Some 0) ns) false total
   = spec_resolve from None total /\
   PageNumbers.pagesToProcess (PageNumbers.withRange from None ns) false total
   = spec_resolve from None total /\
   CropPdf.loopIndices (CropPdf.withRange from (Some 0) cs) pages
   = spec_resolve from None total /\
   CropPdf.loopIndices (CropPdf.withRange from None cs) pages
   = spec_resolve from None total) /\
  (WatermarkPdf.applyWatermark (WatermarkPdf.withRange (Some from) (Some 0) ws) f isPreview
   = WatermarkPdf.applyWatermark (WatermarkPdf.withRange (Some from) None ws) f isPreview /\
   PageNumbers.applyPageNumbers (PageNumbers.withRange from (Some 0) ns) f isPreview
   = PageNumbers.applyPageNumbers (PageNumbers.withRange from None ns) f isPreview /\
   CropPdf.cropDocument (CropPdf.withRange from (Some 0) cs) cropBox f
   = CropPdf.cropDocument (CropPdf.withRange from None cs) cropBox f) /\
  (Z.max 0 (from - 1) <= total - 1 ->
   total - 1 ∈ spec_resolve from None total).
Proof.
  intros total.
  destruct (tools_agree_on_range from (Some 0) pages ws ns cs) as (Hw0 & Hn0 & Hc0).
  destruct (tools_agree_on_range from None pages ws ns cs) as (Hw & Hn & Hc).
  simpl in Hw0, Hn0, Hc0. fold total in Hw0, Hn0, Hc0, Hw, Hn, Hc.
  pose proof (spec_resolve_seqZ from None total) as Hspec. simpl in Hspec.
  rewrite <- Hspec in Hw0, Hn0, Hc0, Hw, Hn, Hc.
  split; [repeat split; assumption|]. split; [split; [|split]|].
  - reflexivity.
  - reflexivity.
  - reflexivity.
  - intros Hle. rewrite Hspec. apply elem_of_seqZ. lia.
Qed.

End EndZero.

(** ** Anchored placement *)

Section AnchorFacts.
Local Open Scope Q_scope.

(** The anchored origin in exact arithmetic: it is [margin],
    [(pageWidth - w)/2] or [pageWidth - w - margin] for left, centre and
    right, and [pageHeight - h - margin], [(pageHeight - h)/2] or
    [margin] for top, centre and bottom, and for an element with
    [size <= pageSize - 2 * margin] on both axes the placed rectangle
    lies within [[margin, pageSize - margin]] on both axes. *)
Lemma anchor_resolution_exact
    (pageWidth pageHeight w h : Q) (p : WatermarkPdf.Position)
    (s : PageNumbers.PageNumberSettings) :
  (WatermarkPdf.anchorX p pageWidth w
   = match p with
     | WatermarkPdf.tl | WatermarkPdf.cl | WatermarkPdf.bl => WatermarkPdf.margin
     | WatermarkPdf.tc | WatermarkPdf.cc | WatermarkPdf.bc => (pageWidth - w) / 2
     | WatermarkPdf.tr | WatermarkPdf.cr | WatermarkPdf.br =>
         pageWidth - w - WatermarkPdf.margin
     end /\
   WatermarkPdf.anchorY p pageHeight h
   = match p with
     | WatermarkPdf.tl | WatermarkPdf.tc | WatermarkPdf.tr =>
         pageHeight - h - WatermarkPdf.margin
     | WatermarkPdf.cl | WatermarkPdf.cc | WatermarkPdf.cr => (pageHeight - h) / 2
     | WatermarkPdf.bl | WatermarkPdf.bc | WatermarkPdf.br => WatermarkPdf.margin
     end) /\
  (PageNumbers.positionX s pageWidth w
   = match PageNumbers.position s with
     | PageNumbers.tl | PageNumbers.bl => PageNumbers.margin s
     | PageNumbers.tc | PageNumbers.bc => (pageWidth - w) / 2
     | PageNumbers.tr | PageNumbers.br => pageWidth - PageNumbers.margin s - w
     end /\
   PageNumbers.positionY s pageHeight h
   = match PageNumbers.position s with
     | PageNumbers.tl | PageNumbers.tc | PageNumbers.tr =>
         pageHeight - PageNumbers.margin s - h
     | PageNumbers.bl | PageNumbers.bc | PageNumbers.br => PageNumbers.margin s
     end) /\
  (w <= pageWidth - 2 * WatermarkPdf.margin ->
   h <= pageHeight - 2 * WatermarkPdf.margin ->
   WatermarkPdf.margin <= WatermarkPdf.anchorX p pageWidth w /\
   WatermarkPdf.anchorX p pageWidth w + w <= pageWidth - WatermarkPdf.margin /\
   WatermarkPdf.margin <= WatermarkPdf.anchorY p pageHeight h /\
   WatermarkPdf.anchorY p pageHeight h + h <= pageHeight - WatermarkPdf.margin) /\
  (w <= pageWidth - 2 * PageNumbers.margin s ->
   h <= pageHeight - 2 * PageNumbers.margin s ->
   PageNumbers.margin s <= PageNumbers.positionX s pageWidth w /\
   PageNumbers.positionX s pageWidth w + w <= pageWidth - PageNumbers.margin s /\
   PageNumbers.margin s <= PageNumbers.positionY s pageHeight h /\
   PageNumbers.positionY s pageHeight h + h <= pageHeight - PageNumbers.margin s).
Proof.
  assert (forall m a b : Q,
             a <= b - 2 * m -> m <= (b - a) / 2 /\ (b - a) / 2 + a <= b - m)
    as Hmid.
  { intros m a b Hab. change ((b - a) / 2) with ((b - a) * (1 # 2)). split; lra. }
  split; [|split; [|split]].
  - destruct p; split; reflexivity.
  - unfold PageNumbers.positionX, PageNumbers.positionY.
    destruct (PageNumbers.position s); split; reflexivity.
  - intros Hw Hh. unfold WatermarkPdf.margin in *.
    destruct (Hmid _ w pageWidth Hw) as [Hx1 Hx2].
    destruct (Hmid _ h pageHeight Hh) as [Hy1 Hy2].
    destruct p; cbv [WatermarkPdf.anchorX WatermarkPdf.anchorY WatermarkPdf.position_string
                       includes String.index]; simpl;
      unfold WatermarkPdf.margin; repeat split; try assumption; lra.
  - intros Hw Hh.
    destruct (Hmid _ w pageWidth Hw) as [Hx1 Hx2].
    destruct (Hmid _ h pageHeight Hh) as [Hy1 Hy2].
    unfold PageNumbers.positionX, PageNumbers.positionY.
    destruct (PageNumbers.position s); simpl; repeat split; try assumption; lra.
Qed.


Lemma rounded_within (exact result bound : Q) :
  rounded exact result -> - bound <= exact <= bound ->
  - (unitRoundoff * bound) <= result - exact <= unitRoundoff * bound.
Proof.
  unfold rounded. intros Hr [Hlo Hhi].
  assert (Qabs exact <= bound) as Habs by (apply Qabs_Qle_condition; split; assumption).
  assert (unitRoundoff * Qabs exact <= unitRoundoff * bound) as Hscaled.
  { apply Qmult_le_l; [reflexivity | exact Habs]. }
  apply Qabs_Qle_condition in Hr. destruct Hr as [Hr1 Hr2].
  split; lra.
Qed.

Section Rounding.
Variable fl : Q -> Q.
Hypothesis fl_rounds : forall q, rounded q (fl q).

(** The far side: [extent - size - m], each subtraction rounded. *)
Lemma far_side_rounded (extent size m : Q) :
  0 <= size -> 0 <= m -> size <= extent - 2 * m ->
  let x := fl (fl (extent - size) - m) in
  m - roundingSlack extent <= x /\ x + size <= extent - m + roundingSlack extent.
Proof.
  intros Hsize Hm Hfits. simpl.
  pose proof (rounded_within (extent - size) _ extent (fl_rounds _)) as H1.
  pose proof (rounded_within (fl (extent - size) - m) _ (2 * extent) (fl_rounds _)) as H2.
  unfold unitRoundoff, roundingSlack in *.
  assert (- extent <= extent - size <= extent) as Hb1 by (split; lra).
  specialize (H1 Hb1).
  assert (- (2 * extent) <= fl (extent - size) - m <= 2 * extent) as Hb2 by (split; lra).
  specialize (H2 Hb2).
  split; lra.
Qed.

(** The far side as the page-number tool computes it:
    [extent - m - size]. *)
Lemma far_side_rounded' (extent size m : Q) :
  0 <= size -> 0 <= m -> size <= extent - 2 * m ->
  let x := fl (fl (extent - m) - size) in
  m - roundingSlack extent <= x /\ x + size <= extent - m + roundingSlack extent.
Proof.
  intros Hsize Hm Hfits. simpl.
  pose proof (rounded_within (extent - m) _ extent (fl_rounds _)) as H1.
  pose proof (rounded_within (fl (extent - m) - size) _ (2 * extent) (fl_rounds _)) as H2.
  unfold unitRoundoff, roundingSlack in *.
  assert (- extent <= extent - m <= extent) as Hb1 by (split; lra).
  specialize (H1 Hb1).
  assert (- (2 * extent) <= fl (extent - m) - size <= 2 * extent) as Hb2
    by (split; lra).
  specialize (H2 Hb2).
  split; lra.
Qed.

(** The centre: [(extent - size) / 2]. *)
Lemma centre_rounded (extent size m : Q) :
  0 <= size -> 0 <= m -> size <= extent - 2 * m ->
  let x := fl (fl (extent - size) / 2) in
  m - roundingSlack extent <= x /\ x + size <= extent - m + roundingSlack extent.
Proof.
  intros Hsize Hm Hfits. simpl.
  change (fl (extent - size) / 2) with (fl (extent - size) * (1 # 2)).
  pose proof (rounded_within (extent - size) _ extent (fl_rounds _)) as H1.
  pose proof (rounded_within (fl (extent - size) * (1 # 2)) _ extent (fl_rounds _)) as H2.
  unfold unitRoundoff, roundingSlack in *.
  assert (- extent <= extent - size <= extent) as Hb1 by (split; lra).
  specialize (H1 Hb1).
  assert (- extent <= fl (extent - size) * (1 # 2) <= extent) as Hb2 by (split; lra).
  specialize (H2 Hb2).
  split; lra.
Qed.

(** The near side: [m] itself. *)
Lemma near_side (extent size m : Q) :
  0 <= size -> 0 <= m -> size <= extent - 2 * m ->
  m - roundingSlack extent <= m /\ m + size <= extent - m + roundingSlack extent.
Proof.
  intros Hsize Hm Hfits. unfold roundingSlack. split; lra.
Qed.

End Rounding.

(** C6 (amended).  The anchored origin is [margin], [(pageWidth - w)/2]
    or [pageWidth - w - margin] for left, centre and right, and
    [pageHeight - h - margin], [(pageHeight - h)/2] or [margin] for top,
    centre and bottom (the page-number tool, which has the six anchors of
    the top and bottom rows and the margin of its settings, subtracts
    the margin first).  For an element with
    [0 <= size <= pageSize - 2 * margin] on both axes the placed
    rectangle lies within [[margin, pageSize - margin]] on both axes in
    exact arithmetic, and in the arithmetic of the program, where every
    result is rounded to a double, within those bounds widened by one
    part in 2^50 of the page size. *)
Theorem anchor_resolution_up_to_rounding
    (fl : Q -> Q) (pageWidth pageHeight w h : Q) (p : WatermarkPdf.Position)
    (s : PageNumbers.PageNumberSettings) :
  (forall q, rounded q (fl q)) ->
  0 <= w -> 0 <= h ->
  (WatermarkPdf.anchorX_rounded fl p pageWidth w
   = match p with
     | WatermarkPdf.tl | WatermarkPdf.cl | WatermarkPdf.bl => WatermarkPdf.margin
     | WatermarkPdf.tc | WatermarkPdf.cc | WatermarkPdf.bc => fl (fl (pageWidth - w) / 2)
     | WatermarkPdf.tr | WatermarkPdf.cr | WatermarkPdf.br =>
         fl (fl (pageWidth - w) - WatermarkPdf.margin)
     end /\
   WatermarkPdf.anchorY_rounded fl p pageHeight h
   = match p with
     | WatermarkPdf.tl | WatermarkPdf.tc | WatermarkPdf.tr =>
         fl (fl (pageHeight - h) - WatermarkPdf.margin)
     | WatermarkPdf.cl | WatermarkPdf.cc | WatermarkPdf.cr => fl (fl (pageHeight - h) / 2)
     | WatermarkPdf.bl | WatermarkPdf.bc | WatermarkPdf.br => WatermarkPdf.margin
     end /\
   PageNumbers.positionX_rounded fl s pageWidth w
   = match PageNumbers.position s with
     | PageNumbers.tl | PageNumbers.bl => PageNumbers.margin s
     | PageNumbers.tc | PageNumbers.bc => fl (fl (pageWidth - w) / 2)
     | PageNumbers.tr | PageNumbers.br =>
         fl (fl (pageWidth - PageNumbers.margin s) - w)
     end /\
   PageNumbers.positionY_rounded fl s pageHeight h
   = match PageNumbers.position s with
     | PageNumbers.tl | PageNumbers.tc | PageNumbers.tr =>
         fl (fl (pageHeight - PageNumbers.margin s) - h)
     | PageNumbers.bl | PageNumbers.bc | PageNumbers.br => PageNumbers.margin s
     end) /\
  (WatermarkPdf.anchorX_rounded (fun q => q) p pageWidth w
   = WatermarkPdf.anchorX p pageWidth w /\
   WatermarkPdf.anchorY_rounded (fun q => q) p pageHeight h
   = WatermarkPdf.anchorY p pageHeight h /\
   PageNumbers.positionX_rounded (fun q => q) s pageWidth w
   = PageNumbers.positionX s pageWidth w /\
   PageNumbers.positionY_rounded (fun q => q) s pageHeight h
   = PageNumbers.positionY s pageHeight h) /\
  (w <= pageWidth - 2 * WatermarkPdf.margin ->
   h <= pageHeight - 2 * WatermarkPdf.margin ->
   (WatermarkPdf.margin <= WatermarkPdf.anchorX p pageWidth w /\
    WatermarkPdf.anchorX p pageWidth w + w <= pageWidth - WatermarkPdf.margin /\
    WatermarkPdf.margin <= WatermarkPdf.anchorY p pageHeight h /\
    WatermarkPdf.anchorY p pageHeight h + h <= pageHeight - WatermarkPdf.margin) /\
   (WatermarkPdf.margin - roundingSlack pageWidth
    <= WatermarkPdf.anchorX_rounded fl p pageWidth w /\
    WatermarkPdf.anchorX_rounded fl p pageWidth w + w
    <= pageWidth - WatermarkPdf.margin + roundingSlack pageWidth /\
    WatermarkPdf.margin - roundingSlack pageHeight
    <= WatermarkPdf.anchorY_rounded fl p pageHeight h /\
    WatermarkPdf.anchorY_rounded fl p pageHeight h + h
    <= pageHeight - WatermarkPdf.margin + roundingSlack pageHeight)) /\
  (0 <= PageNumbers.margin s ->
   w <= pageWidth - 2 * PageNumbers.margin s ->
   h <= pageHeight - 2 * PageNumbers.margin s ->
   (PageNumbers.margin s <= PageNumbers.positionX s pageWidth w /\
    PageNumbers.positionX s pageWidth w + w <= pageWidth - PageNumbers.margin s /\
    PageNumbers.margin s <= PageNumbers.positionY s pageHeight h /\
    PageNumbers.positionY s pageHeight h + h <= pageHeight - PageNumbers.margin s) /\
   (PageNumbers.margin s - roundingSlack pageWidth
    <= PageNumbers.positionX_rounded fl s pageWidth w /\
    PageNumbers.positionX_rounded fl s pageWidth w + w
    <= pageWidth - PageNumbers.margin s + roundingSlack pageWidth /\
    PageNumbers.margin s - roundingSlack pageHeight
    <= PageNumbers.positionY_rounded fl s pageHeight h /\
    PageNumbers.positionY_rounded fl s pageHeight h + h
    <= pageHeight - PageNumbers.margin s + roundingSlack pageHeight)).
Proof.
  intros Hfl Hw0 Hh0.
  destruct (anchor_resolution_exact pageWidth pageHeight w h p s)
    as (_ & _ & Hexact & Hexact').
  split; [|split; [|split]].
  - split; [|split; [|split]].
    + destruct p; reflexivity.
    + destruct p; reflexivity.
    + unfold PageNumbers.positionX_rounded. destruct (PageNumbers.position s); reflexivity.
    + unfold PageNumbers.positionY_rounded. destruct (PageNumbers.position s); reflexivity.
  - split; [|split; [|split]].
    + destruct p; reflexivity.
    + destruct p; reflexivity.
    + unfold PageNumbers.positionX_rounded, PageNumbers.positionX.
      destruct (PageNumbers.position s); reflexivity.
    + unfold PageNumbers.positionY_rounded, PageNumbers.positionY.
      destruct (PageNumbers.position s); reflexivity.
  - intros Hw Hh. split; [exact (Hexact Hw Hh)|].
    assert (0 <= WatermarkPdf.margin) as Hm by (unfold WatermarkPdf.margin; lra).
    pose proof (far_side_rounded fl Hfl pageWidth w _ Hw0 Hm Hw) as [Hfx1 Hfx2].
    pose proof (far_side_rounded fl Hfl pageHeight h _ Hh0 Hm Hh) as [Hfy1 Hfy2].
    pose proof (centre_rounded fl Hfl pageWidth w _ Hw0 Hm Hw) as [Hcx1 Hcx2].
    pose proof (centre_rounded fl Hfl pageHeight h _ Hh0 Hm Hh) as [Hcy1 Hcy2].
    pose proof (near_side pageWidth w _ Hw0 Hm Hw) as [Hnx1 Hnx2].
    pose proof (near_side pageHeight h _ Hh0 Hm Hh) as [Hny1 Hny2].
    destruct p;
      cbv [WatermarkPdf.anchorX_rounded WatermarkPdf.anchorY_rounded
             WatermarkPdf.position_string includes String.index];
      simpl; repeat split; assumption.
  - intros Hm Hw Hh. split; [exact (Hexact' Hw Hh)|].
    pose proof (far_side_rounded' fl Hfl pageWidth w _ Hw0 Hm Hw) as [Hfx1 Hfx2].
    pose proof (far_side_rounded' fl Hfl pageHeight h _ Hh0 Hm Hh) as [Hfy1 Hfy2].
    pose proof (centre_rounded fl Hfl pageWidth w _ Hw0 Hm Hw) as [Hcx1 Hcx2].
    pose proof (near_side pageWidth w _ Hw0 Hm Hw) as [Hnx1 Hnx2].
    pose proof (near_side pageHeight h _ Hh0 Hm Hh) as [Hny1 Hny2].
    unfold PageNumbers.positionX_rounded, PageNumbers.positionY_rounded.
    destruct (PageNumbers.position s); simpl; repeat split; assumption.
Qed.

End AnchorFacts.

(** ** Tiled placement *)

Section TileFacts.
Context `{PdfLib}.
Import WatermarkPdf.
Local Open Scope Q_scope.

Lemma draw_accepted (op : operator) (page : Page) :
  accepts op = true -> draw op page = Ok (pushOperator op page).
Proof. intros Ha. unfold draw. rewrite Ha. reflexivity. Qed.

Lemma operators_pushOperator (op : operator) (page : Page) :
  operators (pushOperator op page) = (operators page ++ [op])%list.
Proof.
  unfold operators, pushOperator. destruct (contentStream page); reflexivity.
Qed.

Lemma getSize_pushOperator (op : operator) (page : Page) :
  getSize (pushOperator op page) = getSize page.
Proof.
  unfold getSize, pushOperator. destruct (contentStream page); reflexivity.
Qed.

Lemma tileCenter_formula (extent : Q) (k : Z) :
  tileCenter extent k == extent * inject_Z (2 * k + 1) / 6.
Proof.
  unfold tileCenter. replace (k * 2 + 1)%Z with (2 * k + 1)%Z by lia.
  field.
Qed.

(** The nine text marks of a tiled text watermark. *)
Lemma tiled_text_operators (s : WatermarkSettings) (page : Page)
    (color : Color) (textWidth : Q) :
  isTiled s = true ->
  rgbOfHex (textColor s) = Ok color ->
  widthOfTextAtSize (text s) (textSize s) = Ok textWidth ->
  let mark := fun '(ix, iy) =>
    DrawText (text s)
      (tileCenter (rect_width (MediaBox page)) ix - textWidth / 2)
      (tileCenter (rect_height (MediaBox page)) iy - heightAtSize (textSize s) / 3)
      (textSize s) color (Some (opacity s)) (rotation s) in
  Forall (fun op => accepts op = true) (mark <$> cells) ->
  exists page',
    drawTextWatermark s page = Ok page' /\
    operators page' = (operators page ++ (mark <$> cells))%list.
Proof.
  intros Ht Hc Hw mark Hacc.
  unfold drawTextWatermark. simpl. rewrite Hc. simpl. rewrite Hw. simpl.
  rewrite Ht. unfold for3x3. simpl in Hacc.
  repeat match goal with
         | Hf : Forall _ (_ :: _) |- _ => apply Forall_cons in Hf as [? Hf]
         end.
  cbn [for_of].
  repeat (rewrite draw_accepted by assumption; simpl).
  eexists. split; [reflexivity|].
  rewrite !operators_pushOperator. rewrite <- !app_assoc. reflexivity.
Qed.

(** The nine image marks of a tiled image watermark. *)
Lemma tiled_image_operators (s : WatermarkSettings) (page : Page) (dims : Q * Q) :
  isTiled s = true ->
  let imgW := fst dims * imageScale s in
  let imgH := snd dims * imageScale s in
  let mark := fun '(ix, iy) =>
    DrawImage
      (tileCenter (rect_width (MediaBox page)) ix - imgW / 2)
      (tileCenter (rect_height (MediaBox page)) iy - imgH / 2)
      imgW imgH (opacity s) (rotation s) in
  Forall (fun op => accepts op = true) (mark <$> cells) ->
  exists page',
    drawImageWatermark s dims page = Ok page' /\
    operators page' = (operators page ++ (mark <$> cells))%list.
Proof.
  intros Ht imgW imgH mark Hacc.
  unfold drawImageWatermark. simpl.
  rewrite Ht. unfold for3x3. simpl in Hacc.
  repeat match goal with
         | Hf : Forall _ (_ :: _) |- _ => apply Forall_cons in Hf as [? Hf]
         end.
  cbn [for_of].
  repeat (rewrite draw_accepted by assumption; simpl).
  eexists. split; [reflexivity|].
  rewrite !operators_pushOperator. rewrite <- !app_assoc. reflexivity.
Qed.

(** C5 (amended).  For every page size and element size a tiled
    watermark is drawn as exactly 9 marks, one per cell of a 3 x 3 grid
    whose centres are at [(pageWidth*(2k+1)/6, pageHeight*(2k+1)/6)],
    [k] in 0..2 on each axis ([{50,150,250} x {50,150,250}] on a
    300 x 300 page), in the order outer x, inner y.  An image mark has
    its origin at the centre minus half the image size on both axes; a
    text mark has its origin at the centre minus half the text width
    horizontally and minus one third of the text height vertically. *)
Theorem tiled_placement (s : WatermarkSettings) (page : Page)
    (color : Color) (textWidth : Q) (dims : Q * Q) :
  isTiled s = true ->
  let pageWidth := rect_width (MediaBox page) in
  let pageHeight := rect_height (MediaBox page) in
  let textMark := fun '(ix, iy) =>
    DrawText (text s)
      (tileCenter pageWidth ix - textWidth / 2)
      (tileCenter pageHeight iy - heightAtSize (textSize s) / 3)
      (textSize s) color (Some (opacity s)) (rotation s) in
  let imgW := fst dims * imageScale s in
  let imgH := snd dims * imageScale s in
  let imageMark := fun '(ix, iy) =>
    DrawImage
      (tileCenter pageWidth ix - imgW / 2)
      (tileCenter pageHeight iy - imgH / 2)
      imgW imgH (opacity s) (rotation s) in
  (rgbOfHex (textColor s) = Ok color ->
   widthOfTextAtSize (text s) (textSize s) = Ok textWidth ->
   Forall (fun op => accepts op = true) (textMark <$> cells) ->
   exists page',
     drawTextWatermark s page = Ok page' /\
     operators page' = (operators page ++ (textMark <$> cells))%list) /\
  (Forall (fun op => accepts op = true) (imageMark <$> cells) ->
   exists page',
     drawImageWatermark s dims page = Ok page' /\
     operators page' = (operators page ++ (imageMark <$> cells))%list) /\
  length cells = 9%nat /\
  cells = (ix ← [0; 1; 2]; iy ← [0; 1; 2]; [(ix, iy)])%Z /\
  (forall (extent : Q) (k : Z),
      tileCenter extent k == extent * inject_Z (2 * k + 1) / 6) /\
  (tileCenter 300 0 == 50 /\ tileCenter 300 1 == 150 /\ tileCenter 300 2 == 250).
Proof.
  intros Ht pageWidth pageHeight textMark imgW imgH imageMark.
  split; [|split; [|split; [|split; [|split]]]].
  - intros Hc Hw Hacc. exact (tiled_text_operators s page color textWidth Ht Hc Hw Hacc).
  - intros Hacc. exact (tiled_image_operators s page dims Ht Hacc).
  - reflexivity.
  - reflexivity.
  - exact tileCenter_formula.
  - repeat split; reflexivity.
Qed.

End TileFacts.

(** C5 (as stated, refuted).  On a 300 x 300 page the first tile of the
    default text watermark (48 pt, text height 48 in the stand-in
    library) is drawn with its origin 16 below the centre of its cell,
    not 24, which would be half its height. *)
Lemma tiled_text_is_not_centred_vertically :
  match
    @WatermarkPdf.drawTextWatermark testLib
      (WatermarkPdf.withTiled true WatermarkPdf.defaultSettings) (blankPage 300 300)
  with
  | Ok page' =>
      match origin <$> operators page' with
      | (x, y) :: _ =>
          (y == WatermarkPdf.tileCenter 300 0 - 16 /\
           ~ y == WatermarkPdf.tileCenter 300 0 - @heightAtSize testLib 48 / 2)%Q
      | [] => False
      end
  | Thrown => False
  end.
Proof. vm_compute. split; [reflexivity | discriminate]. Qed.

Lemma tiled_placement_witness :
  exists page',
    @WatermarkPdf.drawImageWatermark testLib
      (WatermarkPdf.withTiled true WatermarkPdf.defaultSettings) (400, 200)%Q
      (blankPage 300 300) = Ok page' /\
    length (operators page') = 9%nat.
Proof.
  destruct (@tiled_placement testLib
              (WatermarkPdf.withTiled true WatermarkPdf.defaultSettings)
              (blankPage 300 300) (0, 0, 0)%Q 288 (400, 200)%Q eq_refl)
    as (_ & Himage & _).
  destruct Himage as (page' & Hrun & Hops).
  - repeat constructor.
  - exists page'. split; [exact Hrun|]. rewrite Hops. reflexivity.
Defined.

(** C6 (as stated, refuted).  On an A4 page, 841.89 high, a text
    14.911000000000001 high fits between the margins of 20, and anchored
    at the top it is placed by both tools at 806.979, so that its upper
    edge, at 821.8900000000001, lies above [pageHeight - margin], which
    is 821.89: the sums are those of the doubles, taken exactly. *)
#[warnings="-inexact-float"]
Lemma anchored_text_leaves_the_margin_in_doubles :
  let pageHeight := 841.89%float in
  let h := 14.911000000000001%float in
  let y := WatermarkPdf.anchorY_double WatermarkPdf.tl pageHeight h in
  let y' := PageNumbers.positionY_double PageNumbers.tl 20 pageHeight h in
  (0 <= toQ h /\ toQ h <= toQ pageHeight - 2 * 20)%Q /\
  ~ (toQ y + toQ h <= toQ pageHeight - 20)%Q /\
  ~ (toQ y' + toQ h <= toQ pageHeight - 20)%Q.
Proof.
  vm_compute. repeat split; try discriminate; intros Hle; apply Hle; reflexivity.
Qed.

Lemma rounded_Proper (a b r : Q) : (a == b)%Q -> rounded b r -> rounded a r.
Proof. unfold rounded. intros ->. auto. Qed.

Lemma roundingOnA4_rounds (q : Q) : rounded q (roundingOnA4 q).
Proof.
  unfold roundingOnA4.
  repeat match goal with
         | |- context [if Qeq_bool q ?exact then _ else _] =>
             let E := fresh "E" in
             destruct (Qeq_bool q exact) eqn:E;
             [apply Qeq_bool_eq in E; apply (rounded_Proper _ _ _ E);
              vm_compute; discriminate|]
         end.
  unfold rounded.
  assert (q - q == 0)%Q as -> by ring.
  apply Qmult_le_0_compat; [discriminate | apply Qabs_nonneg].
Qed.

#[warnings="-inexact-float"]
Lemma anchor_resolution_up_to_rounding_witness :
  let pageHeight := toQ 841.89%float in
  let h := toQ 14.911000000000001%float in
  let y := WatermarkPdf.anchorY_rounded roundingOnA4 WatermarkPdf.tl pageHeight h in
  (y == toQ (WatermarkPdf.anchorY_double WatermarkPdf.tl
               841.89%float 14.911000000000001%float))%Q /\
  (WatermarkPdf.margin - roundingSlack pageHeight <= y)%Q /\
  (y + h <= pageHeight - WatermarkPdf.margin + roundingSlack pageHeight)%Q.
Proof.
  intros pageHeight h y.
  split; [vm_compute; reflexivity|].
  assert (0 <= h)%Q as Hh0 by (vm_compute; discriminate).
  assert (h <= pageHeight - 2 * WatermarkPdf.margin)%Q as Hh
    by (vm_compute; discriminate).
  assert (h <= 612 - 2 * WatermarkPdf.margin)%Q as Hw by (vm_compute; discriminate).
  destruct (anchor_resolution_up_to_rounding roundingOnA4 612 pageHeight h h
              WatermarkPdf.tl PageNumbers.defaultSettings roundingOnA4_rounds Hh0 Hh0)
    as (_ & _ & Hbounds & _).
  destruct (Hbounds Hw Hh) as (_ & _ & _ & Hy1 & Hy2).
  split; [exact Hy1 | exact Hy2].
Defined.

(** ** The watermark loop as a whole *)

Section WatermarkApply.
Context `{PdfLib}.
Import WatermarkPdf.

Lemma pagesToProcess_NoDup (s : WatermarkSettings) (isPreview : bool)
    (pages : list Page) :
  NoDup (pagesToProcess s isPreview pages).
Proof.
  destruct isPreview.
  - apply NoDup_singleton.
  - rewrite watermark_pagesToProcess_seqZ. apply NoDup_seqZ.
Qed.

(** A document that comes out of [applyWatermark]: every page of the
    loop went through [processPage], the other pages are as loaded, and
    the result is handed to [save]. *)
Lemma applyWatermark_Some_inv (s : WatermarkSettings) (f : File)
    (isPreview : bool) (bytes : FileData) :
  applyWatermark s f isPreview = Some bytes ->
  exists pages pages',
    data f = PdfData pages /\ bytes = save pages' /\
    length pages' = length pages /\
    (forall j, j ∈ pagesToProcess s isPreview pages ->
       exists p p', page_at pages j = Some p /\
                    processPage s isPreview (embeddedImage s isPreview) p = Ok p' /\
                    page_at pages' j = Some p') /\
    (forall j, j ∉ pagesToProcess s isPreview pages ->
       page_at pages' j = page_at pages j).
Proof.
  intros Hrun. unfold applyWatermark in Hrun.
  destruct (data f) as [pages| | |] eqn:Hdata; try discriminate Hrun.
  simpl in Hrun.
  destruct (for_of (processAt s isPreview (embeddedImage s isPreview))
              (pagesToProcess s isPreview pages) pages) as [pages'|] eqn:Hloop;
    [|discriminate Hrun].
  inversion Hrun; subst bytes.
  exists pages, pages'. split; [reflexivity|]. split; [reflexivity|].
  exact (for_of_visits_inv
           (fun _ : Z => processPage s isPreview (embeddedImage s isPreview))
           _ (pagesToProcess_NoDup s isPreview pages) pages pages' Hloop).
Qed.

(** [applyWatermark] gives a document when the file is a PDF and
    [processPage] accepts every page of the loop. *)
Lemma applyWatermark_succeeds (s : WatermarkSettings) (f : File)
    (isPreview : bool) (pages : list Page) :
  data f = PdfData pages ->
  (forall j, j ∈ pagesToProcess s isPreview pages ->
     exists p p', page_at pages j = Some p /\
                  processPage s isPreview (embeddedImage s isPreview) p = Ok p') ->
  exists pages', applyWatermark s f isPreview = Some (PdfData pages').
Proof.
  intros Hdata Hall.
  assert (exists pages',
             for_of (processAt s isPreview (embeddedImage s isPreview))
               (pagesToProcess s isPreview pages) pages = Ok pages')
    as (pages' & Hloop).
  { exact (for_of_visits_Ok
             (fun _ : Z => processPage s isPreview (embeddedImage s isPreview))
             _ (pagesToProcess_NoDup s isPreview pages) pages Hall). }
  destruct (save_PdfData pages') as (saved & Hsaved & _).
  exists saved. rewrite (applyWatermark_loaded _ _ _ _ Hdata).
  rewrite Hloop. simpl. rewrite Hsaved. reflexivity.
Qed.

(** [applyWatermark] gives [null] as soon as one page of the loop is
    missing or makes [processPage] throw. *)
Lemma applyWatermark_aborts (s : WatermarkSettings) (f : File)
    (isPreview : bool) (pages : list Page) (j : Z) :
  data f = PdfData pages ->
  j ∈ pagesToProcess s isPreview pages ->
  (forall p, page_at pages j = Some p ->
             processPage s isPreview (embeddedImage s isPreview) p = Thrown) ->
  applyWatermark s f isPreview = None.
Proof.
  intros Hdata Hj Hbad. rewrite (applyWatermark_loaded _ _ _ _ Hdata).
  assert (for_of (processAt s isPreview (embeddedImage s isPreview))
            (pagesToProcess s isPreview pages) pages = Thrown) as Hloop.
  { exact (for_of_visits_Thrown
             (fun _ : Z => processPage s isPreview (embeddedImage s isPreview))
             _ (pagesToProcess_NoDup s isPreview pages) pages j Hj Hbad). }
  rewrite Hloop. reflexivity.
Qed.

Lemma applyWatermark_not_pdf (s : WatermarkSettings) (f : File) (isPreview : bool) :
  load (data f) = Thrown -> applyWatermark s f isPreview = None.
Proof.
  intros Hload. unfold applyWatermark. rewrite Hload. reflexivity.
Qed.

End WatermarkApply.

(** ** Layering under the page content *)

Section LayerFacts.
Context `{PdfLib}.
Import WatermarkPdf.

Lemma moveLastToFront_snoc (pre : list streamRef) (x : streamRef) :
  pre <> [] -> moveLastToFront (pre ++ [x]) = x :: pre.
Proof.
  intros Hpre. unfold moveLastToFront.
  assert (0 < length pre)%nat as Hlen by (destruct pre; [contradiction | simpl; lia]).
  rewrite length_app. simpl.
  replace (Z.to_nat (Z.of_nat (length pre + 1) - 1)) with (length pre) by lia.
  destruct (Z.ltb_spec 0 (Z.of_nat (length pre + 1) - 1)); [|lia].
  rewrite list_lookup_middle by reflexivity.
  rewrite delete_middle, app_nil_r. reflexivity.
Qed.

Lemma moveLastToFront_short (l : list streamRef) :
  (length l <= 1)%nat -> moveLastToFront l = l.
Proof.
  intros Hlen. unfold moveLastToFront.
  destruct (Z.ltb_spec 0 (Z.of_nat (length l) - 1)); [lia | reflexivity].
Qed.

Lemma pushOperator_drawnOn (op : operator) (p q : Page) :
  q = p \/ drawnOn p q -> drawnOn p (pushOperator op q).
Proof.
  unfold drawnOn, contentsAfterDraw, pushOperator.
  intros [->|[Hstream Hcontents]].
  - destruct (contentStream p); simpl; split; try discriminate; reflexivity.
  - destruct (contentStream q); [|contradiction].
    simpl. split; [discriminate | exact Hcontents].
Qed.

Lemma draw_drawnOn (op : operator) (p q q' : Page) :
  q = p \/ drawnOn p q -> draw op q = Ok q' -> drawnOn p q'.
Proof.
  intros Hq. unfold draw. destruct (accepts op); [|intros Hd; discriminate Hd].
  intros Hd. inversion Hd. apply pushOperator_drawnOn, Hq.
Qed.

(** A loop that draws at every turn, and has at least one turn. *)
Lemma for_of_drawnOn {A : Type} (body : Page -> A -> outcome Page) (p : Page)
    (xs : list A) :
  (forall q x q', q = p \/ drawnOn p q -> body q x = Ok q' -> drawnOn p q') ->
  forall q p',
    q = p \/ drawnOn p q -> xs <> [] -> for_of body xs q = Ok p' -> drawnOn p p'.
Proof.
  intros Hbody. induction xs as [|x xs IH]; intros q p' Hq Hne Hrun; [contradiction|].
  simpl in Hrun. apply obind_Ok in Hrun as (q1 & Hq1 & Hrest).
  pose proof (Hbody q x q1 Hq Hq1) as Hdrawn.
  destruct xs as [|y ys].
  - simpl in Hrest. inversion Hrest; subst p'. exact Hdrawn.
  - apply (IH q1 p'); [right; exact Hdrawn | discriminate | exact Hrest].
Qed.

Lemma for3x3_drawnOn (body : Z -> Z -> Page -> outcome Page) (p q p' : Page) :
  (forall ix iy q1 q2, q1 = p \/ drawnOn p q1 -> body ix iy q1 = Ok q2 -> drawnOn p q2) ->
  q = p \/ drawnOn p q -> for3x3 body q = Ok p' -> drawnOn p p'.
Proof.
  intros Hbody Hq. unfold for3x3.
  apply (for_of_drawnOn _ p [0; 1; 2]); [|exact Hq | discriminate].
  intros q1 ix q2 Hq1.
  apply (for_of_drawnOn _ p [0; 1; 2]); [|exact Hq1 | discriminate].
  intros q3 iy q4. apply Hbody.
Qed.

(** Whenever the loop body draws (a text watermark, the placeholder of a
    preview, or an embedded image) the page ends with the contents a
    drawing call leaves. *)
Lemma drawWatermark_drawnOn (s : WatermarkSettings) (isPreview : bool)
    (image : option (Q * Q)) (p drawn : Page) :
  type s = text_type \/ isPreview = true \/ image <> None ->
  drawWatermark s isPreview image p = Ok drawn -> drawnOn p drawn.
Proof.
  intros Hdraws. unfold drawWatermark. destruct (type s) eqn:Htype.
  - unfold drawTextWatermark. simpl.
    destruct (rgbOfHex (textColor s)) as [color|]; [|intros Hd; discriminate Hd].
    simpl. destruct (widthOfTextAtSize (text s) (textSize s)) as [w|];
      [|intros Hd; discriminate Hd].
    simpl. destruct (isTiled s).
    + apply for3x3_drawnOn; [|left; reflexivity].
      intros ix iy q1 q2. apply draw_drawnOn.
    + apply draw_drawnOn. left. reflexivity.
  - destruct isPreview.
    + unfold drawPlaceholderWatermark. simpl.
      assert (forall x y q q',
                 q = p \/ drawnOn p q ->
                 (q1 ← draw (DrawRectangle x y (200 * imageScale s) (100 * imageScale s)
                               (opacity s) (rotation s)) q;
                  draw (DrawText "IMAGE" (x + 200 * imageScale s / 2 - 20)
                          (y + 100 * imageScale s / 2 - 5) 12
                          (1 # 2, 1 # 2, 1 # 2)%Q None (rotation s)) q1) = Ok q' ->
                 drawnOn p q') as Hplace.
      { intros x y q q' Hq (q1 & Hq1 & Hq')%obind_Ok.
        eapply draw_drawnOn; [right; eapply draw_drawnOn; eassumption | exact Hq']. }
      destruct (isTiled s).
      * apply for3x3_drawnOn; [|left; reflexivity].
        intros ix iy q1 q2. apply Hplace.
      * apply Hplace. left. reflexivity.
    + destruct image as [dims|].
      * unfold drawImageWatermark. simpl. destruct (isTiled s).
        -- apply for3x3_drawnOn; [|left; reflexivity].
           intros ix iy q1 q2. apply draw_drawnOn.
        -- apply draw_drawnOn. left. reflexivity.
      * destruct Hdraws as [Ht|[Hp|Hi]]; [discriminate Ht | discriminate Hp | contradiction].
Qed.

(** What [processPage] gives with the layer under, from the page as it
    is after the drawing. *)
Lemma processPage_under (s : WatermarkSettings) (isPreview : bool)
    (image : option (Q * Q)) (page drawn : Page) :
  layer s = under ->
  drawWatermark s isPreview image page = Ok drawn ->
  exists result,
    processPage s isPreview image page = Ok result /\
    (Rotate result = Rotate drawn /\ MediaBox result = MediaBox drawn /\
     CropBox result = CropBox drawn /\
     contentStream result = contentStream drawn) /\
    (forall (pre : list streamRef) (x : streamRef),
        pre <> [] ->
        Contents drawn = PDFArray (pre ++ [x]) ->
        Contents result = PDFArray (x :: pre)) /\
    ((length (entries (Contents drawn)) <= 1)%nat -> result = drawn) /\
    (contentStream page = None ->
     type s = text_type \/ isPreview = true \/ image <> None ->
     Contents result = PDFArray (Own :: entries (normalize (Contents page)))).
Proof.
  intros Hunder Hdrawn.
  unfold processPage. rewrite Hdrawn, Hunder. simpl.
  eexists. split; [reflexivity|].
  assert (contentStream page = None ->
          type s = text_type \/ isPreview = true \/ image <> None ->
          Contents drawn = PDFArray (entries (normalize (Contents page)) ++ [Own]))
    as Hfresh.
  { intros Hnone Hdraws.
    destruct (drawWatermark_drawnOn s isPreview image page drawn Hdraws Hdrawn)
      as [_ Hc].
    rewrite Hc. unfold contentsAfterDraw. rewrite Hnone. reflexivity. }
  unfold layerUnder.
  destruct drawn as [rot media crop cont stream]. simpl in *.
  destruct cont as [|r|l]; simpl.
  - split; [auto|]. split; [|split; [reflexivity|]].
    + intros pre x _ Hc. discriminate Hc.
    + intros Hnone Hdraws. discriminate (Hfresh Hnone Hdraws).
  - split; [auto|]. split; [|split; [reflexivity|]].
    + intros pre x _ Hc. discriminate Hc.
    + intros Hnone Hdraws. discriminate (Hfresh Hnone Hdraws).
  - split; [auto|]. split; [|split].
    + intros pre x Hpre Hc. inversion Hc; subst l.
      rewrite moveLastToFront_snoc by exact Hpre. reflexivity.
    + intros Hlen. rewrite moveLastToFront_short by exact Hlen. reflexivity.
    + intros Hnone Hdraws. pose proof (Hfresh Hnone Hdraws) as Hc.
      inversion Hc; subst l. f_equal.
      destruct (entries (normalize (Contents page))) as [|e es] eqn:He.
      * reflexivity.
      * rewrite moveLastToFront_snoc by discriminate. reflexivity.
Qed.

(** C7.  With [layer = under], once the watermark is drawn the last
    entry of the page's content list is taken from the end and put at
    index 0 when the list has more than one entry; a content that is a
    single stream or absent, and a list of at most one entry, is left
    as it is.  On a page as it was loaded, whenever the tool draws (a
    text watermark, the placeholder of a preview, or an embedded image)
    the last entry is the stream of the drawing calls, so that stream
    ends up in front of everything the page had.  The step throws
    nothing: every page of the loop of a returned document has been
    through it, and wherever the tool gives a document with the layer
    above it gives one with the layer under. *)
Theorem under_layer_moves_last_stream_to_front
    (s : WatermarkSettings) (isPreview : bool) (f : File) :
  layer s = under ->
  (forall (image : option (Q * Q)) (page drawn : Page),
      drawWatermark s isPreview image page = Ok drawn ->
      exists result,
        processPage s isPreview image page = Ok result /\
        (Rotate result = Rotate drawn /\ MediaBox result = MediaBox drawn /\
         CropBox result = CropBox drawn /\
         contentStream result = contentStream drawn) /\
        (forall (pre : list streamRef) (x : streamRef),
            pre <> [] ->
            Contents drawn = PDFArray (pre ++ [x]) ->
            Contents result = PDFArray (x :: pre)) /\
        ((length (entries (Contents drawn)) <= 1)%nat ->
         result = drawn) /\
        (contentStream page = None ->
         type s = text_type \/ isPreview = true \/ image <> None ->
         Contents result = PDFArray (Own :: entries (normalize (Contents page))))) /\
  (forall bytes,
      applyWatermark s f isPreview = Some bytes ->
      exists pages pages',
        data f = PdfData pages /\ bytes = PdfData pages' /\
        forall j, j ∈ pagesToProcess s isPreview pages ->
          exists page drawn result,
            page_at pages j = Some page /\
            drawWatermark s isPreview (embeddedImage s isPreview) page = Ok drawn /\
            page_at pages' j = Some result /\
            (forall (pre : list streamRef) (x : streamRef),
                pre <> [] ->
                Contents drawn = PDFArray (pre ++ [x]) ->
                Contents result = PDFArray (x :: pre)) /\
            ((length (entries (Contents drawn)) <= 1)%nat -> result = drawn) /\
            (contentStream page = None ->
             type s = text_type \/ isPreview = true \/
             embeddedImage s isPreview <> None ->
             Contents result
             = PDFArray (Own :: entries (normalize (Contents page))))) /\
  (forall bytes,
      applyWatermark (withLayer over s) f isPreview = Some bytes ->
      exists pages', applyWatermark s f isPreview = Some (PdfData pages')).
Proof.
  intros Hunder. split; [|split].
  - intros image page drawn Hdrawn.
    exact (processPage_under s isPreview image page drawn Hunder Hdrawn).
  - intros bytes Hrun.
    apply applyWatermark_Some_inv in Hrun
      as (pages & loop & Hdata & Hbytes & _ & Hin & _).
    destruct (save_PdfData loop) as (saved & Hsaved & _).
    exists pages, saved. split; [exact Hdata|]. split; [congruence|].
    intros j Hj. destruct (Hin j Hj) as (page & result & Hpage & Hproc & Hresult).
    destruct (drawWatermark s isPreview (embeddedImage s isPreview) page)
      as [drawn|] eqn:Hdrawn;
      [|unfold processPage in Hproc; rewrite Hdrawn in Hproc; discriminate Hproc].
    destruct (processPage_under s isPreview _ page drawn Hunder Hdrawn)
      as (result' & Hproc' & _ & Hmove & Hshort & Hfront).
    rewrite Hproc in Hproc'. inversion Hproc'; subst result'.
    exists page, drawn, result.
    split; [exact Hpage|]. split; [exact Hdrawn|].
    split; [exact (save_page_at loop saved j result Hsaved Hresult)|].
    split; [exact Hmove|]. split; [exact Hshort | exact Hfront].
  - intros bytes Hover.
    apply applyWatermark_Some_inv in Hover
      as (pages & pages' & Hdata & _ & _ & Hin & _).
    apply (applyWatermark_succeeds s f isPreview pages Hdata).
    intros j Hj. destruct (Hin j Hj) as (p & p' & Hp & Hproc & _).
    exists p. unfold processPage in *. simpl in Hproc.
    change (drawWatermark (withLayer over s)) with (drawWatermark s) in Hproc.
    destruct (drawWatermark s isPreview (embeddedImage s isPreview) p)
      as [drawn|] eqn:Hdrawn.
    + rewrite Hunder. simpl. eexists. split; [exact Hp | reflexivity].
    + change (embeddedImage (withLayer over s) isPreview)
        with (embeddedImage s isPreview) in Hproc.
      rewrite Hdrawn in Hproc. discriminate Hproc.
Qed.

End LayerFacts.

Lemma under_layer_moves_last_stream_to_front_witness :
  let s := WatermarkPdf.withLayer WatermarkPdf.under WatermarkPdf.defaultSettings in
  let f := mkFile "scan.pdf" "application/pdf"
             (PdfData [scannedPage 612 792 0; blankPage 612 792]) in
  exists pages' scanned blank,
    @WatermarkPdf.applyWatermark testLib s f false = Some (PdfData pages') /\
    page_at pages' 0 = Some scanned /\
    Contents scanned
    = PDFArray [Own; PushGraphicsState; Existing 0; PopGraphicsState] /\
    page_at pages' 1 = Some blank /\
    Contents blank = PDFArray [Own].
Proof.
  intros s f.
  destruct (@under_layer_moves_last_stream_to_front testLib s false f eq_refl)
    as (_ & Hdoc & _).
  destruct (@WatermarkPdf.applyWatermark testLib s f false) as [bytes|] eqn:Hrun;
    [|vm_compute in Hrun; discriminate Hrun].
  destruct (Hdoc bytes eq_refl) as (pages & pages' & Hdata & -> & Hpages).
  inversion Hdata; subst pages.
  destruct (Hpages 0) as (p0 & d0 & r0 & Hp0 & _ & Hr0 & _ & _ & Hfront0).
  { change (0 ∈ [0; 1]). left. }
  destruct (Hpages 1) as (p1 & d1 & r1 & Hp1 & _ & Hr1 & _ & _ & Hfront1).
  { change (1 ∈ [0; 1]). right. left. }
  vm_compute in Hp0. inversion Hp0; subst p0.
  vm_compute in Hp1. inversion Hp1; subst p1.
  exists pages', r0, r1. split; [reflexivity|].
  split; [exact Hr0|]. split; [apply Hfront0; [reflexivity | left; reflexivity]|].
  split; [exact Hr1|]. apply Hfront1; [reflexivity | left; reflexivity].
Defined.

(** ** The page-number loop as a whole *)

Section PageNumberApply.
Context `{PdfLib}.
Import PageNumbers.

Lemma for_of_ext_in {A S : Type} (body body' : S -> A -> outcome S) (xs : list A) :
  (forall st x, x ∈ xs -> body st x = body' st x) ->
  forall st, for_of body xs st = for_of body' xs st.
Proof.
  induction xs as [|x xs IH]; intros Hext st; [reflexivity|].
  simpl. rewrite (Hext st x) by left.
  destruct (body' st x) as [st'|]; [|reflexivity].
  simpl. apply IH. intros st'' y Hy. apply Hext. right. exact Hy.
Qed.

(** The pages that get a number: outside a preview, every page of the
    range lies in the document. *)
Lemma pagesToProcess_lt_total (s : PageNumberSettings) (total j : Z) :
  j ∈ pagesToProcess s false total -> 0 <= j < total.
Proof.
  rewrite pageNumbers_pagesToProcess_seqZ. intros Hj%elem_of_seqZ.
  assert (endIdx s total <= total)
    by (unfold endIdx; destruct (toPage s) as [e|]; [destruct (e =? 0)|]; lia).
  assert (0 <= startIdx s) by (unfold startIdx; lia).
  lia.
Qed.

Lemma numbering_loop (s : PageNumberSettings) (pages : list Page) :
  for_of (numberAt s (Z.of_nat (length pages)))
    (pagesToProcess s false (Z.of_nat (length pages))) pages
  = for_of (visits (numberPage s (Z.of_nat (length pages))))
      (pagesToProcess s false (Z.of_nat (length pages))) pages.
Proof.
  apply for_of_ext_in. intros st j Hj%pagesToProcess_lt_total.
  unfold numberAt. destruct (Z.leb_spec (Z.of_nat (length pages)) j); [lia|].
  reflexivity.
Qed.

Lemma pageNumbers_NoDup (s : PageNumberSettings) (total : Z) :
  NoDup (pagesToProcess s false total).
Proof. rewrite pageNumbers_pagesToProcess_seqZ. apply NoDup_seqZ. Qed.

Lemma applyPageNumbers_Some_inv (s : PageNumberSettings) (f : File)
    (bytes : FileData) :
  applyPageNumbers s f false = Some bytes ->
  exists pages pages',
    data f = PdfData pages /\ bytes = save pages' /\
    length pages' = length pages /\
    (forall j, j ∈ pagesToProcess s false (Z.of_nat (length pages)) ->
       exists p p', page_at pages j = Some p /\
                    numberPage s (Z.of_nat (length pages)) j p = Ok p' /\
                    page_at pages' j = Some p') /\
    (forall j, j ∉ pagesToProcess s false (Z.of_nat (length pages)) ->
       page_at pages' j = page_at pages j).
Proof.
  intros Hrun.
  destruct (data f) as [pages| | |] eqn:Hdata;
    try (unfold applyPageNumbers in Hrun; rewrite Hdata in Hrun; discriminate Hrun).
  rewrite (applyPageNumbers_loaded s f pages Hdata), numbering_loop in Hrun.
  destruct (for_of (visits (numberPage s (Z.of_nat (length pages))))
              (pagesToProcess s false (Z.of_nat (length pages))) pages)
    as [pages'|] eqn:Hloop; [|discriminate Hrun].
  inversion Hrun; subst bytes.
  exists pages, pages'. split; [reflexivity|]. split; [reflexivity|].
  exact (for_of_visits_inv _ _ (pageNumbers_NoDup s (Z.of_nat (length pages)))
           pages pages' Hloop).
Qed.

Lemma applyPageNumbers_succeeds (s : PageNumberSettings) (f : File)
    (pages : list Page) :
  data f = PdfData pages ->
  (forall j p, j ∈ pagesToProcess s false (Z.of_nat (length pages)) ->
               page_at pages j = Some p ->
               exists p', numberPage s (Z.of_nat (length pages)) j p = Ok p') ->
  exists pages', applyPageNumbers s f false = Some (PdfData pages').
Proof.
  intros Hdata Hall.
  destruct (for_of_visits_Ok (numberPage s (Z.of_nat (length pages)))
              _ (pageNumbers_NoDup s (Z.of_nat (length pages))) pages)
    as (pages' & Hloop).
  { intros j Hj. pose proof (pagesToProcess_lt_total _ _ _ Hj) as Hlt.
    destruct (lookup_lt_is_Some_2 pages (Z.to_nat j)) as [p Hp]; [lia|].
    assert (page_at pages j = Some p) as Hat by (apply page_at_Some; split; [lia|exact Hp]).
    destruct (Hall j p Hj Hat) as (p' & Hp').
    exists p, p'. auto. }
  destruct (save_PdfData pages') as (saved & Hsaved & _).
  exists saved.
  rewrite (applyPageNumbers_loaded s f pages Hdata), numbering_loop, Hloop.
  simpl. rewrite Hsaved. reflexivity.
Qed.

Lemma applyPageNumbers_aborts (s : PageNumberSettings) (f : File)
    (pages : list Page) (j : Z) :
  data f = PdfData pages ->
  j ∈ pagesToProcess s false (Z.of_nat (length pages)) ->
  (forall p, page_at pages j = Some p ->
             numberPage s (Z.of_nat (length pages)) j p = Thrown) ->
  applyPageNumbers s f false = None.
Proof.
  intros Hdata Hj Hbad.
  rewrite (applyPageNumbers_loaded s f pages Hdata), numbering_loop.
  rewrite (for_of_visits_Thrown _ _ (pageNumbers_NoDup s (Z.of_nat (length pages)))
             pages j Hj Hbad).
  reflexivity.
Qed.

Lemma applyPageNumbers_not_pdf (s : PageNumberSettings) (f : File)
    (isPreview : bool) :
  load (data f) = Thrown -> applyPageNumbers s f isPreview = None.
Proof.
  intros Hload. unfold applyPageNumbers. rewrite Hload. reflexivity.
Qed.

(** What numbering one page draws. *)
Lemma numberPage_Ok (s : PageNumberSettings) (total pageIdx : Z) (p p' : Page) :
  numberPage s total pageIdx p = Ok p' <->
  exists textWidth rgb,
    widthOfTextAtSize (textFor s total pageIdx) (fontSize s) = Ok textWidth /\
    rgbOfHex (color s) = Ok rgb /\
    let op := DrawText (textFor s total pageIdx)
                (positionX s (rect_width (MediaBox p)) textWidth)
                (positionY s (rect_height (MediaBox p)) (heightAtSize (fontSize s)))
                (fontSize s) rgb None 0 in
    accepts op = true /\ p' = pushOperator op p.
Proof.
  unfold numberPage, draw. simpl.
  destruct (widthOfTextAtSize (textFor s total pageIdx) (fontSize s)) as [w|];
    simpl.
  - destruct (rgbOfHex (color s)) as [c|]; simpl.
    + destruct (accepts _) eqn:Hacc; split.
      * intros Hp. inversion Hp; subst. exists w, c. auto.
      * intros (w' & c' & Hw & Hc & _ & ->). inversion Hw; inversion Hc; subst.
        reflexivity.
      * intros Hp. discriminate Hp.
      * intros (w' & c' & Hw & Hc & Ha & _). inversion Hw; inversion Hc; subst.
        rewrite Hacc in Ha. discriminate Ha.
    + split; [intros Hp; discriminate Hp|].
      intros (w' & c' & _ & Hc & _). discriminate Hc.
  - split; [intros Hp; discriminate Hp|].
    intros (w' & c' & Hw & _). discriminate Hw.
Qed.

End PageNumberApply.

(** ** Numbering sequence *)

Section NumberingFacts.
Context `{PdfLib}.
Import PageNumbers.

Lemma roundToDouble_safe (z : Z) : Z.abs z <= 2 ^ 53 -> roundToDouble z = z.
Proof.
  intros Hz. unfold roundToDouble.
  destruct (Z.leb_spec (Z.abs z) (2 ^ 53)); [reflexivity | lia].
Qed.

Lemma numberToString_safe (z : Z) : Z.abs z <= 2 ^ 53 -> numberToString z = pretty z.
Proof.
  intros Hz. unfold numberToString.
  destruct (Z.leb_spec (Z.abs z) (2 ^ 53)); [reflexivity | lia].
Qed.

(** The label of a page in decimal digits, as the design document
    writes it. *)
Lemma textFor_safe (s : PageNumberSettings) (total pageIdx : Z) :
  Z.abs (startFrom s) + total <= 2 ^ 53 ->
  pageIdx ∈ pagesToProcess s false total ->
  let N := startFrom s + (pageIdx - Z.max 0 (fromPage s - 1)) in
  Z.abs N <= 2 ^ 53 /\
  textFor s total pageIdx
  = match format s with
    | n => pretty N
    | n_of_total => pretty N +:+ " of " +:+ pretty total
    | Page_n => "Page " +:+ pretty N
    | Page_n_of_total => "Page " +:+ pretty N +:+ " of " +:+ pretty total
    end.
Proof.
  intros Hsafe Hidx N.
  assert (0 <= pageIdx - startIdx s < total) as Hoff.
  { rewrite pageNumbers_pagesToProcess_seqZ in Hidx. apply elem_of_seqZ in Hidx.
    assert (endIdx s total <= total)
      by (unfold endIdx; destruct (toPage s) as [e|]; [destruct (e =? 0)|]; lia).
    assert (0 <= startIdx s) by (unfold startIdx; lia).
    lia. }
  assert (Z.abs N <= 2 ^ 53) as HN by (subst N; unfold startIdx in Hoff; lia).
  assert (Z.abs total <= 2 ^ 53) as HT by lia.
  split; [exact HN|].
  unfold textFor, numberText.
  change (startFrom s + (pageIdx - startIdx s)) with N.
  rewrite (roundToDouble_safe N HN).
  rewrite (numberToString_safe N HN), (numberToString_safe total HT).
  reflexivity.
Qed.

(** C4 (amended).  For an integer start value with
    [|startValue| + T <= 2^53], where [T] is the number of pages of the
    whole document, every page of the resolved range of a page-number
    operation is given the text of the chosen format, made of the
    decimal digits of [N = startValue + (pageIndex - rangeStart)] and, in
    the formats with "of T", of [T]: "N", "N of T", "Page N" or
    "Page N of T". *)
Theorem page_number_sequence (s : PageNumberSettings) (f : File) (pages : list Page) :
  data f = PdfData pages ->
  let total := Z.of_nat (length pages) in
  let label := fun pageIdx : Z =>
    let N := startFrom s + (pageIdx - Z.max 0 (fromPage s - 1)) in
    match format s with
    | n => pretty N
    | n_of_total => pretty N +:+ " of " +:+ pretty total
    | Page_n => "Page " +:+ pretty N
    | Page_n_of_total => "Page " +:+ pretty N +:+ " of " +:+ pretty total
    end in
  Z.abs (startFrom s) + total <= 2 ^ 53 ->
  (forall pageIdx, pageIdx ∈ pagesToProcess s false total ->
     exists textWidth,
       widthOfTextAtSize (label pageIdx) (fontSize s) = Ok textWidth) ->
  (exists rgb, rgbOfHex (color s) = Ok rgb) ->
  (forall text x y rgb, accepts (DrawText text x y (fontSize s) rgb None 0) = true) ->
  exists pages',
    applyPageNumbers s f false = Some (PdfData pages') /\
    forall pageIdx,
      pageIdx ∈ pagesToProcess s false total ->
      exists p p' x y rgb,
        page_at pages pageIdx = Some p /\
        page_at pages' pageIdx = Some p' /\
        operators p' = operators p ++ [DrawText (label pageIdx) x y (fontSize s) rgb None 0].
Proof.
  intros Hdata total label Hsafe Hwidth (c & Hc) Hacc.
  assert (forall pageIdx, pageIdx ∈ pagesToProcess s false total ->
                          textFor s total pageIdx = label pageIdx) as Hlabel.
  { intros pageIdx Hidx. exact (proj2 (textFor_safe s total pageIdx Hsafe Hidx)). }
  destruct (applyPageNumbers_succeeds s f pages Hdata) as (pages' & Hrun).
  { intros j p Hj Hp. destruct (Hwidth j Hj) as (w & Hw).
    pose proof (Hlabel j Hj) as Hl. unfold total in Hl.
    eexists. apply numberPage_Ok. exists w, c. rewrite Hl.
    split; [exact Hw|]. split; [exact Hc|]. split; [apply Hacc | reflexivity]. }
  exists pages'. split; [exact Hrun|].
  apply applyPageNumbers_Some_inv in Hrun
    as (pages0 & pages1 & Hdata0 & Hbytes & _ & Hin & _).
  rewrite Hdata in Hdata0. inversion Hdata0; subst pages0.
  intros pageIdx Hidx.
  destruct (Hin pageIdx Hidx) as (p & p' & Hp & Hnum & Hp').
  apply (save_page_at pages1 pages' pageIdx p' (eq_sym Hbytes)) in Hp'.
  apply numberPage_Ok in Hnum as (w & rgb & _ & _ & _ & ->).
  pose proof (Hlabel pageIdx Hidx) as Hl. unfold total in Hl. rewrite Hl in Hp'.
  eexists p, _, _, _, rgb. split; [exact Hp|]. split; [exact Hp'|].
  apply operators_pushOperator.
Qed.

End NumberingFacts.

(** C4 (as stated, refuted).  The numbers are doubles: with the start
    value 2^53 - 1 the third page of the range is given 2^53 + 1 by the
    claim, which is [9007199254740993], while the sum the tool computes
    is rounded to 2^53 and the page is numbered [9007199254740992], like
    the page before it. *)
Lemma page_number_beyond_two_to_the_53 :
  let s := PageNumbers.withStartFrom (2 ^ 53 - 1) PageNumbers.defaultSettings in
  let f := mkFile "book.pdf" "application/pdf" (PdfData (replicate 3 (blankPage 612 792))) in
  PageNumbers.startFrom s + (2 - Z.max 0 (PageNumbers.fromPage s - 1))
  = 9007199254740993 /\
  match @PageNumbers.applyPageNumbers testLib s f false with
  | Some (PdfData [_; p2; p3]) =>
      match operators p2, operators p3 with
      | [DrawText t2 _ _ _ _ _ _], [DrawText t3 _ _ _ _ _ _] =>
          t2 = "9007199254740992"%string /\ t3 = "9007199254740992"%string
      | _, _ => False
      end
  | _ => False
  end.
Proof. split; [reflexivity|]. vm_compute. split; reflexivity. Qed.

(** The sequence the design document gives: range [{from: 2, to: 5}] and
    start value 1 on a 20-page document. *)
Example numbering_examples :
  let s := PageNumbers.withRange 2 (Some 5) PageNumbers.defaultSettings in
  PageNumbers.pagesToProcess s false 20 = [1; 2; 3; 4] /\
  PageNumbers.textFor s 20 <$> PageNumbers.pagesToProcess s false 20
  = ["1"; "2"; "3"; "4"] /\
  PageNumbers.textFor (PageNumbers.withFormat PageNumbers.Page_n_of_total s) 20
    <$> PageNumbers.pagesToProcess s false 20
  = ["Page 1 of 20"; "Page 2 of 20"; "Page 3 of 20"; "Page 4 of 20"].
Proof. repeat split; vm_compute; reflexivity. Qed.

(** The rounding and the printing of numbers on values whose result in
    JavaScript is known: [2**53 + 1 === 2**53], [String(2**60)],
    [String(2**64)], [String(2**70)] and [String(1e21)]. *)
Example numbers_beyond_the_safe_integers :
  roundToDouble (2 ^ 53 + 1) = 2 ^ 53 /\
  roundToDouble (2 ^ 53 + 3) = 2 ^ 53 + 4 /\
  numberToString (2 ^ 53) = "9007199254740992"%string /\
  numberToString (2 ^ 60) = "1152921504606847000"%string /\
  numberToString (2 ^ 64) = "18446744073709552000"%string /\
  numberToString (2 ^ 70) = "1.1805916207174113e+21"%string /\
  numberToString (10 ^ 21) = "1e+21"%string.
Proof. repeat split; vm_compute; reflexivity. Qed.

Lemma page_number_sequence_witness :
  let s := PageNumbers.withFormat PageNumbers.Page_n_of_total
             (PageNumbers.withRange 2 (Some 5) PageNumbers.defaultSettings) in
  let f := mkFile "book.pdf" "application/pdf"
             (PdfData (replicate 20 (blankPage 612 792))) in
  exists pages' p' x y rgb,
    @PageNumbers.applyPageNumbers testLib s f false = Some (PdfData pages') /\
    page_at pages' 1 = Some p' /\
    operators p' = [DrawText "Page 1 of 20" x y 12 rgb None 0].
Proof.
  intros s f.
  destruct (@page_number_sequence testLib s f (replicate 20 (blankPage 612 792)) eq_refl)
    as (pages' & Hrun & Htext).
  - vm_compute. discriminate.
  - intros pageIdx Hidx.
    assert (pageIdx ∈ [1; 2; 3; 4]) as Hcases by exact Hidx.
    repeat (apply elem_of_cons in Hcases as [->|Hcases]; [eexists; reflexivity|]).
    inversion Hcases.
  - eexists. reflexivity.
  - reflexivity.
  - destruct (Htext 1) as (p & p' & x & y & rgb & Hp & Hp' & Hops).
    { change (1 ∈ [1; 2; 3; 4]). left. }
    exists pages', p', x, y, rgb. split; [exact Hrun|]. split; [exact Hp'|].
    vm_compute in Hp. inversion Hp; subst p. exact Hops.
Defined.

(** ** Failure of an apply *)

Section FailureFacts.
Context `{PdfLib}.

Lemma applyPageNumbers_preview_aborts (s : PageNumbers.PageNumberSettings)
    (f : File) (pages : list Page) :
  data f = PdfData pages ->
  (forall p, page_at pages (PageNumbers.startIdx s) = Some p ->
             PageNumbers.numberPage s (Z.of_nat (length pages))
               (PageNumbers.startIdx s) p = Thrown) ->
  PageNumbers.applyPageNumbers s f true = None.
Proof.
  intros Hdata Hbad. unfold PageNumbers.applyPageNumbers. rewrite Hdata.
  cbn [load PageNumbers.pagesToProcess for_of]. simpl.
  unfold PageNumbers.numberAt.
  destruct (Z.leb_spec (Z.of_nat (length pages)) (PageNumbers.startIdx s)) as [Hge|Hlt].
  - simpl. unfold PageNumbers.previewDocument.
    assert (page_at pages (PageNumbers.startIdx s) = None) as ->; [|reflexivity].
    unfold page_at. destruct (PageNumbers.startIdx s <? 0); [reflexivity|].
    apply lookup_ge_None. lia.
  - unfold mutate_page.
    destruct (page_at pages (PageNumbers.startIdx s)) as [p|] eqn:Hp; [|reflexivity].
    rewrite (Hbad p eq_refl). reflexivity.
Qed.

(** C8.  Whatever the file and the settings, an apply whose document
    fails to load, or one of whose page mutations throws, returns
    [null]; a document that is returned has had every page of the loop
    processed; the tool offers a download only for such a document and
    never changes the selected file. *)
Theorem apply_is_all_or_nothing
    (ws : WatermarkPdf.WatermarkSettings) (ns : PageNumbers.PageNumberSettings)
    (f : File) (isPreview : bool) (b : Browser) :
  (load (data f) = Thrown ->
   WatermarkPdf.applyWatermark ws f isPreview = None /\
   PageNumbers.applyPageNumbers ns f isPreview = None) /\
  (forall (pages : list Page) (j : Z),
      data f = PdfData pages ->
      j ∈ WatermarkPdf.pagesToProcess ws isPreview pages ->
      (forall p, page_at pages j = Some p ->
                 WatermarkPdf.processPage ws isPreview
                   (WatermarkPdf.embeddedImage ws isPreview) p = Thrown) ->
      WatermarkPdf.applyWatermark ws f isPreview = None) /\
  (forall (pages : list Page) (j : Z),
      data f = PdfData pages ->
      j ∈ PageNumbers.pagesToProcess ns isPreview (Z.of_nat (length pages)) ->
      (forall p, page_at pages j = Some p ->
                 PageNumbers.numberPage ns (Z.of_nat (length pages)) j p = Thrown) ->
      PageNumbers.applyPageNumbers ns f isPreview = None) /\
  (forall bytes,
      WatermarkPdf.applyWatermark ws f isPreview = Some bytes ->
      exists pages pages',
        data f = PdfData pages /\ bytes = PdfData pages' /\
        forall j, j ∈ WatermarkPdf.pagesToProcess ws isPreview pages ->
          exists p p',
            page_at pages j = Some p /\
            WatermarkPdf.processPage ws isPreview
              (WatermarkPdf.embeddedImage ws isPreview) p = Ok p' /\
            page_at pages' j = Some p') /\
  (forall bytes,
      PageNumbers.applyPageNumbers ns f false = Some bytes ->
      exists pages pages',
        data f = PdfData pages /\ bytes = PdfData pages' /\
        forall j, j ∈ PageNumbers.pagesToProcess ns false (Z.of_nat (length pages)) ->
          exists p p',
            page_at pages j = Some p /\
            PageNumbers.numberPage ns (Z.of_nat (length pages)) j p = Ok p' /\
            page_at pages' j = Some p') /\
  (file (WatermarkPdf.handleDownload ws b) = file b /\
   file (PageNumbers.handleDownload ns b) = file b) /\
  (file b = Some f ->
   (WatermarkPdf.applyWatermark ws f false = None ->
    downloads (WatermarkPdf.handleDownload ws b) = downloads b) /\
   (PageNumbers.applyPageNumbers ns f false = None ->
    downloads (PageNumbers.handleDownload ns b) = downloads b) /\
   (forall bytes, WatermarkPdf.applyWatermark ws f false = Some bytes ->
      downloads (WatermarkPdf.handleDownload ws b)
      = downloads b ++ [mkFile ("watermarked_" +:+ name f) "application/pdf" bytes]) /\
   (forall bytes, PageNumbers.applyPageNumbers ns f false = Some bytes ->
      downloads (PageNumbers.handleDownload ns b)
      = downloads b ++ [mkFile ("numbered_" +:+ name f) "application/pdf" bytes])).
Proof.
  split; [|split; [|split; [|split; [|split; [|split]]]]].
  - intros Hload. split.
    + apply applyWatermark_not_pdf, Hload.
    + apply applyPageNumbers_not_pdf, Hload.
  - intros pages j Hdata Hj Hbad.
    exact (applyWatermark_aborts ws f isPreview pages j Hdata Hj Hbad).
  - intros pages j Hdata Hj Hbad. destruct isPreview.
    + apply list_elem_of_singleton in Hj. subst j.
      exact (applyPageNumbers_preview_aborts ns f pages Hdata Hbad).
    + exact (applyPageNumbers_aborts ns f pages j Hdata Hj Hbad).
  - intros bytes Hrun.
    apply applyWatermark_Some_inv in Hrun
      as (pages & pages' & Hdata & Hbytes & _ & Hin & _).
    destruct (save_PdfData pages') as (saved & Hsaved & _).
    exists pages, saved. split; [exact Hdata|]. split; [congruence|].
    intros j Hj. destruct (Hin j Hj) as (p & p' & Hp & Hproc & Hp').
    exists p, p'. split; [exact Hp|]. split; [exact Hproc|].
    exact (save_page_at pages' saved j p' Hsaved Hp').
  - intros bytes Hrun.
    apply applyPageNumbers_Some_inv in Hrun
      as (pages & pages' & Hdata & Hbytes & _ & Hin & _).
    destruct (save_PdfData pages') as (saved & Hsaved & _).
    exists pages, saved. split; [exact Hdata|]. split; [congruence|].
    intros j Hj. destruct (Hin j Hj) as (p & p' & Hp & Hnum & Hp').
    exists p, p'. split; [exact Hp|]. split; [exact Hnum|].
    exact (save_page_at pages' saved j p' Hsaved Hp').
  - unfold WatermarkPdf.handleDownload, PageNumbers.handleDownload.
    destruct b as [[g|] saved shown]; simpl; [|split; reflexivity].
    destruct (WatermarkPdf.applyWatermark ws g false);
      destruct (PageNumbers.applyPageNumbers ns g false); split; reflexivity.
  - intros Hfile.
    unfold WatermarkPdf.handleDownload, PageNumbers.handleDownload.
    rewrite Hfile. repeat split.
    + intros ->. reflexivity.
    + intros ->. reflexivity.
    + intros bytes ->. reflexivity.
    + intros bytes ->. reflexivity.
Qed.

End FailureFacts.

Lemma apply_is_all_or_nothing_witness :
  let pages := [scannedPage 612 792 0; scannedPage 612 792 0] in
  let f := mkFile "scan.pdf" "application/pdf" (PdfData pages) in
  let ws := WatermarkPdf.mkWatermarkSettings WatermarkPdf.text_type "DRAFT" 48
              "#FF0000" 2 0 WatermarkPdf.cc None (1 # 2) false (Some 1) None
              WatermarkPdf.over in
  @WatermarkPdf.applyWatermark testLib ws f false = None /\
  @WatermarkPdf.applyWatermark testLib ws
    (mkFile "photo.png" "image/png" (PngData 10 10)) false = None.
Proof.
  intros pages f ws. split.
  - destruct (@apply_is_all_or_nothing testLib ws PageNumbers.defaultSettings f false
                (mkBrowser (Some f) [] [])) as (_ & Hpage & _).
    apply (Hpage pages 1 eq_refl).
    + change (1 ∈ [0; 1]). right. left.
    + intros p Hp. vm_compute in Hp. inversion Hp; subst p. reflexivity.
  - destruct (@apply_is_all_or_nothing testLib ws PageNumbers.defaultSettings
                (mkFile "photo.png" "image/png" (PngData 10 10)) false
                (mkBrowser None [] [])) as (Hload & _).
    apply Hload. reflexivity.
Defined.

(** An image that cannot be embedded is neither a load failure nor a
    page mutation: both attempts are caught before the loop, no mark is
    drawn, and the document is saved as it was loaded. *)
Example image_that_cannot_be_embedded :
  let pages := [scannedPage 612 792 0] in
  let f := mkFile "scan.pdf" "application/pdf" (PdfData pages) in
  let logo := mkFile "logo.png" "image/png" OtherData in
  let ws := WatermarkPdf.mkWatermarkSettings WatermarkPdf.image_type "" 48
              "#FF0000" (1 # 2) 0 WatermarkPdf.cc (Some logo) (1 # 2) false
              (Some 1) None WatermarkPdf.over in
  WatermarkPdf.embeddedImage ws false = None /\
  @WatermarkPdf.applyWatermark testLib ws f false = Some (PdfData pages).
Proof. split; reflexivity. Qed.

Lemma end_zero_means_to_the_last_page_witness :
  WatermarkPdf.pagesToProcess
    (WatermarkPdf.withRange (Some 3) (Some 0) WatermarkPdf.defaultSettings) false
    (replicate 5 (blankPage 612 792))
  = [2; 3; 4] /\
  4 ∈ spec_resolve 3 None 5.
Proof.
  destruct (@end_zero_means_to_the_last_page testLib 3
              (mkFile "a.pdf" "application/pdf" (PdfData (replicate 5 (blankPage 612 792))))
              (replicate 5 (blankPage 612 792)) CropPdf.defaultCropBox false
              WatermarkPdf.defaultSettings PageNumbers.defaultSettings
              CropPdf.defaultSettings)
    as ((Hw & _) & _ & Hlast).
  split; [exact Hw|]. apply Hlast. vm_compute. discriminate.
Defined.

(** ** The crop box under the pointer *)

Section CropEditorFacts.
Import CropEditor.
Local Open Scope Q_scope.



















End CropEditorFacts.



(** A reset in the middle of a touch drag is what the condition on the
    events excludes: the drag goes on with the width recorded when it
    began, and the 80 percent wide box of the reset ends at 130. *)
Example reset_during_touch_drag :
  let rect := CropEditor.mkDOMRect 0 0 600 800 in
  let narrow := CropEditor.mkEditor (mkRect 10 10 50 50) false None
                  (CropEditor.mkDragStart 0 0 0 0 0 0)
                  (CropEditor.mkPointerActive false None)
                  (CropEditor.mkDragStart 0 0 0 0 0 0) in
  match
    CropEditor.run
      [CropEditor.TouchStart (CropEditor.mkPointer 120 120) "drag" (Some rect);
       CropEditor.ResetCrop;
       CropEditor.TouchMove (CropEditor.mkPointer 600 120) (Some rect)]
      narrow
  with
  | Some st =>
      (rect_x (CropEditor.cropBox st) + rect_width (CropEditor.cropBox st) == 130)%Q
  | None => False
  end.
Proof. vm_compute. reflexivity. Qed.

(** A second touch start during a drag gives the handler of the crop box
    a new drag start, but not the listener on the window, which goes on
    from the first one: after a first touch at 50 percent and a second at
    60, a move to 60 leaves the box at x = 10 through the handler of the
    crop box and puts it at x = 20 through the listener. *)
Example window_listener_keeps_the_first_drag_start :
  let rect := CropEditor.mkDOMRect 0 0 600 800 in
  let twice :=
    [CropEditor.TouchStart (CropEditor.mkPointer 300 400) "drag" (Some rect);
     CropEditor.TouchStart (CropEditor.mkPointer 360 400) "drag" (Some rect)] in
  match
    CropEditor.run (twice ++ [CropEditor.TouchMove (CropEditor.mkPointer 360 400)
                                (Some rect)]) CropEditor.initial,
    CropEditor.run (twice ++ [CropEditor.WindowTouchMove (CropEditor.mkPointer 360 400)
                                (Some rect)]) CropEditor.initial
  with
  | Some fromBox, Some fromWindow =>
      (rect_x (CropEditor.cropBox fromBox) == 10)%Q /\
      (rect_x (CropEditor.cropBox fromWindow) == 20)%Q
  | _, _ => False
  end.
Proof. vm_compute. split; reflexivity. Qed.

(** ** Cropping twice, and what the toast counts *)

Section CropMore.
Import CropPdf.



End CropMore.



(** ** Organize tool *)

Section OrganizeFacts.

Lemma addPages_Forall2 (originalPdf : list Page) (items : list OrganizePdf.PageItem) :
  forall newPdf,
    OrganizePdf.addPages originalPdf items = Ok newPdf <->
    Forall2 (fun item page => OrganizePdf.copyAndRotate originalPdf item = Ok page)
      items newPdf.
Proof.
  induction items as [|item rest IH]; intros newPdf; simpl.
  - split.
    + intros Hr. inversion Hr. constructor.
    + intros Hf. inversion Hf. reflexivity.
  - split.
    + intros (page & Hpage & Hrun)%obind_Ok.
      apply obind_Ok in Hrun as (tail & Htail & Hret). inversion Hret; subst newPdf.
      constructor; [exact Hpage | apply IH, Htail].
    + intros Hf. inversion Hf as [|? page ? tail Hpage Htail]; subst.
      apply obind_Ok. exists page. split; [exact Hpage|].
      apply obind_Ok. exists tail. split; [apply IH, Htail | reflexivity].
Qed.

Lemma copyAndRotate_valid (originalPdf : list Page) (item : OrganizePdf.PageItem) :
  Forall (fun p => Z.rem (Rotate p) 90 = 0) originalPdf ->
  OrganizePdf.validItem originalPdf item ->
  exists page,
    page_at originalPdf (OrganizePdf.pageIndex item) = Some page /\
    OrganizePdf.copyAndRotate originalPdf item = Ok (OrganizePdf.turned item page).
Proof.
  intros Hquarter [Hidx Hrot].
  destruct (lookup_lt_is_Some_2 originalPdf (Z.to_nat (OrganizePdf.pageIndex item)))
    as [page Hpage]; [lia|].
  assert (page_at originalPdf (OrganizePdf.pageIndex item) = Some page) as Hat
    by (apply page_at_Some; split; [lia | exact Hpage]).
  exists page. split; [exact Hat|].
  unfold OrganizePdf.copyAndRotate, OrganizePdf.turned. rewrite Hat.
  destruct (OrganizePdf.rotation item =? 0); [reflexivity|].
  unfold setRotation.
  assert (Z.rem (Rotate page) 90 = 0) as Hpq.
  { rewrite Forall_forall in Hquarter. apply Hquarter.
    eapply list_elem_of_lookup_2, Hpage. }
  assert (Z.rem (Z.rem (Rotate page + OrganizePdf.rotation item) 360) 90 = 0) as ->.
  { revert Hpq Hrot. generalize (Rotate page) (OrganizePdf.rotation item).
    intros a b Ha Hb. Z.to_euclidean_division_equations. lia. }
  reflexivity.
Qed.

(** X5.  Applying the changes of the organize tool to a document whose
    pages are stored at quarter turns, with items that name pages of the
    document and carry quarter turns: when every page is deleted nothing
    is produced; otherwise the new document consists of the pages of the
    items that are not deleted, in the order of the items, each one the
    page its item names, turned by the item's rotation. *)
Theorem organize_apply (f : File) (pages : list Page)
    (items : list OrganizePdf.PageItem) :
  data f = PdfData pages ->
  Forall (fun p => Z.rem (Rotate p) 90 = 0) pages ->
  Forall (OrganizePdf.validItem pages) items ->
  let activePages := List.filter (fun p => negb (OrganizePdf.deleted p)) items in
  (activePages = [] -> OrganizePdf.handleApplyChanges f items = None) /\
  (activePages <> [] ->
   exists newPdf,
     OrganizePdf.handleApplyChanges f items = Some (PdfData newPdf) /\
     length newPdf = OrganizePdf.activePageCount items /\
     Forall2 (fun item page' =>
                exists page,
                  page_at pages (OrganizePdf.pageIndex item) = Some page /\
                  page' = OrganizePdf.turned item page)
       activePages newPdf).
Proof.
  intros Hdata Hquarter Hvalid activePages. split.
  - intros Hnone. unfold OrganizePdf.handleApplyChanges. fold activePages.
    rewrite Hnone. reflexivity.
  - intros Hsome.
    assert (Forall (OrganizePdf.validItem pages) activePages) as Hactive.
    { apply Forall_forall. intros item Hitem%list_elem_of_In.
      apply List.filter_In in Hitem as [Hitem _].
      rewrite Forall_forall in Hvalid. apply Hvalid, list_elem_of_In, Hitem. }
    assert (exists newPdf,
               Forall2 (fun item page' =>
                          exists page,
                            page_at pages (OrganizePdf.pageIndex item) = Some page /\
                            page' = OrganizePdf.turned item page /\
                            OrganizePdf.copyAndRotate pages item = Ok page')
                 activePages newPdf) as (newPdf & Hnew).
    { clear Hsome. induction Hactive as [|item rest Hitem _ IH].
      - exists []. constructor.
      - destruct IH as (tail & Htail).
        destruct (copyAndRotate_valid pages item Hquarter Hitem) as (page & Hat & Hcopy).
        exists (OrganizePdf.turned item page :: tail). constructor; [|exact Htail].
        exists page. auto. }
    exists newPdf. split; [|split].
    + unfold OrganizePdf.handleApplyChanges. fold activePages.
      destruct activePages as [|item rest] eqn:Hact; [contradiction|].
      rewrite Hdata. simpl load.
      assert (OrganizePdf.addPages pages (item :: rest) = Ok newPdf) as Hadd.
      { apply addPages_Forall2. eapply Forall2_impl; [exact Hnew|].
        intros it pg (page & _ & _ & Hcopy). exact Hcopy. }
      change (Ok pages ≫= _) with
        (OrganizePdf.addPages pages (item :: rest) ≫=
           fun newPdf0 => Ok (Some (save newPdf0))).
      rewrite Hadd. simpl. rewrite save_nonempty; [reflexivity|].
      intros ->. inversion Hnew.
    + apply Forall2_length in Hnew. symmetry. exact Hnew.
    + eapply Forall2_impl; [exact Hnew|].
      intros it pg (page & Hat & Hpg & _). exists page. auto.
Qed.

Lemma findIndexFrom_bounds (id' : string) (items : list OrganizePdf.PageItem) :
  forall i,
    OrganizePdf.findIndexFrom id' items i = -1 \/
    i <= OrganizePdf.findIndexFrom id' items i < i + Z.of_nat (length items).
Proof.
  induction items as [|item rest IH]; intros i; simpl; [left; reflexivity|].
  destruct (String.eqb (OrganizePdf.id item) id'); [right; lia|].
  destruct (IH (i + 1)) as [Hnone|Hin]; [left; exact Hnone | right; lia].
Qed.

Lemma arrayMove_spec {A : Type} (array : list A) (from to : Z) :
  array <> [] ->
  -1 <= from < Z.of_nat (length array) ->
  exists moved array',
    OrganizePdf.arrayMove array from to = Some array' /\
    array' ≡ₚ array /\
    (0 <= from -> array !! Z.to_nat from = Some moved) /\
    (0 <= from -> 0 <= to < Z.of_nat (length array) ->
     array' !! Z.to_nat to = Some moved).
Proof.
  intros Hne Hfrom. unfold OrganizePdf.arrayMove.
  assert (0 < length array)%nat as Hlen by (destruct array; [contradiction | simpl; lia]).
  set (len := Z.of_nat (length array)).
  set (i := Z.to_nat (OrganizePdf.spliceStart len from)).
  assert (i < length array)%nat as Hi.
  { subst i. unfold OrganizePdf.spliceStart.
    destruct (Z.ltb_spec from 0); subst len; lia. }
  destruct (lookup_lt_is_Some_2 array i Hi) as [moved Hmoved].
  rewrite Hmoved.
  set (rest := delete i array).
  set (j := Z.to_nat (OrganizePdf.spliceStart (Z.of_nat (length rest))
                        (if to <? 0 then len + to else to))).
  exists moved, (take j rest ++ moved :: drop j rest).
  split; [reflexivity|]. split; [|split].
  - rewrite <- Permutation_middle, take_drop. symmetry.
    apply delete_Permutation, Hmoved.
  - intros Hpos. subst i. unfold OrganizePdf.spliceStart in Hmoved.
    destruct (Z.ltb_spec from 0); [lia|].
    replace (Z.min from len) with from in Hmoved by (subst len; lia).
    exact Hmoved.
  - intros Hpos Hto.
    assert (length rest = length array - 1)%nat as Hrest.
    { subst rest. rewrite length_delete by (exists moved; exact Hmoved). reflexivity. }
    assert (j = Z.to_nat to) as Hj.
    { subst j. unfold OrganizePdf.spliceStart.
      destruct (Z.ltb_spec to 0); [lia|].
      destruct (Z.ltb_spec to 0); [lia|]. subst len. lia. }
    rewrite Hj. apply list_lookup_middle.
    rewrite length_take_le; [reflexivity|]. subst len. lia.
Qed.

Lemma handleDragEnd_spec (activeId : string) (over : option string)
    (items : list OrganizePdf.PageItem) :
  items <> [] ->
  exists items',
    OrganizePdf.handleDragEnd activeId over items = Some items' /\
    items' ≡ₚ items.
Proof.
  intros Hne. unfold OrganizePdf.handleDragEnd.
  destruct over as [overId|]; [|exists items; split; reflexivity].
  destruct (negb (String.eqb activeId overId)); [|exists items; split; reflexivity].
  destruct (arrayMove_spec items (OrganizePdf.findIndex activeId items)
              (OrganizePdf.findIndex overId items) Hne)
    as (moved & items' & Hmove & Hperm & _).
  - unfold OrganizePdf.findIndex.
    destruct (findIndexFrom_bounds activeId items 0); lia.
  - exists items'. split; assumption.
Qed.

Lemma handleRotate_pageIndex (id' : string) (d : OrganizePdf.direction)
    (items : list OrganizePdf.PageItem) :
  OrganizePdf.pageIndex <$> OrganizePdf.handleRotate id' d items
  = OrganizePdf.pageIndex <$> items.
Proof.
  unfold OrganizePdf.handleRotate. rewrite <- list_fmap_compose.
  apply list_fmap_ext. intros k item _. simpl.
  destruct (String.eqb (OrganizePdf.id item) id'); reflexivity.
Qed.

Lemma setDeleted_pageIndex (deleted' : bool) (id' : string)
    (items : list OrganizePdf.PageItem) :
  OrganizePdf.pageIndex <$> OrganizePdf.setDeleted deleted' id' items
  = OrganizePdf.pageIndex <$> items.
Proof.
  unfold OrganizePdf.setDeleted. rewrite <- list_fmap_compose.
  apply list_fmap_ext. intros k item _. simpl.
  destruct (String.eqb (OrganizePdf.id item) id'); reflexivity.
Qed.

Lemma handleRotate_quarter (id' : string) (d : OrganizePdf.direction)
    (items : list OrganizePdf.PageItem) :
  Forall (fun item => Z.rem (OrganizePdf.rotation item) 90 = 0) items ->
  Forall (fun item => Z.rem (OrganizePdf.rotation item) 90 = 0)
    (OrganizePdf.handleRotate id' d items).
Proof.
  intros Hq. unfold OrganizePdf.handleRotate. apply Forall_fmap.
  eapply Forall_impl; [exact Hq|]. intros item Hitem. simpl.
  destruct (String.eqb (OrganizePdf.id item) id'); [|exact Hitem]. simpl.
  cbv beta in Hitem. revert Hitem. generalize (OrganizePdf.rotation item). intros r Hr.
  destruct d; cbv beta iota; Z.to_euclidean_division_equations; lia.
Qed.

Lemma setDeleted_quarter (deleted' : bool) (id' : string)
    (items : list OrganizePdf.PageItem) :
  Forall (fun item => Z.rem (OrganizePdf.rotation item) 90 = 0) items ->
  Forall (fun item => Z.rem (OrganizePdf.rotation item) 90 = 0)
    (OrganizePdf.setDeleted deleted' id' items).
Proof.
  intros Hq. unfold OrganizePdf.setDeleted. apply Forall_fmap.
  eapply Forall_impl; [exact Hq|]. intros item Hitem. simpl.
  destruct (String.eqb (OrganizePdf.id item) id'); exact Hitem.
Qed.

(** What the actions of the organize tool keep: the items name each page
    of the document once, and carry quarter turns. *)
Lemma perform_keeps (a : OrganizePdf.action) (items : list OrganizePdf.PageItem)
    (indices : list Z) :
  items <> [] ->
  OrganizePdf.pageIndex <$> items ≡ₚ indices ->
  Forall (fun item => Z.rem (OrganizePdf.rotation item) 90 = 0) items ->
  exists items',
    OrganizePdf.perform a items = Some items' /\
    items' <> [] /\
    OrganizePdf.pageIndex <$> items' ≡ₚ indices /\
    Forall (fun item => Z.rem (OrganizePdf.rotation item) 90 = 0) items'.
Proof.
  intros Hne Hidx Hq.
  assert (forall l : list OrganizePdf.PageItem,
             OrganizePdf.pageIndex <$> l ≡ₚ indices -> l <> []) as Hnonempty.
  { intros l Hl ->. simpl in Hl. rewrite <- Hl in Hidx.
    apply Permutation_nil_r in Hidx. apply fmap_nil_inv in Hidx. contradiction. }
  destruct a as [id' d|id'|id'|activeId over]; simpl.
  - exists (OrganizePdf.handleRotate id' d items).
    assert (OrganizePdf.pageIndex <$> OrganizePdf.handleRotate id' d items ≡ₚ indices)
      as Hidx' by (rewrite handleRotate_pageIndex; exact Hidx).
    split; [reflexivity|]. split; [apply Hnonempty, Hidx'|].
    split; [exact Hidx' | apply handleRotate_quarter, Hq].
  - exists (OrganizePdf.handleDelete id' items). unfold OrganizePdf.handleDelete.
    assert (OrganizePdf.pageIndex <$> OrganizePdf.setDeleted true id' items ≡ₚ indices)
      as Hidx' by (rewrite setDeleted_pageIndex; exact Hidx).
    split; [reflexivity|]. split; [apply Hnonempty, Hidx'|].
    split; [exact Hidx' | apply setDeleted_quarter, Hq].
  - exists (OrganizePdf.handleRestore id' items). unfold OrganizePdf.handleRestore.
    assert (OrganizePdf.pageIndex <$> OrganizePdf.setDeleted false id' items ≡ₚ indices)
      as Hidx' by (rewrite setDeleted_pageIndex; exact Hidx).
    split; [reflexivity|]. split; [apply Hnonempty, Hidx'|].
    split; [exact Hidx' | apply setDeleted_quarter, Hq].
  - destruct (handleDragEnd_spec activeId over items Hne) as (items' & Hdrag & Hperm).
    exists items'.
    assert (OrganizePdf.pageIndex <$> items' ≡ₚ indices) as Hidx'
      by (rewrite Hperm; exact Hidx).
    split; [exact Hdrag|]. split; [apply Hnonempty, Hidx'|].
    split; [exact Hidx' | rewrite Hperm; exact Hq].
Qed.

Lemma performAll_keeps (acts : list OrganizePdf.action) :
  forall (items : list OrganizePdf.PageItem) (indices : list Z),
    items <> [] ->
    OrganizePdf.pageIndex <$> items ≡ₚ indices ->
    Forall (fun item => Z.rem (OrganizePdf.rotation item) 90 = 0) items ->
    exists items',
      OrganizePdf.performAll acts items = Some items' /\
      OrganizePdf.pageIndex <$> items' ≡ₚ indices /\
      Forall (fun item => Z.rem (OrganizePdf.rotation item) 90 = 0) items'.
Proof.
  induction acts as [|a rest IH]; intros items indices Hne Hidx Hq; simpl.
  - exists items. auto.
  - destruct (perform_keeps a items indices Hne Hidx Hq)
      as (items1 & Hstep & Hne1 & Hidx1 & Hq1).
    rewrite Hstep. apply IH; assumption.
Qed.

Lemma handleFileSelected_items (f : File) (pages : list Page) :
  data f = PdfData pages ->
  exists items0,
    OrganizePdf.handleFileSelected f = Some items0 /\
    OrganizePdf.pageIndex <$> items0 = seqZ 0 (Z.of_nat (length pages)) /\
    Forall (fun item => OrganizePdf.rotation item = 0
                        /\ OrganizePdf.deleted item = false) items0.
Proof.
  intros Hdata. unfold OrganizePdf.handleFileSelected. rewrite Hdata. simpl.
  eexists. split; [reflexivity|]. split.
  - rewrite <- list_fmap_compose. etrans; [|apply list_fmap_id].
    apply list_fmap_ext. intros k i _. reflexivity.
  - apply Forall_fmap, Forall_forall. intros i _. split; reflexivity.
Qed.

(** X6.  From a freshly opened document with at least one page, whatever
    the sequence of rotations, deletions, restorations and drags, the
    list of the organize tool still names every page of the document
    exactly once, so that no page is lost or doubled, every item names
    an existing page, and every rotation is a quarter turn. *)
Theorem organize_session_keeps_every_page (f : File) (pages : list Page)
    (acts : list OrganizePdf.action) :
  data f = PdfData pages -> pages <> [] ->
  exists items0 items,
    OrganizePdf.handleFileSelected f = Some items0 /\
    OrganizePdf.performAll acts items0 = Some items /\
    OrganizePdf.pageIndex <$> items ≡ₚ seqZ 0 (Z.of_nat (length pages)) /\
    length items = length pages /\
    Forall (OrganizePdf.validItem pages) items.
Proof.
  intros Hdata Hne.
  destruct (handleFileSelected_items f pages Hdata) as (items0 & Hsel & Hidx0 & Hfresh).
  assert (items0 <> []) as Hne0.
  { intros ->. simpl in Hidx0. symmetry in Hidx0.
    apply (f_equal length) in Hidx0. rewrite length_seqZ in Hidx0. simpl in Hidx0.
    destruct pages; [contradiction | simpl in Hidx0; lia]. }
  destruct (performAll_keeps acts items0 (seqZ 0 (Z.of_nat (length pages))) Hne0)
    as (items & Hrun & Hidx & Hq).
  { rewrite Hidx0. reflexivity. }
  { eapply Forall_impl; [exact Hfresh|]. intros item [-> _]. reflexivity. }
  exists items0, items. split; [exact Hsel|]. split; [exact Hrun|].
  split; [exact Hidx|]. split.
  - apply Permutation_length in Hidx.
    rewrite length_fmap, length_seqZ in Hidx. lia.
  - apply Forall_forall. intros item Hitem. split.
    + assert (OrganizePdf.pageIndex item ∈ OrganizePdf.pageIndex <$> items) as Hin
        by (apply list_elem_of_fmap_2, Hitem).
      rewrite Hidx in Hin. apply elem_of_seqZ in Hin. lia.
    + rewrite Forall_forall in Hq. apply Hq, Hitem.
Qed.

(** X7.  Applying the changes right after a document with at least one
    page is opened gives the document back: every page, in order, with
    nothing turned. *)
Theorem organize_untouched_round_trip (f : File) (pages : list Page) :
  data f = PdfData pages -> pages <> [] ->
  exists items0,
    OrganizePdf.handleFileSelected f = Some items0 /\
    OrganizePdf.handleApplyChanges f items0 = Some (PdfData pages).
Proof.
  intros Hdata Hne.
  unfold OrganizePdf.handleFileSelected. rewrite Hdata. simpl.
  eexists. split; [reflexivity|].
  set (mk := fun i : Z => OrganizePdf.mkPageItem ("page-" +:+ pretty i) i 0 false).
  set (items0 := mk <$> seqZ 0 (Z.of_nat (length pages))).
  assert (List.filter (fun p => negb (OrganizePdf.deleted p)) items0 = items0) as Hfilter.
  { subst items0. generalize (seqZ 0 (Z.of_nat (length pages))).
    intros l. induction l as [|i l IH]; [reflexivity|].
    simpl. f_equal. exact IH. }
  assert (OrganizePdf.addPages pages items0 = Ok pages) as Hadd.
  { apply addPages_Forall2. apply Forall2_same_length_lookup_2.
    - subst items0. rewrite length_fmap, length_seqZ. lia.
    - intros i item page Hitem Hpage. subst items0.
      rewrite list_lookup_fmap in Hitem.
      destruct (seqZ 0 (Z.of_nat (length pages)) !! i) as [k|] eqn:Hk;
        [|discriminate Hitem].
      apply lookup_seqZ in Hk as [-> _]. inversion Hitem; subst item.
      unfold OrganizePdf.copyAndRotate, mk. simpl.
      replace (page_at pages (0 + Z.of_nat i)) with (Some page); [reflexivity|].
      symmetry. apply page_at_Some. split; [lia|].
      replace (Z.to_nat (0 + Z.of_nat i)) with i by lia. exact Hpage. }
  unfold OrganizePdf.handleApplyChanges. rewrite Hfilter.
  destruct items0 as [|item rest] eqn:Hitems.
  - exfalso. apply (f_equal length) in Hitems.
    subst items0. rewrite length_fmap, length_seqZ in Hitems. simpl in Hitems.
    destruct pages; [contradiction | simpl in Hitems; lia].
  - rewrite Hdata. simpl load.
    change (Ok pages ≫= _) with
      (OrganizePdf.addPages pages (item :: rest) ≫=
         fun newPdf0 => Ok (Some (save newPdf0))).
    rewrite Hadd. simpl. rewrite (save_nonempty pages Hne). reflexivity.
Qed.

(** X8.  Dropping a page of the organize tool onto another page puts it
    at the place of that page and keeps all the pages of the list. *)
Theorem organize_drag_moves_page (activeId overId : string)
    (items : list OrganizePdf.PageItem) :
  activeId <> overId ->
  0 <= OrganizePdf.findIndex activeId items ->
  0 <= OrganizePdf.findIndex overId items ->
  exists moved items',
    OrganizePdf.handleDragEnd activeId (Some overId) items = Some items' /\
    items !! Z.to_nat (OrganizePdf.findIndex activeId items) = Some moved /\
    OrganizePdf.id moved = activeId /\
    items' !! Z.to_nat (OrganizePdf.findIndex overId items) = Some moved /\
    items' ≡ₚ items.
Proof.
  intros Hne Hactive Hover.
  assert (forall id' l i,
             0 <= OrganizePdf.findIndexFrom id' l i ->
             i <= OrganizePdf.findIndexFrom id' l i < i + Z.of_nat (length l))
    as Hbound.
  { intros id' l i Hpos. destruct (findIndexFrom_bounds id' l i); lia. }
  assert (items <> []) as Hitems.
  { intros ->. unfold OrganizePdf.findIndex in Hactive. simpl in Hactive. lia. }
  pose proof (Hbound activeId items 0 Hactive) as Ha.
  pose proof (Hbound overId items 0 Hover) as Ho.
  destruct (arrayMove_spec items (OrganizePdf.findIndex activeId items)
              (OrganizePdf.findIndex overId items) Hitems)
    as (moved & items' & Hmove & Hperm & Hfrom & Hto); [unfold OrganizePdf.findIndex; lia|].
  exists moved, items'. unfold OrganizePdf.handleDragEnd.
  destruct (String.eqb_spec activeId overId) as [Heq|_]; [contradiction|]. simpl.
  split; [exact Hmove|]. split; [apply Hfrom, Hactive|].
  split; [|split; [apply Hto; [exact Hactive | unfold OrganizePdf.findIndex; lia] | exact Hperm]].
  specialize (Hfrom Hactive). clear -Hfrom Hactive.
  unfold OrganizePdf.findIndex in *.
  assert (forall l i x,
             0 <= i ->
             i <= OrganizePdf.findIndexFrom activeId l i ->
             l !! Z.to_nat (OrganizePdf.findIndexFrom activeId l i - i) = Some x ->
             OrganizePdf.id x = activeId) as Hfind.
  { induction l as [|item rest IH]; intros i x Hi Hle Hx; simpl in *.
    - inversion Hx.
    - destruct (String.eqb_spec (OrganizePdf.id item) activeId) as [Hid|Hid].
      + replace (Z.to_nat (i - i)) with 0%nat in Hx by lia.
        inversion Hx as [Hx']. rewrite <- Hx'. exact Hid.
      + destruct (findIndexFrom_bounds activeId rest (i + 1)) as [Hnone|Hin]; [lia|].
        apply (IH (i + 1) x); [lia | lia |].
        replace (Z.to_nat (OrganizePdf.findIndexFrom activeId rest (i + 1) - i))
          with (S (Z.to_nat (OrganizePdf.findIndexFrom activeId rest (i + 1) - (i + 1))))
          in Hx by lia.
        exact Hx. }
  apply (Hfind items 0 moved); [lia | lia |].
  rewrite Z.sub_0_r. exact Hfrom.
Qed.

End OrganizeFacts.

Section OrganizeMore.

Lemma substring_prefix (s : list ascii) (k : Z) :
  0 <= k <= Z.of_nat (length s) ->
  OrganizePdf.substring s 0 k = take (Z.to_nat k) s.
Proof.
  intros Hk. unfold OrganizePdf.substring.
  replace (Z.min (Z.max 0 0) (Z.of_nat (length s))) with 0 by lia.
  replace (Z.min (Z.max k 0) (Z.of_nat (length s))) with k by lia.
  replace (Z.max 0 k - Z.min 0 k) with k by lia.
  replace (Z.to_nat (Z.min 0 k)) with 0%nat by lia.
  reflexivity.
Qed.

Lemma substring_suffix (s : list ascii) (k : Z) :
  0 <= k <= Z.of_nat (length s) ->
  OrganizePdf.substring s k (Z.of_nat (length s)) = drop (Z.to_nat k) s.
Proof.
  intros Hk. unfold OrganizePdf.substring.
  replace (Z.min (Z.max k 0) (Z.of_nat (length s))) with k by lia.
  replace (Z.min (Z.max (Z.of_nat (length s)) 0) (Z.of_nat (length s)))
    with (Z.of_nat (length s)) by lia.
  replace (Z.min k (Z.of_nat (length s))) with k by lia.
  apply take_ge. rewrite length_drop. lia.
Qed.

Lemma lastIndexOfFrom_bounds (c : ascii) (s : list ascii) :
  forall i found,
    found < i ->
    OrganizePdf.lastIndexOfFrom c s i found = found \/
    i <= OrganizePdf.lastIndexOfFrom c s i found < i + Z.of_nat (length s).
Proof.
  induction s as [|x rest IH]; intros i found Hlt; simpl; [left; reflexivity|].
  destruct (Ascii.eqb x c).
  - destruct (IH (i + 1) i) as [Heq|Hin]; [lia | right; lia | right; lia].
  - destruct (IH (i + 1) found) as [Heq|Hin]; [lia | left; exact Heq | right; lia].
Qed.

Lemma lastIndexOfFrom_absent (c : ascii) (s : list ascii) :
  c ∉ s -> forall i found, OrganizePdf.lastIndexOfFrom c s i found = found.
Proof.
  induction s as [|x rest IH]; intros Hc i found; simpl; [reflexivity|].
  apply not_elem_of_cons in Hc as [Hne Hrest].
  destruct (Ascii.eqb_spec x c) as [Heq|_]; [congruence|].
  apply IH, Hrest.
Qed.

(** X9.  The shortened file name of the organize tool: a name within the
    limit is shown as it is; a longer name with a dot, whose extension
    leaves room for the three dots, is shown in exactly [maxLength]
    characters that begin like the name and end with its extension; a
    longer name without a dot is not shortened at all but shown with
    three dots in front of it. *)
Theorem truncateFileName_cases (fileName : list ascii) (maxLength : Z) :
  let len := Z.of_nat (length fileName) in
  let dot := OrganizePdf.lastIndexOf "."%char fileName in
  (len <= maxLength -> OrganizePdf.truncateFileName fileName maxLength = fileName) /\
  (maxLength < len -> 0 <= dot -> len - dot + 3 <= maxLength ->
   let charsToShow := maxLength - (len - dot) - 3 in
   OrganizePdf.truncateFileName fileName maxLength
   = take (Z.to_nat ((charsToShow + 1) / 2)) fileName
     ++ list_ascii_of_string "..."
     ++ take (Z.to_nat (charsToShow / 2))
          (drop (Z.to_nat (dot - charsToShow / 2)) fileName)
     ++ drop (Z.to_nat dot) fileName /\
   Z.of_nat (length (OrganizePdf.truncateFileName fileName maxLength)) = maxLength) /\
  (maxLength < len -> "."%char ∉ fileName ->
   OrganizePdf.truncateFileName fileName maxLength
   = list_ascii_of_string "..." ++ fileName).
Proof.
  intros len dot. split; [|split].
  - intros Hshort. unfold OrganizePdf.truncateFileName. fold len.
    destruct (Z.leb_spec len maxLength); [reflexivity | lia].
  - intros Hlong Hdot Hroom charsToShow. subst len.
    assert (dot < Z.of_nat (length fileName)) as Hdotlt.
    { subst dot. unfold OrganizePdf.lastIndexOf in *.
      destruct (lastIndexOfFrom_bounds "."%char fileName 0 (-1)); lia. }
    assert (0 <= charsToShow / 2 /\ 0 <= (charsToShow + 1) / 2 /\
            (charsToShow + 1) / 2 + charsToShow / 2 = charsToShow) as (Hb & Hf & Hsum).
    { subst charsToShow. split; [|split]; Z.to_euclidean_division_equations; lia. }
    assert (charsToShow = maxLength - (Z.of_nat (length fileName) - dot) - 3) as Hc
      by reflexivity.
    clearbody charsToShow.
    assert (OrganizePdf.truncateFileName fileName maxLength
            = take (Z.to_nat ((charsToShow + 1) / 2)) fileName
              ++ list_ascii_of_string "..."
              ++ take (Z.to_nat (charsToShow / 2))
                   (drop (Z.to_nat (dot - charsToShow / 2)) fileName)
              ++ drop (Z.to_nat dot) fileName) as Hresult.
    { unfold OrganizePdf.truncateFileName. fold dot.
      destruct (Z.leb_spec (Z.of_nat (length fileName)) maxLength); [lia|].
      rewrite (substring_suffix fileName dot) by lia.
      rewrite (substring_prefix fileName dot) by lia.
      set (name := take (Z.to_nat dot) fileName).
      assert (Z.of_nat (length name) = dot) as Hn
        by (subst name; rewrite length_take_le; lia).
      replace (maxLength - Z.of_nat (length (drop (Z.to_nat dot) fileName)) - 3)
        with charsToShow by (rewrite length_drop; lia).
      rewrite (substring_suffix name) by lia.
      rewrite (substring_prefix name) by lia.
      rewrite Hn. subst name. f_equal.
      - rewrite take_take. f_equal. lia.
      - f_equal. f_equal. rewrite take_drop_commute.
        replace (Z.to_nat (dot - charsToShow / 2) + Z.to_nat (charsToShow / 2))%nat
          with (Z.to_nat dot) by lia.
        reflexivity. }
    split; [exact Hresult|]. rewrite Hresult.
    rewrite !length_app, !length_take, !length_drop. simpl. lia.
  - intros Hlong Hnodot.
    unfold OrganizePdf.truncateFileName. fold len.
    destruct (Z.leb_spec len maxLength); [lia|].
    unfold OrganizePdf.lastIndexOf.
    rewrite (lastIndexOfFrom_absent _ _ Hnodot).
    assert (OrganizePdf.substring fileName (-1) len = fileName) as ->.
    { unfold OrganizePdf.substring. fold len.
      replace (Z.min (Z.max (-1) 0) len) with 0 by lia.
      replace (Z.min (Z.max len 0) len) with len by lia.
      replace (Z.max 0 len - Z.min 0 len) with len by lia.
      replace (Z.to_nat (Z.min 0 len)) with 0%nat by lia.
      apply take_ge. subst len. simpl. lia. }
    assert (OrganizePdf.substring fileName 0 (-1) = []) as ->.
    { unfold OrganizePdf.substring. fold len.
      replace (Z.min (Z.max 0 0) len) with 0 by lia.
      replace (Z.min (Z.max (-1) 0) len) with 0 by lia.
      reflexivity. }
    assert (forall a b, OrganizePdf.substring [] a b = []) as Hnil.
    { intros a b. unfold OrganizePdf.substring. rewrite drop_nil. apply take_nil. }
    rewrite !Hnil. reflexivity.
Qed.

Lemma setDeleted_setDeleted (id' : string) (items : list OrganizePdf.PageItem) :
  Forall (fun item => OrganizePdf.id item = id' -> OrganizePdf.deleted item = false)
    items ->
  OrganizePdf.setDeleted false id' (OrganizePdf.setDeleted true id' items) = items.
Proof.
  intros Hactive. unfold OrganizePdf.setDeleted. rewrite <- list_fmap_compose.
  etrans; [|apply list_fmap_id].
  apply list_fmap_ext. intros k item Hitem. simpl.
  destruct (String.eqb_spec (OrganizePdf.id item) id') as [Hid|Hid]; simpl.
  - destruct (String.eqb_spec (OrganizePdf.id item) id') as [_|Hne]; [|contradiction].
    rewrite Forall_forall in Hactive.
    assert (OrganizePdf.deleted item = false) as Hdel
      by (apply Hactive; [eapply list_elem_of_lookup_2, Hitem | exact Hid]).
    destruct item as [i p r d]. simpl in *. subst d. reflexivity.
  - destruct (String.eqb_spec (OrganizePdf.id item) id') as [Heq|_]; [contradiction|].
    reflexivity.
Qed.

(** X10.  In the organize tool, restoring a page right after deleting it
    gives the list back as it was, provided the page was not deleted
    before; a deleted page is counted as deleted and no longer as
    active, and the two counts always add up to the number of pages. *)
Theorem organize_restore_undoes_delete (id' : string)
    (items : list OrganizePdf.PageItem) :
  Forall (fun item => OrganizePdf.id item = id' -> OrganizePdf.deleted item = false)
    items ->
  OrganizePdf.handleRestore id' (OrganizePdf.handleDelete id' items) = items /\
  (OrganizePdf.activePageCount (OrganizePdf.handleDelete id' items)
   + OrganizePdf.deletedPageCount (OrganizePdf.handleDelete id' items)
   = length items)%nat /\
  Forall (fun item => OrganizePdf.id item = id' -> OrganizePdf.deleted item = true)
    (OrganizePdf.handleDelete id' items).
Proof.
  intros Hactive. split; [|split].
  - apply setDeleted_setDeleted, Hactive.
  - assert (forall l : list OrganizePdf.PageItem,
               (OrganizePdf.activePageCount l + OrganizePdf.deletedPageCount l
                = length l)%nat) as Hcount.
    { unfold OrganizePdf.activePageCount, OrganizePdf.deletedPageCount.
      induction l as [|x l IH]; [reflexivity|].
      simpl. destruct (OrganizePdf.deleted x); simpl; lia. }
    rewrite Hcount. unfold OrganizePdf.handleDelete, OrganizePdf.setDeleted.
    apply length_fmap.
  - unfold OrganizePdf.handleDelete, OrganizePdf.setDeleted.
    apply Forall_fmap, Forall_forall. intros item _. simpl.
    destruct (String.eqb_spec (OrganizePdf.id item) id') as [_|Hne]; simpl.
    + intros _. reflexivity.
    + intros Hid. contradiction.
Qed.

End OrganizeMore.

Lemma organize_apply_witness :
  let pages := [scannedPage 612 792 0; scannedPage 612 792 90] in
  let f := mkFile "scan.pdf" "application/pdf" (PdfData pages) in
  let items := [OrganizePdf.mkPageItem "page-1" 1 (-90) false;
                OrganizePdf.mkPageItem "page-0" 0 0 true] in
  exists newPdf,
    OrganizePdf.handleApplyChanges f items = Some (PdfData newPdf) /\
    length newPdf = 1%nat.
Proof.
  intros pages f items.
  destruct (organize_apply f pages items eq_refl) as [_ Hsome].
  - repeat constructor.
  - repeat constructor; simpl; lia.
  - destruct Hsome as (newPdf & Hrun & Hlen & _); [discriminate|].
    exists newPdf. split; [exact Hrun | exact Hlen].
Defined.

Lemma organize_session_keeps_every_page_witness :
  let pages := [scannedPage 612 792 0; scannedPage 612 792 90; blankPage 612 792] in
  let f := mkFile "scan.pdf" "application/pdf" (PdfData pages) in
  exists items,
    OrganizePdf.performAll
      [OrganizePdf.DragEnd "page-2" (Some "page-0"); OrganizePdf.Rotate' "page-1" OrganizePdf.ccw;
       OrganizePdf.Delete "page-0"]
      (default [] (OrganizePdf.handleFileSelected f)) = Some items /\
    length items = 3%nat.
Proof.
  intros pages f.
  destruct (organize_session_keeps_every_page f pages
              [OrganizePdf.DragEnd "page-2" (Some "page-0");
               OrganizePdf.Rotate' "page-1" OrganizePdf.ccw;
               OrganizePdf.Delete "page-0"] eq_refl)
    as (items0 & items & Hsel & Hrun & _ & Hlen & _); [discriminate|].
  exists items. rewrite Hsel. split; [exact Hrun | exact Hlen].
Defined.

Lemma organize_untouched_round_trip_witness :
  let pages := [scannedPage 612 792 0; scannedPage 612 792 90] in
  let f := mkFile "scan.pdf" "application/pdf" (PdfData pages) in
  OrganizePdf.handleApplyChanges f (default [] (OrganizePdf.handleFileSelected f))
  = Some (PdfData pages).
Proof.
  intros pages f.
  destruct (organize_untouched_round_trip f pages eq_refl) as (items0 & Hsel & Hrun);
    [discriminate|].
  rewrite Hsel. exact Hrun.
Defined.

Lemma organize_drag_moves_page_witness :
  let items := [OrganizePdf.mkPageItem "page-0" 0 0 false;
                OrganizePdf.mkPageItem "page-1" 1 0 false;
                OrganizePdf.mkPageItem "page-2" 2 0 false] in
  exists items',
    OrganizePdf.handleDragEnd "page-0" (Some "page-2") items = Some items' /\
    OrganizePdf.id <$> items' !! 2%nat = Some "page-0".
Proof.
  intros items.
  destruct (organize_drag_moves_page "page-0" "page-2" items)
    as (moved & items' & Hdrag & Hmoved & _ & Hplace & _).
  - discriminate.
  - vm_compute. discriminate.
  - vm_compute. discriminate.
  - exists items'. split; [exact Hdrag|].
    change (Z.to_nat (OrganizePdf.findIndex "page-2" items)) with 2%nat in Hplace.
    rewrite Hplace. vm_compute in Hmoved. inversion Hmoved. reflexivity.
Defined.

Lemma truncateFileName_cases_witness :
  Z.of_nat (length (OrganizePdf.truncateFileName
                      (list_ascii_of_string "quarterly-financial-report-2024-final.pdf")
                      30)) = 30 /\
  OrganizePdf.truncateFileName
    (list_ascii_of_string "a-long-name-that-has-no-extension-at-all") 30
  = list_ascii_of_string "...a-long-name-that-has-no-extension-at-all".
Proof.
  split.
  - destruct (truncateFileName_cases
                (list_ascii_of_string "quarterly-financial-report-2024-final.pdf") 30)
      as (_ & Hdot & _).
    destruct Hdot as [_ Hlen]; [reflexivity | vm_compute; discriminate
                               | vm_compute; discriminate |].
    exact Hlen.
  - destruct (truncateFileName_cases
                (list_ascii_of_string "a-long-name-that-has-no-extension-at-all") 30)
      as (_ & _ & Hnodot).
    apply Hnodot; [reflexivity|].
    intros Hin. repeat (apply elem_of_cons in Hin as [Hin|Hin]; [discriminate Hin|]).
    inversion Hin.
Defined.

Lemma organize_restore_undoes_delete_witness :
  let items := [OrganizePdf.mkPageItem "page-0" 0 0 false;
                OrganizePdf.mkPageItem "page-1" 1 90 false] in
  OrganizePdf.handleRestore "page-1" (OrganizePdf.handleDelete "page-1" items) = items.
Proof.
  intros items.
  destruct (organize_restore_undoes_delete "page-1" items) as (Hround & _).
  - repeat constructor.
  - exact Hround.
Defined.

(** ** What a watermark leaves alone *)

Section WatermarkMore.
Context `{PdfLib}.
Import WatermarkPdf.

Lemma extends_refl (p : Page) : extends p p.
Proof.
  repeat split; auto.
  - exists []. rewrite app_nil_r. split; [reflexivity | constructor].
  - exists []. rewrite app_nil_r. reflexivity.
Qed.

Lemma extends_trans (p q r : Page) : extends p q -> extends q r -> extends p r.
Proof.
  intros (Hr1 & Hm1 & Hc1 & (add1 & He1 & Ha1) & more1 & Ho1)
         (Hr2 & Hm2 & Hc2 & (add2 & He2 & Ha2) & more2 & Ho2).
  repeat split; try congruence.
  - exists (add1 ++ add2). split; [|apply Forall_app; auto].
    rewrite He2, He1, app_assoc. reflexivity.
  - exists (more1 ++ more2). rewrite Ho2, Ho1, app_assoc. reflexivity.
Qed.

#[local] Instance extends_preorder : PreOrder extends.
Proof. split; [exact extends_refl | exact extends_trans]. Qed.

#[local] Instance keepsOrder_preorder : PreOrder keepsOrder.
Proof.
  split.
  - intros p. unfold keepsOrder. reflexivity.
  - intros p q r Hpq Hqr. unfold keepsOrder in *. etrans; eassumption.
Qed.

Lemma entries_addContentStream (r : streamRef) (c : contents) :
  entries (addContentStream r c)
  = match c with
    | NoContents => [r]
    | _ => PushGraphicsState :: entries c ++ [PopGraphicsState; r]
    end.
Proof.
  destruct c as [|x|l]; simpl; [reflexivity | reflexivity |].
  rewrite <- app_assoc. reflexivity.
Qed.

Lemma Forall_added_library :
  Forall added [Own] /\ Forall added [PushGraphicsState; PopGraphicsState; Own].
Proof.
  split;
    repeat match goal with
           | |- Forall _ (_ :: _) => constructor
           | |- Forall _ [] => constructor
           end; unfold added; auto.
Qed.

Lemma draw_extends (op : operator) (p p' : Page) :
  draw op p = Ok p' -> extends p p'.
Proof.
  unfold draw. destruct (accepts op); [|intros Hd; discriminate Hd].
  intros Hd. inversion Hd; subst p'.
  split; [|split; [|split; [|split]]].
  - unfold pushOperator. destruct (contentStream p); reflexivity.
  - unfold pushOperator. destruct (contentStream p); reflexivity.
  - unfold pushOperator. destruct (contentStream p); reflexivity.
  - unfold pushOperator. destruct (contentStream p); cbn [Contents].
    + exists []. rewrite app_nil_r. split; [reflexivity | constructor].
    + rewrite entries_addContentStream. destruct (Contents p) as [|x|l].
      * exists [Own]. split; [reflexivity | apply Forall_added_library].
      * exists [PushGraphicsState; PopGraphicsState; Own]. split.
        -- simpl. apply Permutation_swap.
        -- apply Forall_added_library.
      * exists [PushGraphicsState; PopGraphicsState; Own]. split.
        -- simpl. apply Permutation_middle.
        -- apply Forall_added_library.
  - exists [op]. apply operators_pushOperator.
Qed.

Lemma draw_keepsOrder (op : operator) (p p' : Page) :
  draw op p = Ok p' -> keepsOrder p p'.
Proof.
  unfold draw. destruct (accepts op); [|intros Hd; discriminate Hd].
  intros Hd. inversion Hd; subst p'. unfold keepsOrder, pushOperator.
  destruct (contentStream p); cbn [Contents]; [reflexivity|].
  rewrite entries_addContentStream. destruct (Contents p) as [|x|l]; simpl.
  - apply sublist_nil_l.
  - apply sublist_cons, sublist_skip, sublist_nil_l.
  - apply sublist_cons, sublist_inserts_r. reflexivity.
Qed.

(** A loop keeps every relation that its body keeps and that is
    reflexive and transitive. *)
Lemma for_of_keeps {A : Type} (R : relation Page) `{!PreOrder R}
    (body : Page -> A -> outcome Page) (xs : list A) :
  (forall p x p', body p x = Ok p' -> R p p') ->
  forall p p', for_of body xs p = Ok p' -> R p p'.
Proof.
  intros Hbody. induction xs as [|x xs IH]; intros p p' Hrun; simpl in Hrun.
  - inversion Hrun. reflexivity.
  - apply obind_Ok in Hrun as (q & Hq & Hrest).
    etrans; [eapply Hbody, Hq | apply IH, Hrest].
Qed.

Lemma for3x3_keeps (R : relation Page) `{!PreOrder R}
    (body : Z -> Z -> Page -> outcome Page) (p p' : Page) :
  (forall ix iy q q', body ix iy q = Ok q' -> R q q') ->
  for3x3 body p = Ok p' -> R p p'.
Proof.
  intros Hbody. unfold for3x3. apply (for_of_keeps R).
  intros q ix q'. apply (for_of_keeps R). intros q1 iy q2. apply Hbody.
Qed.

Lemma moveLastToFront_Permutation (l : list streamRef) : moveLastToFront l ≡ₚ l.
Proof.
  unfold moveLastToFront. destruct (0 <? Z.of_nat (length l) - 1); [|reflexivity].
  destruct (l !! Z.to_nat (Z.of_nat (length l) - 1)) as [x|] eqn:Hx; [|reflexivity].
  symmetry. apply delete_Permutation, Hx.
Qed.

(** The drawing of the loop body keeps every such relation that a
    drawing call keeps. *)
Lemma drawWatermark_keeps (R : relation Page) `{!PreOrder R}
    (s : WatermarkSettings) (isPreview : bool)
    (image : option (Q * Q)) (p p' : Page) :
  (forall op q q', draw op q = Ok q' -> R q q') ->
  drawWatermark s isPreview image p = Ok p' -> R p p'.
Proof.
  intros Hdraw. unfold drawWatermark. destruct (type s).
  - unfold drawTextWatermark. simpl.
    destruct (rgbOfHex (textColor s)) as [color|]; [|intros Hd; discriminate Hd].
    simpl. destruct (widthOfTextAtSize (text s) (textSize s)) as [w|];
      [|intros Hd; discriminate Hd].
    simpl. destruct (isTiled s).
    + apply (for3x3_keeps R). intros ix iy q q'. apply Hdraw.
    + apply Hdraw.
  - destruct isPreview.
    + unfold drawPlaceholderWatermark. simpl.
      assert (forall x y q q',
                 (q1 ← draw (DrawRectangle x y (200 * imageScale s) (100 * imageScale s)
                               (opacity s) (rotation s)) q;
                  draw (DrawText "IMAGE" (x + 200 * imageScale s / 2 - 20)
                          (y + 100 * imageScale s / 2 - 5) 12
                          (1 # 2, 1 # 2, 1 # 2)%Q None (rotation s)) q1) = Ok q' ->
                 R q q') as Hplace.
      { intros x y q q' (q1 & Hq1 & Hq')%obind_Ok.
        etrans; eapply Hdraw; eassumption. }
      destruct (isTiled s).
      * apply (for3x3_keeps R). intros ix iy q q'. apply Hplace.
      * apply Hplace.
    + destruct image as [dims|].
      * unfold drawImageWatermark. simpl. destruct (isTiled s).
        -- apply (for3x3_keeps R). intros ix iy q q'. apply Hdraw.
        -- apply Hdraw.
      * intros Hd. inversion Hd. reflexivity.
Qed.

Lemma processPage_extends (s : WatermarkSettings) (isPreview : bool)
    (image : option (Q * Q)) (p p' : Page) :
  processPage s isPreview image p = Ok p' -> extends p p'.
Proof.
  unfold processPage. intros (drawn & Hdrawn & Hlayer)%obind_Ok.
  apply (drawWatermark_keeps extends) in Hdrawn; [|exact draw_extends].
  eapply extends_trans; [exact Hdrawn|].
  destruct (layer s); inversion Hlayer; [apply extends_refl|].
  unfold layerUnder. destruct (Contents drawn) as [| |l] eqn:Hc; simpl;
    try apply extends_refl.
  repeat split; simpl; auto.
  - rewrite Hc. simpl. exists []. rewrite app_nil_r.
    split; [apply moveLastToFront_Permutation | constructor].
  - exists []. rewrite app_nil_r. reflexivity.
Qed.

Lemma processPage_keepsOrder (s : WatermarkSettings) (isPreview : bool)
    (image : option (Q * Q)) (p p' : Page) :
  layer s = over ->
  processPage s isPreview image p = Ok p' -> keepsOrder p p'.
Proof.
  intros Hover. unfold processPage. rewrite Hover.
  intros (drawn & Hdrawn & Hlayer)%obind_Ok. inversion Hlayer; subst p'.
  apply (drawWatermark_keeps keepsOrder) in Hdrawn; [exact Hdrawn|].
  exact draw_keepsOrder.
Qed.

(** X11.  A watermark only adds marks.  The document that
    [applyWatermark] hands to [save] has as many pages as the file, and
    [save] writes it as it is, or writes one blank page when the file
    has none; the pages outside the range are as they were loaded; and
    every page
    keeps its rotation and its boxes, has its earlier drawing operators
    before the new ones, and has the content streams it had together
    with streams of the library only.  With the layer above, the streams
    it had are also in the order they had (with the layer under, the
    last one can be moved to the front). *)
Theorem watermark_only_adds_marks (s : WatermarkSettings) (f : File)
    (isPreview : bool) (bytes : FileData) :
  applyWatermark s f isPreview = Some bytes ->
  exists pages pages',
    data f = PdfData pages /\ bytes = save pages' /\
    length pages' = length pages /\
    match pages with
    | [] => bytes = PdfData [defaultPage]
    | _ :: _ => bytes = PdfData pages'
    end /\
    (forall j p, page_at pages j = Some p ->
       exists p', page_at pages' j = Some p' /\ extends p p' /\
                  (layer s = over -> keepsOrder p p')) /\
    (forall j, j ∉ pagesToProcess s isPreview pages ->
       page_at pages' j = page_at pages j).
Proof.
  intros Hrun.
  apply applyWatermark_Some_inv in Hrun
    as (pages & pages' & Hdata & Hbytes & Hlen & Hin & Hout).
  exists pages, pages'.
  split; [exact Hdata|]. split; [exact Hbytes|]. split; [exact Hlen|].
  split; [rewrite Hbytes; apply save_same_length, Hlen|].
  split; [|exact Hout].
  intros j p Hp.
  destruct (decide (j ∈ pagesToProcess s isPreview pages)) as [Hj|Hj].
  - destruct (Hin j Hj) as (q & q' & Hq & Hproc & Hq').
    rewrite Hp in Hq. inversion Hq; subst q.
    exists q'. split; [exact Hq'|]. split; [eapply processPage_extends, Hproc|].
    intros Hover. eapply processPage_keepsOrder; eassumption.
  - exists p. split; [rewrite (Hout j Hj); exact Hp|].
    split; [apply extends_refl|]. intros _. unfold keepsOrder. reflexivity.
Qed.

(** X12.  The image of an image watermark is embedded whenever its bytes
    are a PNG or a JPEG, whatever type the file declares, and in no
    other case: not for a text watermark, not in a preview, not without
    a file and not for bytes of another kind. *)
Theorem image_is_embedded_by_content (s : WatermarkSettings) (isPreview : bool)
    (dims : Q * Q) :
  embeddedImage s isPreview = Some dims <->
  type s = image_type /\ isPreview = false /\
  exists img,
    imageFile s = Some img /\
    (data img = PngData (fst dims) (snd dims) \/
     data img = JpgData (fst dims) (snd dims)).
Proof.
  unfold embeddedImage. destruct dims as [w h]. simpl.
  destruct (type s); [split; [intros He; discriminate He | intros (Ht & _); discriminate Ht]|].
  destruct (imageFile s) as [img|];
    [|split; [intros He; discriminate He
             | intros (_ & _ & img & Himg & _); discriminate Himg]].
  destruct isPreview;
    [split; [intros He; discriminate He | intros (_ & Hp & _); discriminate Hp]|].
  split.
  - intros He. split; [reflexivity|]. split; [reflexivity|]. exists img.
    split; [reflexivity|].
    destruct (String.eqb (fileType img) "image/png"), (data img) as [? | w' h' | w' h' |];
      simpl in He; inversion He; subst; auto.
  - intros (_ & _ & img' & Himg & Hdata). inversion Himg; subst img'.
    destruct (String.eqb (fileType img) "image/png");
      destruct Hdata as [-> | ->]; reflexivity.
Qed.

(** X13.  The preview of the watermark tool does not depend on the range
    of pages, and depends on the image file only through whether one is
    chosen.  For an image watermark without an image the preview effect
    shows the selected file itself; in every other case it shows what
    [applyWatermark] returns for a preview, which is the same whatever
    the range and whatever the image file, and in which every page but
    the first is as it was loaded. *)
Theorem watermark_preview_marks_first_page (s : WatermarkSettings) (f : File)
    (startPage' endPage' : option Z) (imageFile' : option File)
    (file previewFile : option File) :
  applyWatermark (withRange startPage' endPage' (withImageFile imageFile' s)) f true
  = applyWatermark s f true /\
  previewEffect (withRange startPage' endPage' s) file previewFile
  = previewEffect s file previewFile /\
  (type s = text_type \/ (imageFile s <> None /\ imageFile' <> None) ->
   previewEffect (withImageFile imageFile' s) file previewFile
   = previewEffect s file previewFile) /\
  (type s = image_type ->
   previewEffect (withImageFile None s) (Some f) previewFile = Some f) /\
  (type s = text_type \/ imageFile s <> None ->
   previewEffect s (Some f) previewFile
   = match applyWatermark s f true with
     | Some pdfBytes => Some (mkFile "preview.pdf" "application/pdf" pdfBytes)
     | None => previewFile
     end) /\
  forall bytes,
    applyWatermark s f true = Some bytes ->
    exists pages pages',
      data f = PdfData pages /\ bytes = PdfData pages' /\
      length pages' = length pages /\
      forall j, j <> 0 -> page_at pages' j = page_at pages j.
Proof.
  assert (forall image,
             applyWatermark (withRange startPage' endPage' (withImageFile image s)) f true
             = applyWatermark s f true) as Hsame.
  { intros image. unfold applyWatermark, embeddedImage. simpl.
    destruct (type s); [reflexivity|].
    destruct (imageFile s), image; reflexivity. }
  split; [apply Hsame|]. split; [|split; [|split; [|split]]].
  - unfold previewEffect. destruct file as [g|]; [|reflexivity]. simpl.
    assert (applyWatermark (withRange startPage' endPage' s) g true
            = applyWatermark s g true) as ->; [|reflexivity].
    unfold applyWatermark, embeddedImage. simpl.
    destruct (type s); [reflexivity|]. destruct (imageFile s); reflexivity.
  - intros Hkind. unfold previewEffect. destruct file as [g|]; [|reflexivity]. simpl.
    assert (applyWatermark (withImageFile imageFile' s) g true
            = applyWatermark s g true) as Happly.
    { unfold applyWatermark, embeddedImage. simpl.
      destruct (type s); [reflexivity|].
      destruct (imageFile s), imageFile'; reflexivity. }
    rewrite Happly.
    destruct (type s); [reflexivity|].
    destruct Hkind as [Ht|[Hs Hi]]; [discriminate Ht|].
    destruct (imageFile s); [|contradiction].
    destruct imageFile'; [reflexivity | contradiction].
  - intros Htype. unfold previewEffect. simpl. rewrite Htype. reflexivity.
  - intros Hkind. unfold previewEffect.
    destruct (type s); [reflexivity|].
    destruct Hkind as [Ht|Hs]; [discriminate Ht|].
    destruct (imageFile s); [reflexivity | contradiction].
  - intros bytes Hrun.
    apply applyWatermark_Some_inv in Hrun
      as (pages & pages' & Hdata & Hbytes & Hlen & Hin & Hout).
    assert (pages' <> []) as Hne.
    { destruct (Hin 0) as (p & p' & _ & _ & Hp'); [left|].
      intros ->. discriminate Hp'. }
    exists pages, pages'. split; [exact Hdata|].
    split; [rewrite Hbytes; apply save_nonempty, Hne|]. split; [exact Hlen|].
    intros j Hj. apply Hout. simpl. intros Hj0.
    apply list_elem_of_singleton in Hj0. contradiction.
Qed.

(** X14.  With the layer under the content, a page on which nothing is
    drawn, as happens for an image watermark whose image could not be
    embedded, still has the last stream it already had moved in front of
    the others. *)
Theorem under_layer_without_mark_reorders_page (s : WatermarkSettings)
    (page : Page) (pre : list streamRef) (x : streamRef) :
  type s = image_type -> layer s = under ->
  embeddedImage s false = None ->
  pre <> [] -> Contents page = PDFArray (pre ++ [x]) ->
  processPage s false (embeddedImage s false) page
  = Ok (mkPage (Rotate page) (MediaBox page) (CropBox page)
          (PDFArray (x :: pre)) (contentStream page)).
Proof.
  intros Htype Hlayer Hembed Hpre Hcontents.
  unfold processPage, drawWatermark. rewrite Htype, Hembed, Hlayer. simpl.
  unfold layerUnder. rewrite Hcontents. simpl.
  rewrite moveLastToFront_snoc by exact Hpre. reflexivity.
Qed.

End WatermarkMore.

Lemma watermark_only_adds_marks_witness :
  let pages := [scannedPage 612 792 90; blankPage 612 792] in
  let f := mkFile "scan.pdf" "application/pdf" (PdfData pages) in
  exists pages',
    @WatermarkPdf.applyWatermark testLib WatermarkPdf.defaultSettings f false
    = Some (save pages') /\
    length pages' = 2%nat.
Proof.
  intros pages f.
  destruct (@WatermarkPdf.applyWatermark testLib WatermarkPdf.defaultSettings f false)
    as [bytes|] eqn:Hrun; [|vm_compute in Hrun; discriminate Hrun].
  destruct (@watermark_only_adds_marks testLib WatermarkPdf.defaultSettings f false
              bytes Hrun)
    as (pages0 & pages' & Hdata & Hbytes & Hlen & _).
  exists pages'. split; [rewrite Hbytes; reflexivity|].
  rewrite Hlen. inversion Hdata. reflexivity.
Defined.

Lemma under_layer_without_mark_reorders_page_witness :
  let logo := mkFile "logo.png" "image/png" OtherData in
  let s := WatermarkPdf.mkWatermarkSettings WatermarkPdf.image_type "" 48
             "#FF0000" (1 # 2) 0 WatermarkPdf.cc (Some logo) (1 # 2) false
             (Some 1) None WatermarkPdf.under in
  let page := mkPage 0 (mkRect 0 0 612 792) None
                (PDFArray [Existing 0; Existing 1]) None in
  @WatermarkPdf.processPage testLib s false (WatermarkPdf.embeddedImage s false) page
  = Ok (mkPage 0 (mkRect 0 0 612 792) None (PDFArray [Existing 1; Existing 0]) None).
Proof.
  intros logo s page.
  apply (@under_layer_without_mark_reorders_page testLib s page [Existing 0] (Existing 1));
    try reflexivity.
  discriminate.
Defined.

(** ** Page numbers: preview, labels, and what is left alone *)

Section PageNumberMore.
Context `{PdfLib}.
Import PageNumbers.

Lemma list_ascii_of_string_app (a b : string) :
  list_ascii_of_string (a +:+ b) = list_ascii_of_string a ++ list_ascii_of_string b.
Proof.
  induction a as [|c a IH]; [reflexivity|]. simpl. f_equal. exact IH.
Qed.

Lemma string_app_inv_tail (a b t : string) : a +:+ t = b +:+ t -> a = b.
Proof.
  intros Heq. apply (f_equal list_ascii_of_string) in Heq.
  rewrite !list_ascii_of_string_app in Heq. apply app_inv_tail in Heq.
  apply (f_equal string_of_list_ascii) in Heq.
  rewrite !string_of_list_ascii_of_string in Heq. exact Heq.
Qed.

Lemma numberText_inj (fmt : Format) (a b total : Z) :
  Z.abs a <= 2 ^ 53 -> Z.abs b <= 2 ^ 53 ->
  numberText fmt a total = numberText fmt b total -> a = b.
Proof.
  intros Ha Hb. unfold numberText.
  rewrite (numberToString_safe a Ha), (numberToString_safe b Hb).
  destruct fmt; intros Heq.
  - apply (inj pretty), Heq.
  - apply string_app_inv_tail in Heq. apply (inj pretty), Heq.
  - apply (inj (String.append "Page ")) in Heq. apply (inj pretty), Heq.
  - apply (inj (String.append "Page ")) in Heq.
    apply string_app_inv_tail in Heq. apply (inj pretty), Heq.
Qed.

(** X15.  As long as the numbers are integers of magnitude up to 2^53
    ([|startFrom| + total <= 2^53]), no two pages of the range of a
    page-number operation get the same text, in any of the four formats.
    Beyond that they can: with the start value 2^53 - 1 the second and
    the third page of the range get the same text, whatever the
    format. *)
Theorem page_labels_are_distinct (s : PageNumberSettings) (total i j : Z) :
  (Z.abs (startFrom s) + total <= 2 ^ 53 ->
   i ∈ pagesToProcess s false total -> j ∈ pagesToProcess s false total ->
   i <> j -> textFor s total i <> textFor s total j) /\
  (let beyond := withStartFrom (2 ^ 53 - 1) (withRange 1 None s) in
   textFor beyond total 1 = textFor beyond total 2).
Proof.
  split.
  - intros Hsafe Hi Hj Hne Heq.
    destruct (textFor_safe s total i Hsafe Hi) as [HNi _].
    destruct (textFor_safe s total j Hsafe Hj) as [HNj _].
    unfold textFor in Heq. fold (startIdx s) in HNi, HNj.
    rewrite (roundToDouble_safe _ HNi), (roundToDouble_safe _ HNj) in Heq.
    apply numberText_inj in Heq; [lia | exact HNi | exact HNj].
  - reflexivity.
Qed.

(** X16.  The preview of the page numbers is a document of one page: the
    first page of the range, numbered with the start value.  It fails
    when the range starts after the last page. *)
Theorem page_number_preview (s : PageNumberSettings) (f : File) (pages : list Page) :
  data f = PdfData pages ->
  let total := Z.of_nat (length pages) in
  (total <= startIdx s -> applyPageNumbers s f true = None) /\
  (forall p p',
      page_at pages (startIdx s) = Some p ->
      numberPage s total (startIdx s) p = Ok p' ->
      applyPageNumbers s f true = Some (PdfData [p'])) /\
  textFor s total (startIdx s)
  = numberText (format s) (roundToDouble (startFrom s)) total /\
  (Z.abs (startFrom s) <= 2 ^ 53 ->
   textFor s total (startIdx s) = numberText (format s) (startFrom s) total).
Proof.
  intros Hdata total. split; [|split; [|split]].
  - intros Hbeyond. apply (applyPageNumbers_preview_aborts s f pages Hdata).
    intros p Hp. apply page_at_Some in Hp as [_ Hp].
    apply lookup_lt_Some in Hp. fold total in Hbeyond. lia.
  - intros p p' Hp Hnum.
    unfold applyPageNumbers. rewrite Hdata.
    cbn [load pagesToProcess for_of]. simpl. fold total.
    unfold numberAt.
    assert (startIdx s < total) as Hlt.
    { apply page_at_Some in Hp as [_ Hp]. apply lookup_lt_Some in Hp.
      assert (0 <= startIdx s) by (unfold startIdx; lia). subst total. lia. }
    destruct (Z.leb_spec total (startIdx s)); [lia|].
    unfold mutate_page. rewrite Hp, Hnum. simpl.
    unfold previewDocument. rewrite (page_at_insert_eq pages _ p p' Hp). reflexivity.
  - unfold textFor. do 2 f_equal. lia.
  - intros Hsafe. unfold textFor.
    replace (startFrom s + (startIdx s - startIdx s)) with (startFrom s) by lia.
    rewrite (roundToDouble_safe _ Hsafe). reflexivity.
Qed.

(** X17.  Page numbers only add a mark.  The document that
    [applyPageNumbers] hands to [save] for a download has as many pages
    as the file, and [save] writes it as it is, or writes one blank page
    when the file has none; the pages outside the range are as they were
    loaded;
    and a page of the range keeps its rotation and its boxes, keeps its
    content streams in their order, to which streams of the library only
    are added, and has exactly one drawing operator more than before. *)
Theorem page_numbers_only_add_a_mark (s : PageNumberSettings) (f : File)
    (bytes : FileData) :
  applyPageNumbers s f false = Some bytes ->
  exists pages pages',
    data f = PdfData pages /\ bytes = save pages' /\
    length pages' = length pages /\
    match pages with
    | [] => bytes = PdfData [defaultPage]
    | _ :: _ => bytes = PdfData pages'
    end /\
    (forall j p, page_at pages j = Some p ->
       exists p',
         page_at pages' j = Some p' /\ extends p p' /\ keepsOrder p p' /\
         (j ∈ pagesToProcess s false (Z.of_nat (length pages)) ->
          length (operators p') = S (length (operators p))) /\
         (j ∉ pagesToProcess s false (Z.of_nat (length pages)) -> p' = p)).
Proof.
  intros Hrun.
  apply applyPageNumbers_Some_inv in Hrun
    as (pages & pages' & Hdata & Hbytes & Hlen & Hin & Hout).
  exists pages, pages'.
  split; [exact Hdata|]. split; [exact Hbytes|]. split; [exact Hlen|].
  split; [rewrite Hbytes; apply save_same_length, Hlen|].
  intros j p Hp.
  destruct (decide (j ∈ pagesToProcess s false (Z.of_nat (length pages)))) as [Hj|Hj].
  - destruct (Hin j Hj) as (q & q' & Hq & Hnum & Hq').
    rewrite Hp in Hq. inversion Hq; subst q.
    exists q'. split; [exact Hq'|].
    apply numberPage_Ok in Hnum as (w & c & _ & _ & Hacc & ->).
    assert (draw (DrawText (textFor s (Z.of_nat (length pages)) j)
                    (positionX s (rect_width (MediaBox p)) w)
                    (positionY s (rect_height (MediaBox p)) (heightAtSize (fontSize s)))
                    (fontSize s) c None 0) p
            = Ok (pushOperator
                    (DrawText (textFor s (Z.of_nat (length pages)) j)
                       (positionX s (rect_width (MediaBox p)) w)
                       (positionY s (rect_height (MediaBox p))
                          (heightAtSize (fontSize s)))
                       (fontSize s) c None 0) p)) as Hdraw
      by (unfold draw; rewrite Hacc; reflexivity).
    split; [exact (draw_extends _ _ _ Hdraw)|].
    split; [exact (draw_keepsOrder _ _ _ Hdraw)|]. split.
    + intros _. rewrite operators_pushOperator, length_app. simpl. lia.
    + intros Hnot. contradiction.
  - exists p. split; [rewrite (Hout j Hj); exact Hp|].
    split; [apply extends_refl|]. split; [unfold keepsOrder; reflexivity|].
    split; [intros Hyes; contradiction | reflexivity].
Qed.

End PageNumberMore.

(** ** Rotate tool: a whole session, from opening the file to saving *)

Section RotateMore.
Import RotatePdf.

Lemma quarter_step (r angle : Z) :
  quarter r -> angle = -90 \/ angle = 90 -> quarter (Z.rem (r + angle) 360).
Proof.
  unfold quarter. intros [Hr Hb] Ha. split.
  - destruct Ha; subst angle; Z.to_euclidean_division_equations; lia.
  - apply rem360_bound.
Qed.

Lemma handleClick_rendered (c : click) (prev : list Z) :
  rendered (length prev) c -> Forall quarter prev ->
  exists next, handleClick c prev = Some next /\
               length next = length prev /\ Forall quarter next.
Proof.
  destruct c as [angle|index angle]; simpl.
  - intros Ha Hq. eexists. split; [reflexivity|].
    unfold handleRotateAll. split; [apply length_fmap|].
    apply Forall_fmap. eapply Forall_impl; [exact Hq|].
    intros r Hr. simpl. apply quarter_step; assumption.
  - intros [Hi Ha] Hq. unfold handleRotatePage.
    destruct (lookup_lt_is_Some_2 prev index Hi) as [r Hr]. rewrite Hr.
    eexists. split; [reflexivity|]. split; [apply length_insert|].
    apply Forall_insert; [exact Hq|].
    apply quarter_step; [|exact Ha].
    eapply Forall_lookup_1; eassumption.
Qed.

Lemma handleClicks_rendered (cs : list click) :
  forall prev : list Z,
    Forall (rendered (length prev)) cs -> Forall quarter prev ->
    exists next, handleClicks cs prev = Some next /\
                 length next = length prev /\ Forall quarter next.
Proof.
  induction cs as [|c cs IH]; intros prev Hcs Hq; simpl.
  - exists prev. auto.
  - inversion Hcs as [|c' cs' Hc Hrest]; subst.
    destruct (handleClick_rendered c prev Hc Hq) as (mid & -> & Hlen & Hmid).
    rewrite <- Hlen in Hrest.
    destruct (IH mid Hrest Hmid) as (next & Hnext & Hlen' & Hq').
    exists next. split; [exact Hnext|]. split; [congruence | exact Hq'].
Qed.

Lemma savePage_quarter (rotations : list Z) (index : nat) (page : Page) (r : Z) :
  rotations !! index = Some r -> Z.rem r 90 = 0 -> Z.rem (Rotate page) 90 = 0 ->
  exists page', savePage rotations index page = Ok page' /\ turnedBy r page page'.
Proof.
  intros Hr Hq Hp. unfold savePage. rewrite Hr.
  destruct (Z.eqb_spec r 0) as [->|Hne].
  - exists page. split; [reflexivity|]. unfold turnedBy. repeat split. lia.
  - unfold setRotation.
    assert (Z.rem (Rotate page + r) 90 = 0) as ->
      by (Z.to_euclidean_division_equations; lia).
    simpl. eexists. split; [reflexivity|]. unfold turnedBy. simpl. repeat split.
Qed.

Lemma forEachPage_quarter (rotations : list Z) (pages : list Page) :
  forall k : nat,
    (k + length pages <= length rotations)%nat ->
    Forall quarter rotations ->
    Forall (fun p => Z.rem (Rotate p) 90 = 0) pages ->
    exists pages',
      forEachPage rotations k pages = Ok pages' /\
      length pages' = length pages /\
      forall (i : nat) (p : Page),
        pages !! i = Some p ->
        exists r p', rotations !! (k + i)%nat = Some r /\
                     pages' !! i = Some p' /\ turnedBy r p p'.
Proof.
  induction pages as [|q rest IH]; intros k Hlen Hrot Hpages.
  - exists []. split; [reflexivity|]. split; [reflexivity|].
    intros i p Hp. inversion Hp.
  - simpl in Hlen. inversion Hpages as [|q0 rest0 Hq Hrest]; subst.
    destruct (lookup_lt_is_Some_2 rotations k ltac:(lia)) as [r Hr].
    assert (quarter r) as [Hr90 _] by (eapply Forall_lookup_1; eassumption).
    destruct (savePage_quarter rotations k q r Hr Hr90 Hq) as (q' & Hsave & Hturn).
    destruct (IH (S k) ltac:(lia) Hrot Hrest) as (rest' & Hrun & Hlen' & Hall).
    exists (q' :: rest'). simpl. rewrite Hsave. simpl. rewrite Hrun. simpl.
    split; [reflexivity|]. split; [congruence|].
    intros [|i] p Hp; simpl in Hp.
    + inversion Hp; subst p. exists r, q'.
      replace (k + 0)%nat with k by lia. auto.
    + destruct (Hall i p Hp) as (ri & p' & Hri & Hp' & Hturn').
      exists ri, p'. replace (k + S i)%nat with (S k + i)%nat by lia. auto.
Qed.

(** X18.  A session of the rotate tool.  For a document whose page
    rotations are multiples of 90, after any sequence of clicks on the
    rendered rotate buttons the save succeeds; the document handed to
    [save] (which writes it as it is, or one blank page when the file
    has none) has the pages of the file in their order, and each of them
    differs from the loaded one in its rotation only: the written angle
    is the angle of the page plus the rotation kept for it, which lies
    strictly between -360 and 360 and is congruent modulo 360 to the sum
    of the clicks on that page. *)
Theorem rotate_session (f : File) (pages : list Page) (cs : list click) :
  data f = PdfData pages ->
  Forall (fun p => Z.rem (Rotate p) 90 = 0) pages ->
  Forall (rendered (length pages)) cs ->
  exists (rotations : list Z) (pages' : list Page),
    handleFileSelected f = Some (replicate (length pages) 0) /\
    handleClicks cs (replicate (length pages) 0) = Some rotations /\
    handleSave f rotations = Some (save pages') /\
    length pages' = length pages /\
    match pages with
    | [] => save pages' = PdfData [defaultPage]
    | _ :: _ => save pages' = PdfData pages'
    end /\
    forall (i : nat) (p : Page),
      pages !! i = Some p ->
      exists r p', rotations !! i = Some r /\ pages' !! i = Some p' /\
                   turnedBy r p p' /\
                   -360 < r < 360 /\ (r - sumDeltas i cs) mod 360 = 0.
Proof.
  intros Hdata Hpages Hcs.
  set (n := length pages).
  assert (Forall quarter (replicate n 0)) as Hzero.
  { apply Forall_replicate. split; [reflexivity | lia]. }
  assert (length (replicate n 0) = n) as Hn by apply length_replicate.
  destruct (handleClicks_rendered cs (replicate n 0)) as (rotations & Hrun & Hlen & Hq);
    [rewrite Hn; exact Hcs | exact Hzero |].
  rewrite Hn in Hlen.
  destruct (forEachPage_quarter rotations pages 0%nat) as (pages' & Hsave & Hlen' & Hall);
    [simpl; fold n; lia | exact Hq | exact Hpages |].
  exists rotations, pages'.
  split; [unfold handleFileSelected; rewrite Hdata; reflexivity|].
  split; [exact Hrun|].
  split; [unfold handleSave; rewrite Hdata; simpl; rewrite Hsave; reflexivity|].
  split; [exact Hlen'|].
  split; [apply save_same_length, Hlen'|].
  intros i p Hp.
  destruct (Hall i p Hp) as (r & p' & Hr & Hp' & Hturn). simpl in Hr.
  exists r, p'. split; [exact Hr|]. split; [exact Hp'|]. split; [exact Hturn|].
  assert (quarter r) as [_ Hb] by (eapply Forall_lookup_1; eassumption).
  split; [exact Hb|].
  assert (replicate n 0 !! i = Some 0) as Hz.
  { apply lookup_replicate_2. apply lookup_lt_Some in Hp. exact Hp. }
  destruct (handleClicks_congruent cs _ _ _ _ Hrun Hz) as (r' & Hr' & Hmod).
  rewrite Hr in Hr'. inversion Hr'; subst r'. exact Hmod.
Qed.

End RotateMore.

Lemma rotate_session_witness :
  let pages := [scannedPage 612 792 270; blankPage 612 792] in
  let f := mkFile "b.pdf" "application/pdf" (PdfData pages) in
  let cs := [RotatePdf.RotateAll 90; RotatePdf.RotatePage 1 (-90);
             RotatePdf.RotatePage 1 (-90)] in
  exists pages',
    RotatePdf.handleSave f [90; -90] = Some (save pages') /\
    length pages' = 2%nat.
Proof.
  intros pages f cs.
  destruct (rotate_session f pages cs) as (rotations & pages' & _ & Hrun & Hsave & Hlen & _).
  - reflexivity.
  - repeat constructor.
  - repeat constructor; simpl; lia.
  - vm_compute in Hrun. inversion Hrun; subst rotations.
    exists pages'. split; [exact Hsave | exact Hlen].
Defined.

Lemma image_is_embedded_by_content_witness :
  let photo := mkFile "logo.png" "image/png" (JpgData 40 30) in
  let s := WatermarkPdf.withImageFile (Some photo)
             (WatermarkPdf.mkWatermarkSettings WatermarkPdf.image_type "" 48
                "#FF0000" (1 # 2) 0 WatermarkPdf.cc None (1 # 2) false
                (Some 1) None WatermarkPdf.over) in
  WatermarkPdf.embeddedImage s false = Some (40 : Q, 30 : Q).
Proof.
  intros photo s.
  apply (image_is_embedded_by_content s false (40 : Q, 30 : Q)).
  split; [reflexivity|]. split; [reflexivity|].
  exists photo. split; [reflexivity|]. right. reflexivity.
Defined.

Lemma watermark_preview_marks_first_page_witness :
  let pages := [blankPage 612 792; scannedPage 612 792 0] in
  let f := mkFile "scan.pdf" "application/pdf" (PdfData pages) in
  let s := WatermarkPdf.defaultSettings in
  let logo := WatermarkPdf.mkWatermarkSettings WatermarkPdf.image_type "" 48
                "#FF0000" (1 # 2) 0 WatermarkPdf.cc
                (Some (mkFile "logo.png" "image/png" (PngData 40 30))) (1 # 2) false
                (Some 1) None WatermarkPdf.over in
  @WatermarkPdf.applyWatermark testLib
    (WatermarkPdf.withRange (Some 2) (Some 2) (WatermarkPdf.withImageFile None s)) f true
  = @WatermarkPdf.applyWatermark testLib s f true /\
  @WatermarkPdf.previewEffect testLib (WatermarkPdf.withImageFile None logo)
    (Some f) None = Some f /\
  exists pages',
    @WatermarkPdf.applyWatermark testLib s f true = Some (PdfData pages') /\
    page_at pages' 1 = Some (scannedPage 612 792 0).
Proof.
  intros pages f s logo.
  destruct (@watermark_preview_marks_first_page testLib s f (Some 2) (Some 2) None
              (Some f) None)
    as (Hsame & _ & _ & _ & _ & Hrest).
  destruct (@watermark_preview_marks_first_page testLib logo f None None None
              (Some f) None)
    as (_ & _ & _ & Horiginal & _).
  split; [exact Hsame|]. split; [exact (Horiginal eq_refl)|].
  destruct (@WatermarkPdf.applyWatermark testLib s f true) as [bytes|] eqn:Hrun;
    [|vm_compute in Hrun; discriminate Hrun].
  destruct (Hrest bytes eq_refl) as (pages0 & pages' & Hdata & -> & _ & Hout).
  exists pages'. split; [reflexivity|].
  rewrite (Hout 1 ltac:(lia)). inversion Hdata. reflexivity.
Defined.

Lemma page_labels_are_distinct_witness :
  let s := PageNumbers.withFormat PageNumbers.Page_n_of_total
             PageNumbers.defaultSettings in
  PageNumbers.textFor s 20 3 <> PageNumbers.textFor s 20 4 /\
  PageNumbers.textFor
    (PageNumbers.withStartFrom (2 ^ 53 - 1) (PageNumbers.withRange 1 None s)) 20 1
  = PageNumbers.textFor
      (PageNumbers.withStartFrom (2 ^ 53 - 1) (PageNumbers.withRange 1 None s)) 20 2.
Proof.
  intros s.
  destruct (page_labels_are_distinct s 20 3 4) as [Hdistinct Hsame].
  split; [|exact Hsame].
  apply Hdistinct.
  - vm_compute. discriminate.
  - rewrite pageNumbers_pagesToProcess_seqZ. apply elem_of_seqZ. vm_compute.
    split; [discriminate | reflexivity].
  - rewrite pageNumbers_pagesToProcess_seqZ. apply elem_of_seqZ. vm_compute.
    split; [discriminate | reflexivity].
  - discriminate.
Defined.

Lemma page_number_preview_witness :
  let pages := [blankPage 612 792; scannedPage 612 792 0; blankPage 300 400] in
  let f := mkFile "book.pdf" "application/pdf" (PdfData pages) in
  let s := PageNumbers.withRange 3 None PageNumbers.defaultSettings in
  @PageNumbers.applyPageNumbers testLib (PageNumbers.withRange 4 None s) f true = None /\
  (exists p', @PageNumbers.applyPageNumbers testLib s f true = Some (PdfData [p']) /\
              length (operators p') = 1%nat) /\
  PageNumbers.textFor s 3 (PageNumbers.startIdx s) = "1"%string.
Proof.
  intros pages f s. split; [|split].
  - destruct (@page_number_preview testLib (PageNumbers.withRange 4 None s) f pages eq_refl)
      as (Hbeyond & _).
    apply Hbeyond. vm_compute. discriminate.
  - destruct (@page_number_preview testLib s f pages eq_refl) as (_ & Hshown & _).
    destruct (@PageNumbers.numberPage testLib s 3 (PageNumbers.startIdx s)
                (blankPage 300 400)) as [p'|] eqn:Hnum;
      [|vm_compute in Hnum; discriminate Hnum].
    exists p'. split; [apply (Hshown (blankPage 300 400) p' eq_refl Hnum)|].
    vm_compute in Hnum. inversion Hnum. reflexivity.
  - destruct (@page_number_preview testLib s f pages eq_refl) as (_ & _ & Htext & _).
    etrans; [exact Htext | reflexivity].
Defined.

Lemma page_numbers_only_add_a_mark_witness :
  let pages := [blankPage 612 792; scannedPage 612 792 0; blankPage 300 400] in
  let f := mkFile "book.pdf" "application/pdf" (PdfData pages) in
  let s := PageNumbers.withRange 2 (Some 3) PageNumbers.defaultSettings in
  exists pages',
    @PageNumbers.applyPageNumbers testLib s f false = Some (save pages') /\
    page_at pages' 0 = Some (blankPage 612 792) /\
    exists p', page_at pages' 2 = Some p' /\ length (operators p') = 1%nat.
Proof.
  intros pages f s.
  destruct (@PageNumbers.applyPageNumbers testLib s f false) as [bytes|] eqn:Hrun;
    [|vm_compute in Hrun; discriminate Hrun].
  destruct (@page_numbers_only_add_a_mark testLib s f bytes Hrun)
    as (pages0 & pages' & Hdata & -> & _ & _ & Hall).
  inversion Hdata; subst pages0.
  exists pages'. split; [reflexivity|]. split.
  - destruct (Hall 0 (blankPage 612 792) eq_refl) as (p' & Hp' & _ & _ & _ & Hsame).
    rewrite Hp'. f_equal. apply Hsame.
    change (0 ∉ [1; 2]). intros Hin.
    repeat (apply elem_of_cons in Hin as [Hin|Hin]; [discriminate Hin|]).
    inversion Hin.
  - destruct (Hall 2 (blankPage 300 400) eq_refl) as (p' & Hp' & _ & _ & Hone & _).
    exists p'. split; [exact Hp'|]. rewrite Hone; [reflexivity|].
    change (2 ∈ [1; 2]). right. left.
Defined.
